(** * ResultEase: a shallow embedding of the ingestion, validation and
    ranking core (src/domain, src/features/excel, ValidationService,
    ResultCalculator), with the properties of its specification.

    Modelling conventions.
    - A JavaScript number is a [jsnum]: NaN, the two infinities, or a finite
      value kept as an exact rational (the rounding of IEEE doubles is not
      modelled; -0 is identified with 0).
    - A JavaScript string is a [String.string]; characters are 8-bit code
      units, case mappings act on A-Z/a-z, white space is the JavaScript
      white space and line terminators found in that range.
    - A [Map] or a plain object used as a dictionary is an association list
      in insertion order; [map_set] replaces the value of an existing key in
      place and appends a new key, as [Map.prototype.set] does.
    - Code that throws returns [Err message] in the [res] monad. *)

From Stdlib Require Import String Ascii List Bool ZArith QArith Qround Lia.
From Stdlib Require Import Sorting.Sorted Sorting.Permutation.
Import ListNotations.
Open Scope nat_scope.
Open Scope string_scope.
Open Scope list_scope.

(* ------------------------------------------------------------------ *)
(** ** JavaScript values *)

Inductive jsnum : Type :=
| JNaN
| JPosInf
| JNegInf
| JFin (q : Q).

Inductive jsval : Type :=
| JUndefined
| JNull
| JBool (b : bool)
| JNum (n : jsnum)
| JStr (s : string).

Definition Qltb (x y : Q) : bool := negb (Qle_bool y x).

Definition js_neg (n : jsnum) : jsnum :=
  match n with
  | JNaN => JNaN
  | JPosInf => JNegInf
  | JNegInf => JPosInf
  | JFin q => JFin (- q)%Q
  end.

(** IEEE addition on the extended reals. *)
Definition js_add (x y : jsnum) : jsnum :=
  match x, y with
  | JNaN, _ | _, JNaN => JNaN
  | JPosInf, JNegInf | JNegInf, JPosInf => JNaN
  | JPosInf, _ | _, JPosInf => JPosInf
  | JNegInf, _ | _, JNegInf => JNegInf
  | JFin a, JFin b => JFin (a + b)%Q
  end.

Definition js_sub (x y : jsnum) : jsnum := js_add x (js_neg y).

(** Sign of a finite value, as -1, 0 or 1. *)
Definition Qsgn (q : Q) : Z :=
  if Qeq_bool q 0%Q then 0%Z else if Qltb q 0%Q then (-1)%Z else 1%Z.

Definition inf_of_sign (s : Z) : jsnum :=
  if (s <? 0)%Z then JNegInf else JPosInf.

Definition js_mul (x y : jsnum) : jsnum :=
  match x, y with
  | JNaN, _ | _, JNaN => JNaN
  | JFin a, JFin b => JFin (a * b)%Q
  | JFin a, JPosInf | JPosInf, JFin a =>
      if Qeq_bool a 0%Q then JNaN else inf_of_sign (Qsgn a)
  | JFin a, JNegInf | JNegInf, JFin a =>
      if Qeq_bool a 0%Q then JNaN else inf_of_sign (- Qsgn a)%Z
  | JPosInf, JPosInf | JNegInf, JNegInf => JPosInf
  | JPosInf, JNegInf | JNegInf, JPosInf => JNegInf
  end.

Definition js_div (x y : jsnum) : jsnum :=
  match x, y with
  | JNaN, _ | _, JNaN => JNaN
  | JFin a, JFin b =>
      if Qeq_bool b 0%Q then
        (if Qeq_bool a 0%Q then JNaN else inf_of_sign (Qsgn a))
      else JFin (a / b)%Q
  | JFin _, JPosInf | JFin _, JNegInf => JFin 0%Q
  | JPosInf, JFin b => if Qltb b 0%Q then JNegInf else JPosInf
  | JNegInf, JFin b => if Qltb b 0%Q then JPosInf else JNegInf
  | _, _ => JNaN
  end.

(** The relational operators [<] and [<=] on numbers. *)
Definition js_lt (x y : jsnum) : bool :=
  match x, y with
  | JNaN, _ | _, JNaN => false
  | JNegInf, JNegInf => false
  | JNegInf, _ => true
  | _, JNegInf => false
  | JPosInf, _ => false
  | JFin _, JPosInf => true
  | JFin a, JFin b => Qltb a b
  end.

Definition js_isNaN (x : jsnum) : bool :=
  match x with JNaN => true | _ => false end.

Definition js_le (x y : jsnum) : bool :=
  negb (js_isNaN x) && negb (js_isNaN y) && negb (js_lt y x).

(** Strict (in)equality [===] on numbers. *)
Definition js_num_eqb (x y : jsnum) : bool :=
  match x, y with
  | JFin a, JFin b => Qeq_bool a b
  | JPosInf, JPosInf | JNegInf, JNegInf => true
  | _, _ => false
  end.

Definition js_truthy (v : jsval) : bool :=
  match v with
  | JUndefined | JNull => false
  | JBool b => b
  | JNum JNaN => false
  | JNum (JFin q) => negb (Qeq_bool q 0%Q)
  | JNum _ => true
  | JStr s => negb (String.eqb s "")
  end.

(* ------------------------------------------------------------------ *)
(** ** Strings: trim, case mapping *)

Definition is_js_space (c : ascii) : bool :=
  let n := nat_of_ascii c in
  (Nat.leb 9 n && Nat.leb n 13) || Nat.eqb n 32 || Nat.eqb n 160.

Fixpoint drop_spaces (l : list ascii) : list ascii :=
  match l with
  | c :: r => if is_js_space c then drop_spaces r else l
  | [] => []
  end.

(** [String.prototype.trim] *)
Definition trim (s : string) : string :=
  string_of_list_ascii
    (rev (drop_spaces (rev (drop_spaces (list_ascii_of_string s))))).

Definition lower_char (c : ascii) : ascii :=
  let n := nat_of_ascii c in
  if Nat.leb 65 n && Nat.leb n 90 then ascii_of_nat (n + 32) else c.

Definition upper_char (c : ascii) : ascii :=
  let n := nat_of_ascii c in
  if Nat.leb 97 n && Nat.leb n 122 then ascii_of_nat (n - 32) else c.

(** [String.prototype.toLowerCase] and [toUpperCase] *)
Definition toLowerCase (s : string) : string :=
  string_of_list_ascii (map lower_char (list_ascii_of_string s)).

Definition toUpperCase (s : string) : string :=
  string_of_list_ascii (map upper_char (list_ascii_of_string s)).

Definition slength (s : string) : nat := String.length s.

(* ------------------------------------------------------------------ *)
(** ** Number parsing: [parseFloat] and [Number(string)] *)

Definition digit_val (radix : nat) (c : ascii) : option nat :=
  let n := nat_of_ascii c in
  let d :=
    if Nat.leb 48 n && Nat.leb n 57 then Some (n - 48)
    else if Nat.leb 97 n && Nat.leb n 122 then Some (n - 87)
    else if Nat.leb 65 n && Nat.leb n 90 then Some (n - 55)
    else None in
  match d with
  | Some v => if Nat.ltb v radix then Some v else None
  | None => None
  end.

(** The longest run of digits in the given radix at the head of a list. *)
Fixpoint take_digits (radix : nat) (l : list ascii) : list nat * list ascii :=
  match l with
  | c :: r =>
      match digit_val radix c with
      | Some d => let '(ds, rest) := take_digits radix r in (d :: ds, rest)
      | None => ([], l)
      end
  | [] => ([], [])
  end.

Definition digits_to_Z (radix : nat) (ds : list nat) : Z :=
  fold_left (fun acc d => acc * Z.of_nat radix + Z.of_nat d)%Z ds 0%Z.

(** ExponentPart: [e] or [E], an optional sign, at least one digit; when
    no digit follows, nothing is consumed. *)
Definition take_exponent (l : list ascii) : Z * list ascii :=
  match l with
  | c :: r =>
      if Ascii.eqb c "e" || Ascii.eqb c "E" then
        let '(neg, r') :=
          match r with
          | s :: r'' =>
              if Ascii.eqb s "+" then (false, r'')
              else if Ascii.eqb s "-" then (true, r'') else (false, r)
          | [] => (false, r)
          end in
        match take_digits 10 r' with
        | ([], _) => (0%Z, l)
        | (ds, rest) =>
            ((if neg then - digits_to_Z 10 ds else digits_to_Z 10 ds)%Z, rest)
        end
      else (0%Z, l)
  | [] => (0%Z, [])
  end.

(** The exact value [m * 10^e]. *)
Definition decimal_value (m e : Z) : Q :=
  if (0 <=? e)%Z then inject_Z (m * 10 ^ e)
  else Qmake m (Z.to_pos (10 ^ (- e))).

Fixpoint strip_prefix (p l : list ascii) : option (list ascii) :=
  match p, l with
  | [], _ => Some l
  | a :: p', b :: l' => if Ascii.eqb a b then strip_prefix p' l' else None
  | _ :: _, [] => None
  end.

(** StrUnsignedDecimalLiteral, read greedily: the longest prefix. *)
Definition parse_unsigned_decimal (l : list ascii) : option (jsnum * list ascii) :=
  match strip_prefix (list_ascii_of_string "Infinity") l with
  | Some rest => Some (JPosInf, rest)
  | None =>
      let '(ip, r1) := take_digits 10 l in
      let no_fraction :=
        match ip with
        | [] => None
        | _ => let '(e, r2) := take_exponent r1 in
               Some (JFin (decimal_value (digits_to_Z 10 ip) e), r2)
        end in
      match r1 with
      | c :: r2 =>
          if Ascii.eqb c "." then
            let '(fp, r3) := take_digits 10 r2 in
            match ip, fp with
            | [], [] => None
            | _, _ =>
                let '(e, r4) := take_exponent r3 in
                Some (JFin (decimal_value (digits_to_Z 10 (ip ++ fp))
                                          (e - Z.of_nat (length fp))), r4)
            end
          else no_fraction
      | [] => no_fraction
      end
  end.

(** StrDecimalLiteral: an optional sign, then an unsigned literal. *)
Definition parse_decimal_literal (l : list ascii) : option (jsnum * list ascii) :=
  match l with
  | c :: r =>
      if Ascii.eqb c "+" then parse_unsigned_decimal r
      else if Ascii.eqb c "-" then
        match parse_unsigned_decimal r with
        | Some (n, rest) => Some (js_neg n, rest)
        | None => None
        end
      else parse_unsigned_decimal l
  | [] => None
  end.

(** The global [parseFloat]: leading white space is skipped, the longest
    decimal-literal prefix is read, NaN when there is none. *)
Definition parseFloat (s : string) : jsnum :=
  match parse_decimal_literal (drop_spaces (list_ascii_of_string s)) with
  | Some (n, _) => n
  | None => JNaN
  end.

(** NonDecimalIntegerLiteral: [0x], [0o] or [0b] and at least one digit,
    which must reach the end of the string. *)
Definition parse_non_decimal (l : list ascii) : option jsnum :=
  match l with
  | z :: b :: r =>
      if Ascii.eqb z "0" then
        let radix :=
          if Ascii.eqb b "x" || Ascii.eqb b "X" then 16
          else if Ascii.eqb b "o" || Ascii.eqb b "O" then 8
          else if Ascii.eqb b "b" || Ascii.eqb b "B" then 2 else 0 in
        if Nat.eqb radix 0 then None
        else match take_digits radix r with
             | ([], _) => None
             | (ds, []) => Some (JFin (inject_Z (digits_to_Z radix ds)))
             | (_, _ :: _) => None
             end
      else None
  | _ => None
  end.

(** StringToNumber, used by [Number(string)]: the whole trimmed string
    must be a numeric literal; the empty string is 0. *)
Definition string_to_number (s : string) : jsnum :=
  let l := list_ascii_of_string (trim s) in
  match l with
  | [] => JFin 0%Q
  | _ =>
      match parse_non_decimal l with
      | Some n => n
      | None =>
          match parse_decimal_literal l with
          | Some (n, []) => n
          | _ => JNaN
          end
      end
  end.

(* ------------------------------------------------------------------ *)
(** ** Number to string: [Number::toString] in radix 10 *)

(** Decimal digits of a positive integer. *)
Fixpoint pos_digits_aux (fuel : nat) (z : Z) (acc : list ascii) : list ascii :=
  match fuel with
  | O => acc
  | S f =>
      let d := ascii_of_nat (48 + Z.to_nat (z mod 10)) in
      if (z <? 10)%Z then d :: acc else pos_digits_aux f (z / 10) (d :: acc)
  end.

Definition Z_digits (z : Z) : list ascii :=
  pos_digits_aux (S (Pos.to_nat (Pos.size (Z.to_pos (Z.max z 1))))) z [].

(** Count and remove the factors [p] of [b]. *)
Fixpoint strip_factor (fuel : nat) (p b : Z) : nat * Z :=
  match fuel with
  | O => (O, b)
  | S f =>
      if (b mod p =? 0)%Z then let '(k, r) := strip_factor f p (b / p) in (S k, r)
      else (O, b)
  end.

Definition factor_fuel (z : Z) : nat := S (Pos.to_nat (Pos.size (Z.to_pos (Z.max z 1)))).

(** A positive rational as [N * 10^(-m)] with [N] an integer: exact when
    the reduced denominator has only the factors 2 and 5 (every finite
    double is such a value); any other rational is truncated to 20
    decimals. *)
Definition decimal_scale (q : Q) : Z * Z :=
  let q' := Qred q in
  let n := Qnum q' in
  let d := Zpos (Qden q') in
  let '(i, d1) := strip_factor (factor_fuel d) 2 d in
  let '(j, d2) := strip_factor (factor_fuel d1) 5 d1 in
  let m := if (d2 =? 1)%Z then Z.of_nat (Nat.max i j) else 20%Z in
  ((n * 10 ^ m) / d, m)%Z.

(** Number::toString for x > 0, with s, k, n as in ECMA-262 (x = s *
    10^(n-k), s having k digits and no trailing zero). *)
Definition positive_to_string (q : Q) : list ascii :=
  let '(big, m) := decimal_scale q in
  let '(t, s) := strip_factor (factor_fuel big) 10 big in
  let ds := Z_digits s in
  let k := Z.of_nat (length ds) in
  let n := (k + Z.of_nat t - m)%Z in
  if ((k <=? n) && (n <=? 21))%Z then ds ++ repeat "0"%char (Z.to_nat (n - k))
  else if ((0 <? n) && (n <=? 21))%Z then
    firstn (Z.to_nat n) ds ++ "."%char :: skipn (Z.to_nat n) ds
  else if ((-6 <? n) && (n <=? 0))%Z then
    "0"%char :: "."%char :: repeat "0"%char (Z.to_nat (- n)) ++ ds
  else
    let e := (n - 1)%Z in
    let es := (if (0 <=? e)%Z then "+"%char else "-"%char) :: Z_digits (Z.abs e) in
    match ds with
    | [d] => d :: "e"%char :: es
    | d :: rest => d :: "."%char :: rest ++ "e"%char :: es
    | [] => []
    end.

Definition number_to_string (n : jsnum) : string :=
  match n with
  | JNaN => "NaN"
  | JPosInf => "Infinity"
  | JNegInf => "-Infinity"
  | JFin q =>
      if Qeq_bool q 0%Q then "0"
      else if Qltb q 0%Q then String "-" (string_of_list_ascii (positive_to_string (- q)%Q))
      else string_of_list_ascii (positive_to_string q)
  end.

(** [String(value)] *)
Definition js_String (v : jsval) : string :=
  match v with
  | JUndefined => "undefined"
  | JNull => "null"
  | JBool true => "true"
  | JBool false => "false"
  | JNum n => number_to_string n
  | JStr s => s
  end.

(** [Number(value)] *)
Definition js_Number (v : jsval) : jsnum :=
  match v with
  | JUndefined => JNaN
  | JNull => JFin 0%Q
  | JBool b => JFin (if b then 1 else 0)%Q
  | JNum n => n
  | JStr s => string_to_number s
  end.

(* ------------------------------------------------------------------ *)
(** ** Exceptions and dictionaries *)

Inductive res (A : Type) : Type :=
| Ok (a : A)
| Err (msg : string).
Arguments Ok {A} a.
Arguments Err {A} msg.

Definition bind {A B : Type} (m : res A) (k : A -> res B) : res B :=
  match m with
  | Ok a => k a
  | Err e => Err e
  end.

Notation "x <- m ;; k" := (bind m (fun x => k))
  (at level 61, m at next level, right associativity).

Definition is_ok {A : Type} (m : res A) : bool :=
  match m with Ok _ => true | Err _ => false end.

(** [Array.prototype.map] with a callback that may throw. *)
Fixpoint mapM {A B : Type} (f : A -> res B) (l : list A) : res (list B) :=
  match l with
  | [] => Ok []
  | x :: r => y <- f x ;; ys <- mapM f r ;; Ok (y :: ys)
  end.

(** [Array.prototype.forEach] over a callback threading an accumulator. *)
Fixpoint foldM {A B : Type} (f : B -> A -> res B) (acc : B) (l : list A) : res B :=
  match l with
  | [] => Ok acc
  | x :: r => acc' <- f acc x ;; foldM f acc' r
  end.

Fixpoint map_get {A : Type} (k : string) (m : list (string * A)) : option A :=
  match m with
  | [] => None
  | (k', v) :: r => if String.eqb k k' then Some v else map_get k r
  end.

(** [Map.prototype.set] (and assignment to an object key). *)
Fixpoint map_set {A : Type} (k : string) (v : A) (m : list (string * A)) : list (string * A) :=
  match m with
  | [] => [(k, v)]
  | (k', v') :: r => if String.eqb k k' then (k', v) :: r else (k', v') :: map_set k v r
  end.

(** The property names of [Object.prototype]; reading one of them from a
    plain object literal that lacks it yields a function or an object. *)
Definition object_prototype_keys : list string :=
  ["constructor"; "__defineGetter__"; "__defineSetter__"; "hasOwnProperty";
   "__lookupGetter__"; "__lookupSetter__"; "isPrototypeOf";
   "propertyIsEnumerable"; "toString"; "valueOf"; "__proto__";
   "toLocaleString"].

Definition is_proto_key (k : string) : bool :=
  existsb (String.eqb k) object_prototype_keys.

(* ------------------------------------------------------------------ *)
(** ** Value objects: src/domain/value-objects *)

(** Marks.ts *)
Record Marks : Type := mkMarksRec { marks_value : jsnum }.

(** [new Marks(marks, isTotal)]: [validateMarks] then store. *)
Definition newMarks (v : jsnum) (isTotal : bool) : res Marks :=
  match v with
  | JNaN => Err "Marks cannot be NaN"
  | JNegInf => Err "Marks cannot be negative"
  | JPosInf =>
      if isTotal then Ok (mkMarksRec JPosInf) else Err "Marks cannot exceed 100"
  | JFin q =>
      if Qltb q 0%Q then Err "Marks cannot be negative"
      else if negb isTotal && Qltb 100%Q q then Err "Marks cannot exceed 100"
      else Ok (mkMarksRec (JFin q))
  end.

(** [Marks.fromString] *)
Definition Marks_fromString (marksString : string) : res Marks :=
  let trimmed := trim marksString in
  if String.eqb trimmed "" || String.eqb (toLowerCase trimmed) "absent"
     || String.eqb (toLowerCase trimmed) "ab"
  then newMarks (JFin 0%Q) false
  else
    let parsed := parseFloat trimmed in
    if js_isNaN parsed then Err ("Invalid marks format: " ++ marksString)
    else newMarks parsed false.

(** [Marks.total] *)
Definition Marks_total (v : jsnum) : res Marks := newMarks v true.

(** Percentage.ts: the stored value passed [validatePercentage], so it is
    a finite number. *)
Record Percentage : Type := mkPercentageRec { pct_value : Q }.

(** [new Percentage(p)]: the checks NaN, [< 0], [> 100] in this order. *)
Definition newPercentage (p : jsnum) : res Percentage :=
  match p with
  | JNaN => Err "Percentage cannot be NaN"
  | JNegInf => Err "Percentage cannot be negative"
  | JPosInf => Err "Percentage cannot exceed 100"
  | JFin q =>
      if Qltb q 0%Q then Err "Percentage cannot be negative"
      else if Qltb 100%Q q then Err "Percentage cannot exceed 100"
      else Ok (mkPercentageRec q)
  end.

(** [Percentage.fromMarks(obtained, total)] *)
Definition Percentage_fromMarks (obtained total : jsnum) : res Percentage :=
  if js_le total (JFin 0%Q) then Err "Total marks must be greater than zero"
  else newPercentage (js_mul (js_div obtained total) (JFin 100%Q)).

(* ------------------------------------------------------------------ *)
(** ** Entities: Subject, Student *)

(** Subject.ts (src/unnamed/part_006) *)
Record Subject : Type := mkSubjectRec {
  subj_name : string;
  subj_maxMarks : jsnum;
  subj_isOptional : bool
}.

Definition newSubject (name : string) (maxMarks : jsnum) (isOptional : bool) : res Subject :=
  if Nat.eqb (slength (trim name)) 0 then Err "Subject name must be a non-empty string"
  else if js_le maxMarks (JFin 0%Q) then Err "Maximum marks must be a positive number"
  else if js_lt (JFin 1000%Q) maxMarks then Err "Maximum marks cannot exceed 1000"
  else Ok (mkSubjectRec (trim name) maxMarks isOptional).

(** [new Subject(name)] with the default maximum 100. *)
Definition newSubjectDefault (name : string) : res Subject :=
  newSubject name (JFin 100%Q) false.

(** Student.ts *)
Record Student : Type := mkStudentRec {
  st_name : string;
  st_rollNumber : string;
  st_className : option string;
  st_section : option string
}.

Definition newStudent (name rollNumber : string) (className section : option string) : res Student :=
  if Nat.eqb (slength (trim name)) 0 then Err "Student name must be a non-empty string"
  else if Nat.ltb (slength (trim name)) 2 then Err "Student name must be at least 2 characters long"
  else if Nat.eqb (slength (trim rollNumber)) 0 then Err "Roll number must be a non-empty string"
  else Ok (mkStudentRec (trim name) (trim rollNumber)
                        (option_map trim className) (option_map trim section)).

(** [Student.fromRawData] *)
Definition Student_fromRawData (name rollNumber : string) (className section : option string) : res Student :=
  if String.eqb name "" then Err "Student name is required"
  else if String.eqb rollNumber "" then Err "Student roll number is required"
  else newStudent name rollNumber className section.

(* ------------------------------------------------------------------ *)
(** ** The aggregate root: Result.ts *)

Record StudentResult : Type := mkStudentResult {
  sr_student : Student;
  sr_marks : list (string * Marks);
  sr_totalMarks : Marks;
  sr_percentage : Percentage;
  sr_rank : option nat
}.

Definition with_rank (sr : StudentResult) (n : nat) : StudentResult :=
  mkStudentResult (sr_student sr) (sr_marks sr) (sr_totalMarks sr) (sr_percentage sr) (Some n).

Definition sr_roll (sr : StudentResult) : string := st_rollNumber (sr_student sr).
Definition sr_pct (sr : StudentResult) : Q := pct_value (sr_percentage sr).
Definition sr_total (sr : StudentResult) : jsnum := marks_value (sr_totalMarks sr).

(** The fields of a [Result]; [createdAt] is not modelled. *)
Record Result : Type := mkResultRec {
  res_id : string;
  res_title : string;
  res_subjects : list Subject;
  res_studentResults : list (string * StudentResult);
  res_maxTotalMarks : jsnum
}.

Definition with_studentResults (r : Result) (m : list (string * StudentResult)) : Result :=
  mkResultRec (res_id r) (res_title r) (res_subjects r) m (res_maxTotalMarks r).

Definition getStudentResults (r : Result) : list StudentResult :=
  map snd (res_studentResults r).

Definition getStudentResult (r : Result) (rollNumber : string) : option StudentResult :=
  map_get rollNumber (res_studentResults r).

Definition getStudentCount (r : Result) : nat := length (res_studentResults r).

(** [subjects.reduce((sum, s) => sum + s.getMaxMarks(), 0)] *)
Definition sum_maxMarks (subjects : list Subject) : jsnum :=
  fold_left (fun acc s => js_add acc (subj_maxMarks s)) subjects (JFin 0%Q).

(** [validateStudentResult]: the first expected subject (in the Result's
    order) that is not a key of the marks map raises. *)
Definition validateStudentResult (r : Result) (sr : StudentResult) : res unit :=
  let resultSubjectNames := map fst (sr_marks sr) in
  let expectedSubjectNames := map subj_name (res_subjects r) in
  foldM (fun _ expected =>
           if existsb (String.eqb expected) resultSubjectNames then Ok tt
           else Err ("Missing marks for subject: " ++ expected))
        tt expectedSubjectNames.

(** [addStudentResult] *)
Definition addStudentResult (r : Result) (sr : StudentResult) : res Result :=
  _ <- validateStudentResult r sr ;;
  Ok (with_studentResults r (map_set (sr_roll sr) sr (res_studentResults r))).

(** [new Result(id, title, subjects, studentResults)] *)
Definition newResult (id title : string) (subjects : list Subject)
    (studentResults : list StudentResult) : res Result :=
  if Nat.eqb (slength (trim id)) 0 then Err "Result ID must be a non-empty string"
  else if Nat.eqb (slength (trim title)) 0 then Err "Result title must be a non-empty string"
  else match subjects with
       | [] => Err "Result must have at least one subject"
       | _ :: _ =>
           foldM addStudentResult
                 (mkResultRec id (trim title) subjects [] (sum_maxMarks subjects))
                 studentResults
       end.

(** *** calculateRanks *)

(** The comparator passed to [results.sort]: a number whose sign orders
    [a] before [b] when negative. *)
Definition rank_compare (a b : StudentResult) : jsnum :=
  let percentageDiff := (sr_pct b - sr_pct a)%Q in
  if negb (Qeq_bool percentageDiff 0%Q) then JFin percentageDiff
  else js_sub (sr_total b) (sr_total a).

Section StableSort.
Context {A : Type} (cmp : A -> A -> jsnum).

(** [x] is placed before [y] only when [cmp x y < 0] (SortCompare maps
    NaN to +0), so equal elements keep their order: the stable sort of
    [Array.prototype.sort]. *)
Fixpoint insert_by (x : A) (l : list A) : list A :=
  match l with
  | [] => [x]
  | y :: r => if js_lt (cmp x y) (JFin 0%Q) then x :: l else y :: insert_by x r
  end.

Definition sort_by (l : list A) : list A :=
  fold_left (fun acc x => insert_by x acc) l [].
End StableSort.

(** The sorted array holds references to the Map's values; they are
    identified here by their position [j] in [getStudentResults]. *)
Definition indexed {A : Type} (l : list A) : list (nat * A) :=
  combine (seq 0 (length l)) l.

Definition sort_results (r : Result) : list (nat * StudentResult) :=
  sort_by (fun a b => rank_compare (snd a) (snd b)) (indexed (getStudentResults r)).

(** The rank loop: [currentRank] changes to [i + 1] when the percentage
    differs ([!==]) from the previous one. *)
Fixpoint assign_ranks_aux (i currentRank : nat) (prev : option StudentResult)
    (l : list (nat * StudentResult)) : list (nat * nat) :=
  match l with
  | [] => []
  | (j, x) :: rest =>
      let currentRank' :=
        match prev with
        | Some p => if negb (Qeq_bool (sr_pct x) (sr_pct p)) then i + 1 else currentRank
        | None => currentRank
        end in
      (j, currentRank') :: assign_ranks_aux (S i) currentRank' (Some x) rest
  end.

Definition assign_ranks (l : list (nat * StudentResult)) : list (nat * nat) :=
  assign_ranks_aux 0 1 None l.

Fixpoint find_rank (j : nat) (a : list (nat * nat)) : option nat :=
  match a with
  | [] => None
  | (j', n) :: r => if Nat.eqb j j' then Some n else find_rank j r
  end.

(** [results[i].rank = currentRank] mutates the objects held by the Map. *)
Definition write_ranks (assigned : list (nat * nat)) (m : list (string * StudentResult))
    : list (string * StudentResult) :=
  map (fun '(j, (k, sr)) =>
         (k, match find_rank j assigned with Some n => with_rank sr n | None => sr end))
      (indexed m).

Definition calculateRanks (r : Result) : Result :=
  with_studentResults r (write_ranks (assign_ranks (sort_results r)) (res_studentResults r)).

Definition ranks_of (r : Result) : list (option nat) :=
  map sr_rank (getStudentResults r).

(** *** fromRawData *)

Inductive RawMark : Type :=
| RMNum (n : jsnum)
| RMStr (s : string).

Record RawStudent : Type := mkRawStudent {
  rs_name : string;
  rs_rollNumber : string;
  rs_class : option string;
  rs_section : option string;
  rs_marks : list (string * RawMark)
}.

Record RawResult : Type := mkRawResult {
  rr_id : string;
  rr_title : string;
  rr_subjects : list string;
  rr_studentData : list RawStudent
}.

(** [studentData.marks[subject.getName()]] turned into [Marks]: a string
    goes through [Marks.fromString], anything else through
    [new Marks(markValue || 0)]; a missing key reads [undefined], except a
    name of [Object.prototype], which reads a non-number. *)
Definition mark_of_raw (name : string) (marks : list (string * RawMark)) : res Marks :=
  match map_get name marks with
  | Some (RMStr s) => Marks_fromString s
  | Some (RMNum n) => newMarks (if js_truthy (JNum n) then n else JFin 0%Q) false
  | None =>
      if is_proto_key name then Err "Marks must be a number"
      else newMarks (JFin 0%Q) false
  end.

Definition buildStudentResult (subjects : list Subject) (s : RawStudent) : res StudentResult :=
  student <- Student_fromRawData (rs_name s) (rs_rollNumber s) (rs_class s) (rs_section s) ;;
  acc <- foldM (fun '(marks, totalMarksValue) subject =>
                  mark <- mark_of_raw (subj_name subject) (rs_marks s) ;;
                  Ok (map_set (subj_name subject) mark marks,
                      js_add totalMarksValue (marks_value mark)))
               ([], JFin 0%Q) subjects ;;
  let '(marks, totalMarksValue) := acc in
  totalMarks <- Marks_total totalMarksValue ;;
  percentage <- Percentage_fromMarks totalMarksValue (sum_maxMarks subjects) ;;
  Ok (mkStudentResult student marks totalMarks percentage None).

(** [Result.fromRawData] *)
Definition Result_fromRawData (data : RawResult) : res Result :=
  subjects <- mapM newSubjectDefault (rr_subjects data) ;;
  studentResults <- mapM (buildStudentResult subjects) (rr_studentData data) ;;
  result <- newResult (rr_id data) (rr_title data) subjects studentResults ;;
  Ok (calculateRanks result).

(* ------------------------------------------------------------------ *)
(** ** ColumnMapper.getMarksTransformer (src/features/excel/ColumnMapper.ts) *)

(** [Math.min] and [Math.max] of two numbers. *)
Definition js_min (x y : jsnum) : jsnum :=
  if js_isNaN x || js_isNaN y then JNaN else if js_lt y x then y else x.

Definition js_max (x y : jsnum) : jsnum :=
  if js_isNaN x || js_isNaN y then JNaN else if js_lt x y then y else x.

Definition marksTransformer (value : jsval) : jsnum :=
  match value with
  | JUndefined | JNull => JFin 0%Q
  | JStr "" => JFin 0%Q
  | _ =>
      let str := trim (toLowerCase (js_String value)) in
      if String.eqb str "absent" || String.eqb str "ab" || String.eqb str "a" then JFin 0%Q
      else if String.eqb str "pass" || String.eqb str "p" then JFin 40%Q
      else if String.eqb str "fail" || String.eqb str "f" then JFin 0%Q
      else
        let num := parseFloat str in
        if js_isNaN num then JFin 0%Q
        else js_max (JFin 0%Q) (js_min (JFin 100%Q) num)
  end.

(* ------------------------------------------------------------------ *)
(** ** ResultCalculator.calculateMarksDistribution (src/unnamed/part_005) *)

(** [ranges[i]], [undefined] outside the array (also for a negative i). *)
Definition range_at (ranges : list jsnum) (i : Z) : jsval :=
  if (i <? 0)%Z then JUndefined
  else match nth_error ranges (Z.to_nat i) with
       | Some n => JNum n
       | None => JUndefined
       end.

Definition range_num (ranges : list jsnum) (i : nat) : jsnum :=
  match nth_error ranges i with Some n => n | None => JNaN end.

(** [`${ranges[i]}-${ranges[i + 1]}%`] *)
Definition range_key (ranges : list jsnum) (i : Z) : string :=
  js_String (range_at ranges i) ++ "-" ++ js_String (range_at ranges (i + 1)) ++ "%".

(** [distribution[rangeKey]++]: a missing key reads [undefined], which
    becomes NaN. *)
Definition incr_key (k : string) (d : list (string * jsnum)) : list (string * jsnum) :=
  map_set k (js_add (match map_get k d with Some n => n | None => JNaN end) (JFin 1%Q)) d.

Definition init_distribution (ranges : list jsnum) : list (string * jsnum) :=
  fold_left (fun d i => map_set (range_key ranges (Z.of_nat i)) (JFin 0%Q) d)
            (seq 0 (length ranges - 1)) [].

(** The first [i] with [ranges[i] <= percentage < ranges[i + 1]] (the
    loop [break]s there). *)
Definition bucket_index (ranges : list jsnum) (percentage : jsnum) : option nat :=
  find (fun i => js_le (range_num ranges i) percentage
                 && js_lt percentage (range_num ranges (S i)))
       (seq 0 (length ranges - 1)).

Definition count_percentage (ranges : list jsnum) (d : list (string * jsnum))
    (percentage : jsnum) : list (string * jsnum) :=
  let d1 :=
    match bucket_index ranges percentage with
    | Some i => incr_key (range_key ranges (Z.of_nat i)) d
    | None => d
    end in
  if js_num_eqb percentage (JFin 100%Q)
  then incr_key (range_key ranges (Z.of_nat (length ranges) - 2)) d1
  else d1.

Definition calculateMarksDistribution (r : Result) (ranges : list jsnum) : list (string * jsnum) :=
  fold_left (fun d sr => count_percentage ranges d (JFin (sr_pct sr)))
            (getStudentResults r) (init_distribution ranges).

Definition default_ranges : list jsnum :=
  [JFin 0%Q; JFin 40%Q; JFin 60%Q; JFin 75%Q; JFin 90%Q; JFin 100%Q].

(* ------------------------------------------------------------------ *)
(** ** ValidationService (src/unnamed/part_008) *)

(** *** Object key order *)

Definition is_digit (c : ascii) : bool :=
  Nat.leb 48 (nat_of_ascii c) && Nat.leb (nat_of_ascii c) 57.

(** A canonical array index: ["0"], or digits without a leading zero, with
    a value below 2^32 - 1. *)
Definition is_array_index (k : string) : bool :=
  match list_ascii_of_string k with
  | [] => false
  | c :: r =>
      forallb is_digit (c :: r)
      && implb (Nat.eqb (nat_of_ascii c) 48) (Nat.eqb (length r) 0)
      && Z.leb (digits_to_Z 10 (map (fun d => nat_of_ascii d - 48) (c :: r))) 4294967294%Z
  end.

Definition index_value (k : string) : Z :=
  digits_to_Z 10 (map (fun d => nat_of_ascii d - 48) (list_ascii_of_string k)).

Fixpoint insert_index {A : Type} (x : string * A) (l : list (string * A)) : list (string * A) :=
  match l with
  | [] => [x]
  | y :: r => if (index_value (fst x) <? index_value (fst y))%Z then x :: l
              else y :: insert_index x r
  end.

(** [Object.entries]: array-index keys first, ascending, then the other
    keys in insertion order. *)
Definition js_entries {A : Type} (m : list (string * A)) : list (string * A) :=
  fold_right insert_index [] (filter (fun e => is_array_index (fst e)) m)
  ++ filter (fun e => negb (is_array_index (fst e))) m.

Fixpoint join (sep : string) (l : list string) : string :=
  match l with
  | [] => ""
  | [x] => x
  | x :: r => (x ++ sep ++ join sep r)%string
  end.

(** *** Rows, rules and results *)

(** A row as built by [transformRowsForValidation]: the mapped fields, and
    the [marks] object keyed by subject. *)
Record Row : Type := mkRow {
  row_fields : list (string * jsval);
  row_marks : list (string * jsval)
}.

Inductive jsany : Type :=
| AVal (v : jsval)
| AObj (o : list (string * jsval)).

(** [row[field]] *)
Definition row_get (row : Row) (field : string) : jsany :=
  if String.eqb field "marks" then AObj (row_marks row)
  else match map_get field (row_fields row) with
       | Some v => AVal v
       | None => AVal JUndefined
       end.

Definition row_field (row : Row) (field : string) : jsval :=
  match map_get field (row_fields row) with Some v => v | None => JUndefined end.

Definition any_truthy (v : jsany) : bool :=
  match v with AVal v' => js_truthy v' | AObj _ => true end.

Definition any_String (v : jsany) : string :=
  match v with AVal v' => js_String v' | AObj _ => "[object Object]" end.

Record ValidationResult : Type := mkVR {
  vr_isValid : bool;
  vr_message : option string
}.

Inductive Severity : Type := SevError | SevWarning.

Record ValidationRule : Type := mkRule {
  rule_name : string;
  rule_field : string;
  rule_validator : jsany -> Row -> list Row -> res ValidationResult;
  rule_severity : Severity;
  rule_description : string
}.

Record Issue : Type := mkIssue {
  issue_field : string;
  issue_rule : string;
  issue_message : string
}.

Record RowValidationResult : Type := mkRowResult {
  rv_rowIndex : nat;
  rv_isValid : bool;
  rv_errors : list Issue;
  rv_warnings : list Issue
}.

(** *** The default rule table *)

Definition regex_name_char (c : ascii) : bool :=
  let n := nat_of_ascii c in
  (Nat.leb 65 n && Nat.leb n 90) || (Nat.leb 97 n && Nat.leb n 122)
  || is_js_space c || Ascii.eqb c "." || Ascii.eqb c "'" || Ascii.eqb c "-".

(** [/^[a-zA-Z\s\.''-]+$/.test(name)] *)
Definition hasValidNameChars (name : string) : bool :=
  match list_ascii_of_string name with
  | [] => false
  | l => forallb regex_name_char l
  end.

Definition valid_result : ValidationResult := mkVR true None.

Definition required_validator (message : string) (value : jsany) (_ : Row) (_ : list Row)
    : res ValidationResult :=
  Ok (mkVR (any_truthy value && Nat.ltb 0 (slength (trim (any_String value)))) (Some message)).

Definition name_format_validator (value : jsany) (_ : Row) (_ : list Row) : res ValidationResult :=
  if negb (any_truthy value) then Ok valid_result
  else
    let name := trim (any_String value) in
    if negb (hasValidNameChars name) then Ok (mkVR false (Some "Name contains invalid characters"))
    else if Nat.ltb (slength name) 2 then Ok (mkVR false (Some "Name must be at least 2 characters long"))
    else if Nat.ltb 100 (slength name) then Ok (mkVR false (Some "Name cannot exceed 100 characters"))
    else Ok valid_result.

Definition roll_number_format_validator (value : jsany) (_ : Row) (_ : list Row) : res ValidationResult :=
  if negb (any_truthy value) then Ok valid_result
  else
    let rollNo := trim (any_String value) in
    if negb (Nat.leb 1 (slength rollNo) && Nat.leb (slength rollNo) 20)
    then Ok (mkVR false (Some "Roll number must be between 1-20 characters"))
    else Ok valid_result.

Definition marks_range_validator (_ : jsany) (row : Row) (_ : list Row) : res ValidationResult :=
  let invalidMarks :=
    map (fun '(subject, marks) => (subject ++ ": " ++ js_String marks)%string)
        (filter (fun '(_, marks) =>
                   let numMarks := js_Number marks in
                   js_isNaN numMarks || js_lt numMarks (JFin 0%Q) || js_lt (JFin 100%Q) numMarks)
                (js_entries (row_marks row))) in
  match invalidMarks with
  | [] => Ok valid_result
  | _ => Ok (mkVR false (Some ("Invalid marks (must be 0-100): " ++ join ", " invalidMarks)%string))
  end.

Definition marks_consistency_validator (_ : jsany) (row : Row) (_ : list Row) : res ValidationResult :=
  let marksValues := map snd (js_entries (row_marks row)) in
  let validMarks :=
    filter (fun m => negb (js_isNaN (js_Number m)) && js_lt (JFin 0%Q) (js_Number m)) marksValues in
  match validMarks with
  | [] => Ok (mkVR false (Some "Student has no valid marks in any subject"))
  | _ =>
      let average :=
        js_div (fold_left (fun sum mark => js_add sum (js_Number mark)) validMarks (JFin 0%Q))
               (JFin (inject_Z (Z.of_nat (length validMarks)))) in
      if js_lt average (JFin 10%Q)
      then Ok (mkVR true (Some "Very low average marks - please verify data"))
      else if js_lt (JFin 95%Q) average
      then Ok (mkVR true (Some "Very high average marks - please verify data"))
      else Ok valid_result
  end.

(** [name.split(/\s+/)] *)
Fixpoint split_ws_aux (l : list ascii) (cur : list ascii) (in_run : bool) : list string :=
  match l with
  | [] => [string_of_list_ascii (rev cur)]
  | c :: r =>
      if is_js_space c then
        if in_run then split_ws_aux r cur true
        else string_of_list_ascii (rev cur) :: split_ws_aux r [] true
      else split_ws_aux r (c :: cur) false
  end.

Definition split_ws (s : string) : list string := split_ws_aux (list_ascii_of_string s) [] false.

Definition name_consistency_validator (value : jsany) (_ : Row) (_ : list Row) : res ValidationResult :=
  if negb (any_truthy value) then Ok valid_result
  else
    let name := trim (any_String value) in
    let words := split_ws name in
    if Nat.eqb (length words) 1 && Nat.ltb (slength (hd "" words)) 3
    then Ok (mkVR true (Some "Very short name - please verify"))
    else if existsb is_digit (list_ascii_of_string name)
    then Ok (mkVR true (Some "Name contains numbers - please verify"))
    else if String.eqb name (toUpperCase name) && Nat.ltb 10 (slength name)
    then Ok (mkVR true (Some "Name is in all caps - consider proper case"))
    else if String.eqb name (toLowerCase name)
    then Ok (mkVR true (Some "Name is in all lowercase - consider proper case"))
    else Ok valid_result.

Definition marks_consistency_rule : ValidationRule :=
  mkRule "marks_consistency" "marks" marks_consistency_validator SevWarning
         "Check marks consistency and reasonableness".

Definition DEFAULT_RULES : list ValidationRule :=
  [ mkRule "required_student_name" "studentName" (required_validator "Student name is required")
           SevError "Student name must not be empty";
    mkRule "required_roll_number" "rollNumber" (required_validator "Roll number is required")
           SevError "Roll number must not be empty";
    mkRule "name_format" "studentName" name_format_validator SevError
           "Student name format validation";
    mkRule "roll_number_format" "rollNumber" roll_number_format_validator SevError
           "Roll number format validation";
    mkRule "marks_range" "marks" marks_range_validator SevError
           "Marks must be between 0 and 100";
    marks_consistency_rule;
    mkRule "name_consistency" "studentName" name_consistency_validator SevWarning
           "Check name formatting and consistency" ].

(** *** validateRow *)

Definition js_truthy_message (m : option string) : bool :=
  match m with Some s => negb (String.eqb s "") | None => false end.

(** One rule of the [rules.forEach] loop; a thrown error becomes an
    error entry. *)
Definition apply_rule (row : Row) (allRows : list Row)
    (acc : list Issue * list Issue) (rule : ValidationRule) : list Issue * list Issue :=
  let '(errors, warnings) := acc in
  match rule_validator rule (row_get row (rule_field rule)) row allRows with
  | Err e =>
      (errors ++ [mkIssue (rule_field rule) (rule_name rule) ("Validation error: " ++ e)%string],
       warnings)
  | Ok result =>
      if negb (vr_isValid result) && js_truthy_message (vr_message result) then
        let m := match vr_message result with Some s => s | None => "" end in
        match rule_severity rule with
        | SevError => (errors ++ [mkIssue (rule_field rule) (rule_name rule) m], warnings)
        | SevWarning => (errors, warnings ++ [mkIssue (rule_field rule) (rule_name rule) m])
        end
      else (errors, warnings)
  end.

Definition validateRow (row : Row) (rowIndex : nat) (rules : list ValidationRule)
    (allRows : list Row) : RowValidationResult :=
  let '(errors, warnings) := fold_left (apply_rule row allRows) rules ([], []) in
  mkRowResult rowIndex (Nat.eqb (length errors) 0) errors warnings.

(** *** analyzeDuplicates *)

(** [if (!map[key]) map[key] = []; map[key].push(index)]: a name of
    [Object.prototype] reads an inherited non-array, whose [push] call
    throws a TypeError. *)
Definition track (key : string) (index : nat) (m : list (string * list nat))
    : res (list (string * list nat)) :=
  if is_proto_key key then Err "map[key].push is not a function"
  else Ok (map_set key (match map_get key m with Some l => l | None => [] end ++ [index]) m).

Definition normalize_key (v : jsval) : string := toLowerCase (trim (js_String v)).

Definition track_row (maps : list (string * list nat) * list (string * list nat))
    (ir : nat * Row) : res (list (string * list nat) * list (string * list nat)) :=
  let '(rollNumberMap, nameMap) := maps in
  let '(index, row) := ir in
  rollNumberMap' <-
    (if js_truthy (row_field row "rollNumber")
     then track (normalize_key (row_field row "rollNumber")) index rollNumberMap
     else Ok rollNumberMap) ;;
  nameMap' <-
    (if js_truthy (row_field row "studentName")
     then track (normalize_key (row_field row "studentName")) index nameMap
     else Ok nameMap) ;;
  Ok (rollNumberMap', nameMap').

Record DuplicateAnalysis : Type := mkDuplicates {
  duplicateRollNumbers : list (string * list nat);
  duplicateNames : list (string * list nat)
}.

Definition duplicates_of (m : list (string * list nat)) : list (string * list nat) :=
  filter (fun e => Nat.ltb 1 (length (snd e))) (js_entries m).

Definition analyzeDuplicates (rows : list Row) : res DuplicateAnalysis :=
  maps <- foldM track_row ([], []) (indexed rows) ;;
  let '(rollNumberMap, nameMap) := maps in
  Ok (mkDuplicates (duplicates_of rollNumberMap) (duplicates_of nameMap)).

(** *** validateData *)

Record Summary : Type := mkSummary {
  totalRows : nat;
  validRows : nat;
  invalidRows : nat;
  warningRows : nat
}.

(** The result of [validateData]; [dataQualityAnalysis] (scores and
    insights) is not modelled. *)
Record DataValidationResult : Type := mkDataValidationResult {
  dv_isValid : bool;
  dv_summary : Summary;
  dv_rowResults : list RowValidationResult;
  dv_globalErrors : list string;
  dv_globalWarnings : list string;
  dv_duplicateAnalysis : DuplicateAnalysis
}.

(** [validateData] from the rows produced by [transformRowsForValidation]
    on, with [allRules = DEFAULT_RULES ++ customRules]. *)
Definition validateTransformed (allRules : list ValidationRule) (transformedRows : list Row)
    : res DataValidationResult :=
  let rowResults :=
    map (fun '(index, row) => validateRow row index allRules transformedRows)
        (indexed transformedRows) in
  duplicateAnalysis <- analyzeDuplicates transformedRows ;;
  let globalErrors :=
    match duplicateRollNumbers duplicateAnalysis with
    | [] => []
    | ds => [("Found duplicate roll numbers: " ++ join ", " (map fst ds))%string]
    end in
  let globalWarnings :=
    match duplicateNames duplicateAnalysis with
    | [] => []
    | ds => [("Found duplicate names: " ++ join ", " (map fst ds))%string]
    end in
  let validRows := length (filter rv_isValid rowResults) in
  let invalidRows := length (filter (fun r => negb (rv_isValid r)) rowResults) in
  let warningRows := length (filter (fun r => Nat.ltb 0 (length (rv_warnings r))) rowResults) in
  Ok (mkDataValidationResult
        (Nat.eqb (length globalErrors) 0 && Nat.eqb invalidRows 0)
        (mkSummary (length transformedRows) validRows invalidRows warningRows)
        rowResults globalErrors globalWarnings duplicateAnalysis).

Definition validateData (transformedRows : list Row) (customRules : list ValidationRule)
    : res DataValidationResult :=
  validateTransformed (DEFAULT_RULES ++ customRules) transformedRows.

(* ------------------------------------------------------------------ *)
(** ** Auxiliary notions for the proofs *)

(** [a] strictly precedes [b] under the comparator of [calculateRanks]. *)
Definition rank_before (a b : StudentResult) : bool :=
  Qltb (sr_pct b) (sr_pct a)
  || (Qeq_bool (sr_pct a) (sr_pct b) && js_lt (sr_total b) (sr_total a)).

(** The number of results with a strictly higher percentage than [p]. *)
Definition count_gt (p : Q) (l : list StudentResult) : nat :=
  length (filter (fun sr => Qltb p (sr_pct sr)) l).

(** [b]'s percentage is not above [a]'s. *)
Definition pct_desc (a b : nat * StudentResult) : Prop := (sr_pct (snd b) <= sr_pct (snd a))%Q.

(** Sample inputs: one subject, each student given one numeric mark. *)
Definition raw_single_subject (subject : string) (scores : list (string * string * Q))
    : RawResult :=
  mkRawResult "R1" "Term 1" [subject]
    (map (fun '(name, roll, q) => mkRawStudent name roll None None [(subject, RMNum (JFin q))])
         scores).

(** A result with the single mark [q] in "Math" out of 100. *)
Definition sample_student_result (roll : string) (q : Q) : StudentResult :=
  mkStudentResult (mkStudentRec "Student" roll None None)
    [("Math", mkMarksRec (JFin q))] (mkMarksRec (JFin q)) (mkPercentageRec q) None.

(** A Result holding one subject "Math" out of 100 and the given
    (roll number, percentage) entries. *)
Definition sample_result (entries : list (string * Q)) : Result :=
  mkResultRec "R1" "Term 1" [mkSubjectRec "Math" (JFin 100%Q) false]
    (map (fun '(roll, q) => (roll, sample_student_result roll q)) entries)
    (JFin 100%Q).

(** The bucket counts the default ranges are meant to produce: the
    number of percentages in [lo, hi), and those equal to 100. *)
Definition in_range (lo hi : Q) (sr : StudentResult) : bool :=
  Qle_bool lo (sr_pct sr) && Qltb (sr_pct sr) hi.

Definition count_in (lo hi : Q) (l : list StudentResult) : nat :=
  length (filter (in_range lo hi) l).

Definition count_eq100 (l : list StudentResult) : nat :=
  length (filter (fun sr => Qeq_bool (sr_pct sr) 100%Q) l).

Definition jsnat (n : nat) : jsnum := JFin (inject_Z (Z.of_nat n)).

Definition default_distribution (l : list StudentResult) : list (string * jsnum) :=
  [("0-40%", jsnat (count_in 0 40 l)); ("40-60%", jsnat (count_in 40 60 l));
   ("60-75%", jsnat (count_in 60 75 l)); ("75-90%", jsnat (count_in 75 90 l));
   ("90-100%", jsnat (count_in 90 100 l + count_eq100 l))].

(** Clamping a parsed number into [0, 100], NaN read as 0; ties follow
    [Math.min(100, n)] then [Math.max(0, _)]. *)
Definition clamp_0_100 (n : jsnum) : jsnum :=
  match n with
  | JNaN | JNegInf => JFin 0%Q
  | JPosInf => JFin 100%Q
  | JFin q => if Qltb q 100%Q then (if Qltb 0%Q q then JFin q else JFin 0%Q) else JFin 100%Q
  end.

Definition marks_zero_words : list string := ["absent"; "ab"; "a"; "fail"; "f"].
Definition marks_pass_words : list string := ["pass"; "p"].

(** A row with a student name, a roll number and numeric marks. *)
Definition sample_row (name roll : string) (marks : list (string * Q)) : Row :=
  mkRow [("studentName", JStr name); ("rollNumber", JStr roll)]
        (map (fun '(k, q) => (k, JNum (JFin q))) marks).

(** The maps of [analyzeDuplicates] after the rows [P] (index, row):
    every row with a truthy [f] has its index under its normalized key,
    and every list holds distinct indices of rows with that key. *)
Definition dup_inv (f : string) (P : list (nat * Row)) (m : list (string * list nat)) : Prop :=
  (forall i r, In (i, r) P -> js_truthy (row_field r f) = true ->
     exists l, map_get (normalize_key (row_field r f)) m = Some l /\ In i l)
  /\ (forall k l, In (k, l) m -> NoDup l /\
        forall i, In i l -> exists r, In (i, r) P /\ js_truthy (row_field r f) = true
                                      /\ normalize_key (row_field r f) = k).

(** Every subject of the Result is a key of the marks map. *)
Definition covers (r : Result) (sr : StudentResult) : Prop :=
  forall s, In s (res_subjects r) -> In (subj_name s) (map fst (sr_marks sr)).

Definition all_covered (r : Result) : Prop :=
  forall k sr, In (k, sr) (res_studentResults r) -> covers r sr.

(* ------------------------------------------------------------------ *)
(** ** More of Percentage.ts and Marks.ts *)

(** [Percentage.isPassing(passThreshold)]: [value >= passThreshold]. *)
Definition Percentage_isPassing (p : Percentage) (passThreshold : jsnum) : bool :=
  js_le passThreshold (JFin (pct_value p)).

(** [Percentage.getLetterGrade] *)
Definition Percentage_getLetterGrade (p : Percentage) : string :=
  let v := JFin (pct_value p) in
  if js_le (JFin 90%Q) v then "A+"
  else if js_le (JFin 80%Q) v then "A"
  else if js_le (JFin 70%Q) v then "B"
  else if js_le (JFin 60%Q) v then "C"
  else if js_le (JFin 50%Q) v then "D"
  else if js_le (JFin 40%Q) v then "E"
  else "F".

(** [Percentage.getPerformanceCategory] *)
Definition Percentage_getPerformanceCategory (p : Percentage) : string :=
  let v := JFin (pct_value p) in
  if js_le (JFin 90%Q) v then "Excellent"
  else if js_le (JFin 75%Q) v then "Good"
  else if js_le (JFin 60%Q) v then "Average"
  else if js_le (JFin 40%Q) v then "Below Average"
  else "Poor".




(** [Marks.add(other)]: [new Marks(this.value + other.value, true)]. *)
Definition Marks_add (m other : Marks) : res Marks :=
  newMarks (js_add (marks_value m) (marks_value other)) true.

(** [Marks.isGreaterThan] and [Marks.isEqualTo] *)
Definition Marks_isGreaterThan (m other : Marks) : bool := js_lt (marks_value other) (marks_value m).
Definition Marks_isEqualTo (m other : Marks) : bool := js_num_eqb (marks_value m) (marks_value other).

(** [Marks.zero()]: [new Marks(0)], which passes validation. *)
Definition Marks_zero : Marks := mkMarksRec (JFin 0%Q).

(* ------------------------------------------------------------------ *)
(** ** More of Student.ts and Subject.ts *)

(** [s.split(c)] for a one-character separator: every occurrence splits,
    empty pieces included. *)
Fixpoint split_char_aux (sep : ascii) (l cur : list ascii) : list string :=
  match l with
  | [] => [string_of_list_ascii (rev cur)]
  | c :: r =>
      if Ascii.eqb c sep then string_of_list_ascii (rev cur) :: split_char_aux sep r []
      else split_char_aux sep r (c :: cur)
  end.

Definition split_char (sep : ascii) (s : string) : list string :=
  split_char_aux sep (list_ascii_of_string s) [].

(** [word.charAt(0).toUpperCase() + word.slice(1).toLowerCase()] *)
Definition capitalize_word (word : string) : string :=
  match word with
  | EmptyString => EmptyString
  | String c r => String (upper_char c) (toLowerCase r)
  end.

(** The expression [s.split(' ').map(capitalize_word).join(' ')] of
    [Student.getDisplayName] and [Subject.getDisplayName]. *)
Definition capitalize_words (s : string) : string :=
  join " " (map capitalize_word (split_char " " s)).

Definition Student_getDisplayName (st : Student) : string := capitalize_words (st_name st).

Definition Subject_getDisplayName (sb : Subject) : string := capitalize_words (subj_name sb).

(** [/[a-z0-9]/] *)
Definition is_lower_alnum (c : ascii) : bool :=
  let n := nat_of_ascii c in (Nat.leb 97 n && Nat.leb n 122) || (Nat.leb 48 n && Nat.leb n 57).

(** [s.replace(/[^a-z0-9]/g, '')] *)
Definition remove_non_lower_alnum (s : string) : string :=
  string_of_list_ascii (filter is_lower_alnum (list_ascii_of_string s)).




(** [Student.canCreateFrom]: [fromRawData] did not throw. *)
Definition Student_canCreateFrom (name rollNumber : string) (className section : option string) : bool :=
  is_ok (Student_fromRawData name rollNumber className section).

(** [Subject.getNormalizedName], [Subject.matches], [Subject.matchesName] *)
Definition Subject_getNormalizedName (sb : Subject) : string :=
  remove_non_lower_alnum (toLowerCase (subj_name sb)).

Definition Subject_matches (sb other : Subject) : bool :=
  String.eqb (Subject_getNormalizedName sb) (Subject_getNormalizedName other).


(** [Subject.isValidName]: [new Subject(name)] did not throw. *)
Definition Subject_isValidName (name : string) : bool := is_ok (newSubjectDefault name).

(* ------------------------------------------------------------------ *)
(** ** Result.getStudentsByRank and Result.getTopStudents *)

(** [(r.rank || 0)] *)
Definition rank_or_zero (sr : StudentResult) : jsnum :=
  match sr_rank sr with Some n => jsnat n | None => JFin 0%Q end.

Definition has_rank (sr : StudentResult) : bool :=
  match sr_rank sr with Some _ => true | None => false end.

Definition getStudentsByRank (r : Result) : list StudentResult :=
  sort_by (fun a b => js_sub (rank_or_zero a) (rank_or_zero b))
          (filter has_rank (getStudentResults r)).

(** The end index of [slice(0, end)] on an array of length [len]
    (a negative end counts from the back). *)
Definition slice_end (len : nat) (e : Z) : nat :=
  if (e <? 0)%Z then Z.to_nat (Z.max 0 (Z.of_nat len + e))
  else Z.to_nat (Z.min e (Z.of_nat len)).

Definition getTopStudents (r : Result) (count : Z) : list StudentResult :=
  let l := getStudentsByRank r in firstn (slice_end (length l) count) l.

(* ------------------------------------------------------------------ *)
(** ** More of ResultCalculator (src/unnamed/part_005) *)

(** [marks?.getValue() || 0] *)
Definition mark_or_zero (m : option Marks) : jsnum :=
  match m with
  | Some mk => if js_truthy (JNum (marks_value mk)) then marks_value mk else JFin 0%Q
  | None => JFin 0%Q
  end.

Definition calculateSubjectAverage (r : Result) (subjectName : string) : jsnum :=
  let studentResults := getStudentResults r in
  match studentResults with
  | [] => JFin 0%Q
  | _ =>
      let totalMarks :=
        fold_left (fun sum sr => js_add sum (mark_or_zero (map_get subjectName (sr_marks sr))))
                  studentResults (JFin 0%Q) in
      js_div totalMarks (jsnat (length studentResults))
  end.

Definition calculateClassAveragePercentage (r : Result) : res Percentage :=
  let studentResults := getStudentResults r in
  match studentResults with
  | [] => newPercentage (JFin 0%Q)
  | _ =>
      let totalPercentage :=
        fold_left (fun sum sr => js_add sum (JFin (sr_pct sr))) studentResults (JFin 0%Q) in
      newPercentage (js_div totalPercentage (jsnat (length studentResults)))
  end.

Definition findHighestMarksInSubject (r : Result) (subjectName : string)
    : Marks * list StudentResult :=
  fold_left (fun '(highestMarks, topStudents) sr =>
               match map_get subjectName (sr_marks sr) with
               | Some marks =>
                   if Marks_isGreaterThan marks highestMarks then (marks, [sr])
                   else if Marks_isEqualTo marks highestMarks
                   then (highestMarks, topStudents ++ [sr])
                   else (highestMarks, topStudents)
               | None => (highestMarks, topStudents)
               end)
            (getStudentResults r) (Marks_zero, []).

Definition findLowestMarksInSubject (r : Result) (subjectName : string)
    : Marks * list StudentResult :=
  match getStudentResults r with
  | [] => (Marks_zero, [])
  | studentResults =>
      let '(lowestMarks, bottomStudents) :=
        fold_left (fun '(lowestMarks, bottomStudents) sr =>
                     match map_get subjectName (sr_marks sr) with
                     | Some marks =>
                         match lowestMarks with
                         | None => (Some marks, [sr])
                         | Some lm =>
                             if js_lt (marks_value marks) (marks_value lm) then (Some marks, [sr])
                             else if js_num_eqb (marks_value marks) (marks_value lm)
                             then (lowestMarks, bottomStudents ++ [sr])
                             else (lowestMarks, bottomStudents)
                         end
                     | None => (lowestMarks, bottomStudents)
                     end)
                  studentResults (None, []) in
      (match lowestMarks with Some m => m | None => Marks_zero end, bottomStudents)
  end.

Definition grade_keys : list string := ["A+"; "A"; "B"; "C"; "D"; "E"; "F"].

Definition calculateGradeDistribution (r : Result) : list (string * jsnum) :=
  fold_left (fun gradeCount sr =>
               let grade := Percentage_getLetterGrade (sr_percentage sr) in
               let old := match map_get grade gradeCount with
                          | Some n => if js_truthy (JNum n) then n else JFin 0%Q
                          | None => JFin 0%Q
                          end in
               map_set grade (js_add old (JFin 1%Q)) gradeCount)
            (getStudentResults r) (map (fun g => (g, JFin 0%Q)) grade_keys).

(* ------------------------------------------------------------------ *)
(** ** ColumnMapper.calculateStringSimilarity and levenshteinDistance *)

(** One row [i] of the matrix, columns [1..str1.length]: [prev] is row
    [i - 1] from column [j - 1] on, [left] is [matrix[i][j - 1]]. *)
Fixpoint lev_fill (c : ascii) (s1 : list ascii) (prev : list nat) (left : nat) : list nat :=
  match s1, prev with
  | a :: s1', d :: ((u :: _) as prev') =>
      let v := if Ascii.eqb c a then d else Nat.min (Nat.min (d + 1) (left + 1)) (u + 1) in
      v :: lev_fill c s1' prev' v
  | _, _ => []
  end.

(** Rows [i + 1 ..] from row [i] = [prev]. *)
Fixpoint lev_rows (s2 s1 : list ascii) (i : nat) (prev : list nat) : list nat :=
  match s2 with
  | [] => prev
  | c :: s2' => lev_rows s2' s1 (S i) (S i :: lev_fill c s1 prev (S i))
  end.

Definition levenshteinDistance (str1 str2 : string) : nat :=
  let s1 := list_ascii_of_string str1 in
  nth (length s1) (lev_rows (list_ascii_of_string str2) s1 0 (seq 0 (S (length s1)))) 0.

Definition calculateStringSimilarity (str1 str2 : string) : Q :=
  let longer := if Nat.ltb (slength str2) (slength str1) then str1 else str2 in
  let shorter := if Nat.ltb (slength str2) (slength str1) then str2 else str1 in
  if Nat.eqb (slength longer) 0 then 1%Q
  else ((inject_Z (Z.of_nat (slength longer)) - inject_Z (Z.of_nat (levenshteinDistance longer shorter)))
        / inject_Z (Z.of_nat (slength longer)))%Q.

(* ------------------------------------------------------------------ *)
(** ** ValidationService.analyzeDataQuality *)

(** [Math.round]: the nearest integer, halves rounded up. *)
Definition js_round (x : jsnum) : jsnum :=
  match x with
  | JFin q => JFin (inject_Z (Qfloor (q + (1 # 2))%Q))
  | _ => x
  end.

Record DataQuality : Type := mkDataQuality {
  completenessScore : jsnum;
  consistencyScore : jsnum;
  accuracyScore : jsnum;
  overallScore : jsnum;
  insights : list string
}.

Definition completed_fields (row : Row) : nat :=
  (if js_truthy (row_field row "studentName") then 1 else 0)
  + (if js_truthy (row_field row "rollNumber") then 1 else 0)
  + (if Nat.ltb 0 (length (js_entries (row_marks row))) then 1 else 0).

Definition analyzeDataQuality (rows : list Row) (validationResults : list RowValidationResult)
    : DataQuality :=
  let totalFields := length rows * 3 in
  let completedFields := fold_left (fun count row => count + completed_fields row) rows 0 in
  let completenessScore :=
    js_round (js_mul (js_div (jsnat completedFields) (jsnat totalFields)) (JFin 100%Q)) in
  let consistentRows := length (filter (fun r => Nat.eqb (length (rv_warnings r)) 0) validationResults) in
  let consistencyScore :=
    js_round (js_mul (js_div (jsnat consistentRows) (jsnat (length rows))) (JFin 100%Q)) in
  let accurateRows := length (filter (fun r => Nat.eqb (length (rv_errors r)) 0) validationResults) in
  let accuracyScore :=
    js_round (js_mul (js_div (jsnat accurateRows) (jsnat (length rows))) (JFin 100%Q)) in
  let overallScore :=
    js_round (js_div (js_add (js_add completenessScore consistencyScore) accuracyScore) (JFin 3%Q)) in
  let insights :=
    (if js_lt completenessScore (JFin 80%Q) then ["Data has missing values in required fields"] else [])
    ++ (if js_lt consistencyScore (JFin 80%Q) then ["Data formatting is inconsistent across rows"] else [])
    ++ (if js_lt accuracyScore (JFin 90%Q) then ["Data contains validation errors that need attention"] else [])
    ++ [if js_le (JFin 90%Q) overallScore then "Data quality is excellent"
        else if js_le (JFin 70%Q) overallScore then "Data quality is good with minor issues"
        else "Data quality needs significant improvement"] in
  mkDataQuality completenessScore consistencyScore accuracyScore overallScore insights.

(* ------------------------------------------------------------------ *)
(** ** ColumnMapper.autoMapColumns: the suggestion for a missing field *)

(** The body of [missingRequiredFields.forEach]: the unmapped columns
    scored by [calculateStringSimilarity(column.toLowerCase(), missingField)],
    those above 0.3 sorted by decreasing similarity, and the first one
    suggested as (column, confidence). *)
Definition suggest_for_missing (unmappedColumns : list string) (missingField : string)
    : option (string * Q) :=
  let unmappedSuggestions :=
    sort_by (fun a b => js_sub (JFin (snd b)) (JFin (snd a)))
      (filter (fun item => Qltb (3 # 10) (snd item))
         (map (fun column => (column, calculateStringSimilarity (toLowerCase column) missingField))
              unmappedColumns)) in
  match unmappedSuggestions with
  | [] => None
  | s :: _ => Some s
  end.

(* ------------------------------------------------------------------ *)
(** ** Auxiliary notions for the further properties *)

(** The letter grades in increasing order: F, E, D, C, B, A, A+. *)
Definition grade_rank (g : string) : nat :=
  if String.eqb g "A+" then 6 else if String.eqb g "A" then 5
  else if String.eqb g "B" then 4 else if String.eqb g "C" then 3
  else if String.eqb g "D" then 2 else if String.eqb g "E" then 1
  else 0.


(** The rank of a result, 0 when unset. *)
Definition rank_nat (sr : StudentResult) : nat :=
  match sr_rank sr with Some n => n | None => 0 end.

(** The student has a mark in [subjectName] equal ([===]) to [h]. *)
Definition has_mark_equal (subjectName : string) (h : Marks) (sr : StudentResult) : bool :=
  match map_get subjectName (sr_marks sr) with Some m => Marks_isEqualTo m h | None => false end.

(** Every mark in [subjectName] held by [l] is a finite, non-negative number. *)
Definition marks_nonneg (subjectName : string) (l : list StudentResult) : Prop :=
  forall sr m, In sr l -> map_get subjectName (sr_marks sr) = Some m ->
    exists q, marks_value m = JFin q /\ (0 <= q)%Q.

(** The state of the [findHighestMarksInSubject] loop after [prefix]. *)
Definition highest_inv (subjectName : string) (prefix : list StudentResult)
    (acc : Marks * list StudentResult) : Prop :=
  (exists y, marks_value (fst acc) = JFin y /\ (0 <= y)%Q)
  /\ (forall sr m, In sr prefix -> map_get subjectName (sr_marks sr) = Some m ->
        js_le (marks_value m) (marks_value (fst acc)) = true)
  /\ snd acc = filter (has_mark_equal subjectName (fst acc)) prefix
  /\ (fst acc = Marks_zero
      \/ exists sr, In sr prefix /\ map_get subjectName (sr_marks sr) = Some (fst acc)).

(** Every mark in [subjectName] held by [l] is a finite number. *)
Definition marks_finite (subjectName : string) (l : list StudentResult) : Prop :=
  forall sr m, In sr l -> map_get subjectName (sr_marks sr) = Some m ->
    exists q, marks_value m = JFin q.

(** The state of the [findLowestMarksInSubject] loop after [prefix]. *)
Definition lowest_inv (subjectName : string) (prefix : list StudentResult)
    (acc : option Marks * list StudentResult) : Prop :=
  match fst acc with
  | None => (forall sr, In sr prefix -> map_get subjectName (sr_marks sr) = None) /\ snd acc = []
  | Some lm =>
      (exists y, marks_value lm = JFin y)
      /\ (forall sr m, In sr prefix -> map_get subjectName (sr_marks sr) = Some m ->
            js_le (marks_value lm) (marks_value m) = true)
      /\ snd acc = filter (has_mark_equal subjectName lm) prefix
      /\ (exists sr, In sr prefix /\ map_get subjectName (sr_marks sr) = Some lm)
  end.

(** One step of the [findHighestMarksInSubject] loop. *)
Definition highest_step_fn (subjectName : string)
    : Marks * list StudentResult -> StudentResult -> Marks * list StudentResult :=
  fun '(highestMarks, topStudents) sr =>
  match map_get subjectName (sr_marks sr) with
  | Some marks =>
      if Marks_isGreaterThan marks highestMarks then (marks, [sr])
      else if Marks_isEqualTo marks highestMarks
      then (highestMarks, topStudents ++ [sr])
      else (highestMarks, topStudents)
  | None => (highestMarks, topStudents)
  end.

(** One step of the [findLowestMarksInSubject] loop. *)
Definition lowest_step_fn (subjectName : string)
    : option Marks * list StudentResult -> StudentResult -> option Marks * list StudentResult :=
  fun '(lowestMarks, bottomStudents) sr =>
  match map_get subjectName (sr_marks sr) with
  | Some marks =>
      match lowestMarks with
      | None => (Some marks, [sr])
      | Some lm =>
          if js_lt (marks_value marks) (marks_value lm) then (Some marks, [sr])
          else if js_num_eqb (marks_value marks) (marks_value lm)
          then (lowestMarks, bottomStudents ++ [sr])
          else (lowestMarks, bottomStudents)
      end
  | None => (lowestMarks, bottomStudents)
  end.

(** The number of results whose percentage has letter grade [g]. *)
Definition grade_count (g : string) (l : list StudentResult) : nat :=
  length (filter (fun sr => String.eqb (Percentage_getLetterGrade (sr_percentage sr)) g) l).

(** A score of [analyzeDataQuality]: an integer between 0 and 100. *)
Definition score_ok (x : jsnum) : Prop :=
  exists z, x = JFin (inject_Z z) /\ (0 <= z <= 100)%Z.

(* ================================================================== *)
(** * Properties *)

From Stdlib Require Import Lqa.

Lemma Qltb_iff x y : Qltb x y = true <-> (x < y)%Q.
Proof.
  unfold Qltb. rewrite negb_true_iff. split; intro H.
  - apply Qnot_le_lt. intro H'. apply Qle_bool_iff in H'. congruence.
  - destruct (Qle_bool y x) eqn:E; [|reflexivity].
    apply Qle_bool_iff in E. exfalso. apply (Qlt_not_le x y); assumption.
Qed.

Lemma Qltb_false x y : Qltb x y = false <-> (y <= x)%Q.
Proof.
  unfold Qltb. rewrite negb_false_iff. apply Qle_bool_iff.
Qed.

Ltac qbool :=
  repeat match goal with
  | H : Qltb _ _ = true |- _ => apply Qltb_iff in H
  | H : Qltb _ _ = false |- _ => apply Qltb_false in H
  | H : Qeq_bool _ _ = true |- _ => apply Qeq_bool_iff in H
  | H : Qeq_bool _ _ = false |- _ => apply Qeq_bool_neq in H
  end.

Lemma Qeq_bool_lt_false x y : (x < y)%Q -> Qeq_bool x y = false.
Proof.
  intro H. destruct (Qeq_bool x y) eqn:E; [|reflexivity].
  qbool. exfalso. rewrite E in H. apply (Qlt_irrefl y H).
Qed.

Lemma js_lt_sub_zero x y : js_lt (js_sub x y) (JFin 0%Q) = js_lt x y.
Proof.
  destruct x as [| | |a], y as [| | |b]; try reflexivity.
  simpl. apply Bool.eq_true_iff_eq. rewrite !Qltb_iff. split; intro; lra.
Qed.

Lemma js_lt_asym x y : js_lt x y = true -> js_lt y x = false.
Proof.
  destruct x as [| | |a], y as [| | |b]; simpl; try reflexivity; try discriminate.
  intro H. qbool. destruct (Qltb b a) eqn:E; [|reflexivity]. qbool. lra.
Qed.

Lemma rank_compare_lt a b : js_lt (rank_compare a b) (JFin 0%Q) = rank_before a b.
Proof.
  unfold rank_compare, rank_before.
  destruct (Qeq_bool (sr_pct b - sr_pct a) 0) eqn:E; simpl.
  - rewrite js_lt_sub_zero. qbool.
    assert (Hq : Qltb (sr_pct b) (sr_pct a) = false) by (apply Qltb_false; lra).
    assert (Hq' : Qeq_bool (sr_pct a) (sr_pct b) = true) by (apply Qeq_bool_iff; lra).
    rewrite Hq, Hq'. reflexivity.
  - qbool.
    assert (Hq' : Qeq_bool (sr_pct a) (sr_pct b) = false).
    { destruct (Qeq_bool (sr_pct a) (sr_pct b)) eqn:E'; [|reflexivity].
      qbool. exfalso. apply E. lra. }
    rewrite Hq', andb_false_l, orb_false_r.
    apply Bool.eq_true_iff_eq. rewrite !Qltb_iff. split; intro; lra.
Qed.

Lemma rank_before_asym a b : rank_before a b = true -> rank_before b a = false.
Proof.
  unfold rank_before. intro H.
  apply orb_true_iff in H as [H|H].
  - qbool. rewrite Qeq_bool_lt_false by lra.
    assert (Hq : Qltb (sr_pct a) (sr_pct b) = false) by (apply Qltb_false; lra).
    rewrite Hq. reflexivity.
  - apply andb_true_iff in H as [H1 H2]. qbool.
    assert (Hq : Qltb (sr_pct a) (sr_pct b) = false) by (apply Qltb_false; lra).
    rewrite Hq, (js_lt_asym _ _ H2), andb_false_r. reflexivity.
Qed.

(** ** The stable insertion sort *)

Section SortProps.
Context {A : Type} (cmp : A -> A -> jsnum).
Hypothesis cmp_asym :
  forall a b, js_lt (cmp a b) (JFin 0%Q) = true -> js_lt (cmp b a) (JFin 0%Q) = false.

(** [b] does not strictly precede [a]. *)
Let R (a b : A) : Prop := js_lt (cmp b a) (JFin 0%Q) = false.

Lemma insert_by_perm x l : Permutation (insert_by cmp x l) (x :: l).
Proof.
  induction l as [|y r IH]; simpl; [reflexivity|].
  destruct (js_lt (cmp x y) (JFin 0%Q)); [reflexivity|].
  rewrite IH. apply perm_swap.
Qed.

Lemma insert_by_sorted x l : Sorted R l -> Sorted R (insert_by cmp x l).
Proof.
  induction l as [|y r IH]; intros Hs; simpl.
  - repeat constructor.
  - destruct (js_lt (cmp x y) (JFin 0%Q)) eqn:E.
    + constructor; [assumption|]. constructor. apply cmp_asym. assumption.
    + apply Sorted_inv in Hs as [Hr Hhd]. constructor; [apply IH; assumption|].
      destruct r as [|z r']; simpl.
      * constructor. exact E.
      * destruct (js_lt (cmp x z) (JFin 0%Q)); constructor; [exact E|].
        inversion Hhd; assumption.
Qed.

Lemma sort_by_perm_acc l acc :
  Permutation (fold_left (fun acc x => insert_by cmp x acc) l acc) (l ++ acc).
Proof.
  revert acc. induction l as [|x l IH]; intros acc; simpl; [reflexivity|].
  rewrite IH. rewrite insert_by_perm. apply Permutation_sym, Permutation_middle.
Qed.

Lemma sort_by_perm l : Permutation (sort_by cmp l) l.
Proof.
  unfold sort_by. rewrite sort_by_perm_acc, app_nil_r. reflexivity.
Qed.

Lemma sort_by_sorted l : Sorted R (sort_by cmp l).
Proof.
  unfold sort_by.
  assert (H : forall acc, Sorted R acc ->
            Sorted R (fold_left (fun acc x => insert_by cmp x acc) l acc)).
  { induction l as [|x l IH]; intros acc Hacc; simpl; [assumption|].
    apply IH, insert_by_sorted, Hacc. }
  apply H. constructor.
Qed.
End SortProps.

Lemma Sorted_weaken {A : Type} (R1 R2 : A -> A -> Prop) l :
  (forall a b, R1 a b -> R2 a b) -> Sorted R1 l -> Sorted R2 l.
Proof.
  intros Himp Hs. induction Hs as [|a l Hs IH Hhd]; constructor; [assumption|].
  destruct Hhd; constructor. apply Himp. assumption.
Qed.

Lemma rank_compare_asym (a b : nat * StudentResult) :
  js_lt (rank_compare (snd a) (snd b)) (JFin 0%Q) = true ->
  js_lt (rank_compare (snd b) (snd a)) (JFin 0%Q) = false.
Proof.
  rewrite !rank_compare_lt. apply rank_before_asym.
Qed.

(** The order [sort_results] produces: descending percentage, ties by
    descending total marks. *)
Lemma sort_results_sorted r :
  Sorted (fun a b => (sr_pct (snd b) < sr_pct (snd a))%Q
                     \/ (sr_pct (snd a) == sr_pct (snd b)
                         /\ js_lt (sr_total (snd a)) (sr_total (snd b)) = false))
         (sort_results r).
Proof.
  eapply Sorted_weaken; [|apply (sort_by_sorted _ rank_compare_asym)].
  intros a b H. simpl in H. rewrite rank_compare_lt in H. unfold rank_before in H.
  apply orb_false_iff in H as [H1 H2]. qbool.
  destruct (Qeq_bool (sr_pct (snd a)) (sr_pct (snd b))) eqn:E.
  - qbool. right. split; [assumption|].
    assert (Hq : Qeq_bool (sr_pct (snd b)) (sr_pct (snd a)) = true) by (apply Qeq_bool_iff; lra).
    rewrite Hq in H2. exact H2.
  - qbool. left. destruct (Qlt_le_dec (sr_pct (snd b)) (sr_pct (snd a))) as [Hl|Hl];
      [assumption|]. exfalso. apply E. lra.
Qed.

Lemma sort_results_perm r :
  Permutation (sort_results r) (indexed (getStudentResults r)).
Proof. apply sort_by_perm. Qed.

(** ** The rank loop *)

Lemma assign_ranks_aux_fst i cur prev l :
  map fst (assign_ranks_aux i cur prev l) = map fst l.
Proof.
  revert i cur prev. induction l as [|[j x] l IH]; intros i cur prev; simpl; [reflexivity|].
  f_equal. apply IH.
Qed.

Lemma assign_ranks_aux_length i cur prev l :
  length (assign_ranks_aux i cur prev l) = length l.
Proof.
  rewrite <- (length_map fst), assign_ranks_aux_fst, length_map. reflexivity.
Qed.

(** Each rank after the first equals the previous one when the
    percentages are equal, and is the 1-based position otherwise. *)
Lemma assign_ranks_aux_step i cur prev l k a b :
  nth_error l k = Some a -> nth_error l (S k) = Some b ->
  nth_error (map snd (assign_ranks_aux i cur prev l)) (S k)
  = if Qeq_bool (sr_pct (snd b)) (sr_pct (snd a))
    then nth_error (map snd (assign_ranks_aux i cur prev l)) k
    else Some (i + S k + 1).
Proof.
  revert i cur prev k. induction l as [|[j x] l IH]; intros i cur prev k Ha Hb.
  - destruct k; discriminate.
  - destruct k as [|k].
    + simpl in Ha. injection Ha as <-. destruct l as [|[j' y] l']; [discriminate|].
      simpl in Hb. injection Hb as <-. simpl.
      destruct (Qeq_bool (sr_pct y) (sr_pct x)); simpl; f_equal; lia.
    + simpl in Ha, Hb. simpl map. rewrite !nth_error_cons_succ.
      rewrite (IH (S i) _ (Some x) k Ha Hb).
      destruct (Qeq_bool (sr_pct (snd b)) (sr_pct (snd a))); [reflexivity|]. f_equal. lia.
Qed.

Lemma assign_ranks_aux_bound i cur prev l k n :
  cur <= S i ->
  nth_error (map snd (assign_ranks_aux i cur prev l)) k = Some n -> n <= i + k + 1.
Proof.
  revert i cur prev k. induction l as [|[j x] l IH]; intros i cur prev k Hcur Hn.
  - destruct k; discriminate.
  - simpl in Hn.
    set (cur' := match prev with
                  | Some p => if negb (Qeq_bool (sr_pct x) (sr_pct p)) then i + 1 else cur
                  | None => cur end) in *.
    assert (Hc : cur' <= S i).
    { subst cur'. destruct prev as [p|]; [destruct (negb _)|]; lia. }
    destruct k as [|k].
    + simpl in Hn. injection Hn as <-. lia.
    + simpl in Hn. apply IH in Hn; lia.
Qed.

Lemma assign_ranks_head l x rest :
  l = x :: rest -> hd_error (assign_ranks l) = Some (fst x, 1).
Proof. intros ->. destruct x. reflexivity. Qed.

(** ** Indexed lists *)

Lemma In_indexed_aux {A : Type} (l : list A) s j x :
  In (j, x) (combine (seq s (length l)) l) <-> s <= j /\ nth_error l (j - s) = Some x.
Proof.
  revert s. induction l as [|y l IH]; intros s; simpl.
  - split; [intros []|]. intros [_ H]. destruct (j - s); discriminate.
  - rewrite IH. split.
    + intros [H|[H1 H2]].
      * injection H as <- <-. split; [lia|]. rewrite Nat.sub_diag. reflexivity.
      * split; [lia|]. replace (j - s) with (S (j - S s)) by lia. exact H2.
    + intros [H1 H2]. destruct (Nat.eq_dec j s) as [->|Hne].
      * left. rewrite Nat.sub_diag in H2. simpl in H2. injection H2 as ->. reflexivity.
      * right. split; [lia|]. replace (j - s) with (S (j - S s)) in H2 by lia. exact H2.
Qed.

Lemma In_indexed {A : Type} (l : list A) j x :
  In (j, x) (indexed l) <-> nth_error l j = Some x.
Proof.
  unfold indexed. rewrite In_indexed_aux, Nat.sub_0_r. split; [intros [_ H]; exact H|].
  intro H. split; [lia|exact H].
Qed.

Lemma map_snd_indexed {A : Type} (l : list A) : map snd (indexed l) = l.
Proof.
  unfold indexed. generalize 0. induction l as [|x l IH]; intros s; simpl; [reflexivity|].
  f_equal. apply IH.
Qed.

Lemma length_filter_perm {A : Type} (f : A -> bool) l l' :
  Permutation l l' -> length (filter f l) = length (filter f l').
Proof.
  induction 1 as [| x l l' _ IH | x y l | l l' l'' _ IH1 _ IH2]; simpl.
  - reflexivity.
  - destruct (f x); simpl; rewrite IH; reflexivity.
  - destruct (f x), (f y); reflexivity.
  - congruence.
Qed.

(** ** Ranks as one plus the number of strictly higher percentages *)

Lemma Qltb_compat_l p p' y : (p == p')%Q -> Qltb p y = Qltb p' y.
Proof.
  intro H. apply Bool.eq_true_iff_eq. rewrite !Qltb_iff. split; intro; lra.
Qed.

Lemma count_gt_app p a b : count_gt p (a ++ b) = count_gt p a + count_gt p b.
Proof. unfold count_gt. rewrite filter_app, length_app. reflexivity. Qed.

Lemma count_gt_Qeq p p' l : (p == p')%Q -> count_gt p l = count_gt p' l.
Proof.
  intro H. unfold count_gt. f_equal. apply filter_ext. intro y. apply Qltb_compat_l, H.
Qed.

Lemma count_gt_zero p l : (forall y, In y l -> (sr_pct y <= p)%Q) -> count_gt p l = 0.
Proof.
  unfold count_gt. induction l as [|y l IH]; intros H; simpl; [reflexivity|].
  assert (E : Qltb p (sr_pct y) = false) by (apply Qltb_false, H; left; reflexivity).
  rewrite E. apply IH. intros z Hz. apply H. right. exact Hz.
Qed.

Lemma count_gt_all p l : (forall y, In y l -> (p < sr_pct y)%Q) -> count_gt p l = length l.
Proof.
  unfold count_gt. induction l as [|y l IH]; intros H; simpl; [reflexivity|].
  assert (E : Qltb p (sr_pct y) = true) by (apply Qltb_iff, H; left; reflexivity).
  rewrite E. simpl. f_equal. apply IH. intros z Hz. apply H. right. exact Hz.
Qed.

Lemma count_gt_perm p l l' : Permutation l l' -> count_gt p l = count_gt p l'.
Proof. apply length_filter_perm. Qed.

Lemma StronglySorted_app_inv {A : Type} (R : A -> A -> Prop) P L :
  StronglySorted R (P ++ L) ->
  StronglySorted R L /\ (forall y z, In y P -> In z L -> R y z).
Proof.
  induction P as [|a P IH]; simpl; intros H.
  - split; [exact H|]. intros y z [].
  - apply StronglySorted_inv in H as [H1 H2]. apply IH in H1 as [H3 H4].
    split; [exact H3|]. intros y z [<-|Hy] Hz.
    + rewrite Forall_forall in H2. apply H2, in_or_app. right. exact Hz.
    + apply H4; assumption.
Qed.


Lemma assign_ranks_aux_count l P i cur prev :
  StronglySorted pct_desc (P ++ l) ->
  i = length P ->
  match prev with
  | None => P = [] /\ cur = 1
  | Some p => In p (map snd P) /\ (forall y, In y (map snd P) -> (sr_pct p <= sr_pct y)%Q)
              /\ cur = S (count_gt (sr_pct p) (map snd (P ++ l)))
  end ->
  Forall2 (fun e a => fst a = fst e /\ snd a = S (count_gt (sr_pct (snd e)) (map snd (P ++ l))))
          l (assign_ranks_aux i cur prev l).
Proof.
  revert P i cur prev. induction l as [|[j x] l IH]; intros P i cur prev Hs Hi Hprev;
    simpl; [constructor|].
  pose proof (StronglySorted_app_inv _ _ _ Hs) as [Hxl HPx].
  apply StronglySorted_inv in Hxl as [_ Hxl']. rewrite Forall_forall in Hxl'.
  (* nobody after [x] is above it *)
  assert (Hafter : count_gt (sr_pct x) (map snd ((j, x) :: l)) = 0).
  { apply count_gt_zero. intros y Hy. simpl in Hy. destruct Hy as [<-|Hy]; [apply Qle_refl|].
    apply in_map_iff in Hy as [[j' y'] [<- Hy']]. apply (Hxl' (j', y') Hy'). }
  set (cur' := match prev with
               | Some p => if negb (Qeq_bool (sr_pct x) (sr_pct p)) then i + 1 else cur
               | None => cur end).
  assert (Hcur : cur' = S (count_gt (sr_pct x) (map snd (P ++ (j, x) :: l)))).
  { subst cur'. rewrite map_app, count_gt_app, Hafter, Nat.add_0_r.
    destruct prev as [p|].
    - destruct Hprev as [Hin [Hmin Hc]].
      destruct (Qeq_bool (sr_pct x) (sr_pct p)) eqn:E; simpl.
      + qbool. rewrite Hc, map_app, count_gt_app.
        rewrite !(count_gt_Qeq (sr_pct p) (sr_pct x)) by (apply Qeq_sym; exact E).
        rewrite Hafter. lia.
      + qbool. rewrite count_gt_all; [rewrite length_map; lia|]. intros y Hy.
        apply in_map_iff in Hin as [[jp p'] [Hp' Hin]]. simpl in Hp'. subst p'.
        assert (Hxp : (sr_pct x <= sr_pct p)%Q) by apply (HPx (jp, p) (j, x) Hin (or_introl eq_refl)).
        assert (Hpy := Hmin y Hy).
        assert (Hne : ~ (sr_pct x == sr_pct p)%Q) by exact E. lra.
    - destruct Hprev as [-> ->]. reflexivity. }
  constructor.
  - split; [reflexivity|]. simpl. exact Hcur.
  - replace (P ++ (j, x) :: l) with ((P ++ [(j, x)]) ++ l) in * by (rewrite <- app_assoc; reflexivity).
    apply IH.
    + exact Hs.
    + rewrite length_app. simpl. lia.
    + rewrite map_app. split; [apply in_or_app; right; left; reflexivity|]. split.
      * intros y Hy. apply in_app_or in Hy as [Hy|[<-|[]]]; [|apply Qle_refl].
        apply in_map_iff in Hy as [[jy y'] [<- Hy]].
        apply (HPx (jy, y') (j, x) Hy (or_introl eq_refl)).
      * exact Hcur.
Qed.

Lemma sort_results_strongly r : StronglySorted pct_desc (sort_results r).
Proof.
  apply Sorted_StronglySorted.
  - intros a b c H1 H2. unfold pct_desc in *. lra.
  - eapply Sorted_weaken; [|apply sort_results_sorted].
    intros a b [H|[H _]]; unfold pct_desc; lra.
Qed.

Lemma sort_results_snd_perm r :
  Permutation (map snd (sort_results r)) (getStudentResults r).
Proof.
  transitivity (map snd (indexed (getStudentResults r))).
  - apply Permutation_map, sort_results_perm.
  - rewrite map_snd_indexed. reflexivity.
Qed.

Lemma assign_ranks_count r :
  Forall2 (fun e a => fst a = fst e
                      /\ snd a = S (count_gt (sr_pct (snd e)) (getStudentResults r)))
          (sort_results r) (assign_ranks (sort_results r)).
Proof.
  pose proof (assign_ranks_aux_count (sort_results r) [] 0 1 None
                (sort_results_strongly r) eq_refl (conj eq_refl eq_refl)) as H.
  simpl in H. eapply Forall2_impl; [|exact H].
  intros e a [H1 H2]. split; [exact H1|].
  rewrite H2, (count_gt_perm _ _ _ (sort_results_snd_perm r)). reflexivity.
Qed.

Lemma Forall2_In_l {A B : Type} (R : A -> B -> Prop) l l' x :
  Forall2 R l l' -> In x l -> exists y, In y l' /\ R x y.
Proof.
  induction 1 as [|a b l l' Hab _ IH]; intros Hx; [destruct Hx|].
  destruct Hx as [<-|Hx].
  - exists b. split; [left; reflexivity|exact Hab].
  - destruct (IH Hx) as [y [Hy Hr]]. exists y. split; [right; exact Hy|exact Hr].
Qed.

Lemma find_rank_In j n a : NoDup (map fst a) -> In (j, n) a -> find_rank j a = Some n.
Proof.
  induction a as [|[j' n'] a IH]; simpl; intros Hnd Hin; [destruct Hin|].
  apply NoDup_cons_iff in Hnd as [Hnot Hnd].
  destruct Hin as [E|Hin].
  - injection E as <- <-. rewrite Nat.eqb_refl. reflexivity.
  - destruct (Nat.eqb j j') eqn:E.
    + apply Nat.eqb_eq in E. subst j'. exfalso. apply Hnot.
      apply in_map_iff. exists (j, n). split; [reflexivity|exact Hin].
    + apply IH; assumption.
Qed.

Lemma map_fst_indexed {A : Type} (l : list A) : map fst (indexed l) = seq 0 (length l).
Proof.
  unfold indexed. generalize 0. induction l as [|x l IH]; intros s; simpl; [reflexivity|].
  f_equal. apply IH.
Qed.

Lemma assign_ranks_NoDup r : NoDup (map fst (assign_ranks (sort_results r))).
Proof.
  unfold assign_ranks. rewrite assign_ranks_aux_fst.
  apply (Permutation_NoDup (Permutation_sym (Permutation_map fst (sort_results_perm r)))).
  rewrite map_fst_indexed. apply seq_NoDup.
Qed.

Lemma find_rank_sorted r j sr :
  nth_error (getStudentResults r) j = Some sr ->
  find_rank j (assign_ranks (sort_results r))
  = Some (S (count_gt (sr_pct sr) (getStudentResults r))).
Proof.
  intro Hj. apply In_indexed in Hj.
  apply (Permutation_in _ (Permutation_sym (sort_results_perm r))) in Hj.
  destruct (Forall2_In_l _ _ _ _ (assign_ranks_count r) Hj) as [[j' n] [Hin [H1 H2]]].
  simpl in H1, H2. subst j' n. apply find_rank_In; [apply assign_ranks_NoDup|exact Hin].
Qed.

Lemma map_indexed_ignore {A B : Type} (f : A -> B) (l : list A) :
  map (fun p => f (snd p)) (indexed l) = map f l.
Proof. rewrite <- map_map, map_snd_indexed. reflexivity. Qed.

(** The entries of [calculateRanks r]: same keys in the same order, each
    result given the rank one plus the number of results with a strictly
    higher percentage. *)
Lemma calculateRanks_entries r :
  res_studentResults (calculateRanks r)
  = map (fun e => (fst e, with_rank (snd e)
                             (S (count_gt (sr_pct (snd e)) (getStudentResults r)))))
        (res_studentResults r).
Proof.
  unfold calculateRanks, with_studentResults, write_ranks. simpl.
  match goal with
  | |- map _ (indexed ?m) = map ?g ?m => rewrite <- (map_indexed_ignore g m)
  end.
  apply map_ext_in. intros [j [k sr]] Hin.
  apply In_indexed in Hin.
  assert (Hj : nth_error (getStudentResults r) j = Some sr).
  { unfold getStudentResults. rewrite nth_error_map, Hin. reflexivity. }
  rewrite (find_rank_sorted r j sr Hj). reflexivity.
Qed.

Lemma ranks_of_calculateRanks r :
  ranks_of (calculateRanks r)
  = map (fun sr => Some (S (count_gt (sr_pct sr) (getStudentResults r)))) (getStudentResults r).
Proof.
  unfold ranks_of, getStudentResults. rewrite calculateRanks_entries.
  unfold getStudentResults. rewrite !map_map. reflexivity.
Qed.

Lemma count_gt_pcts p l l' : map sr_pct l = map sr_pct l' -> count_gt p l = count_gt p l'.
Proof.
  revert l'. induction l as [|x l IH]; intros [|y l'] H; try discriminate; [reflexivity|].
  simpl in H. injection H as Hxy H. specialize (IH l' H). unfold count_gt in *. simpl.
  rewrite Hxy. destruct (Qltb p (sr_pct y)); simpl; rewrite IH; reflexivity.
Qed.

Lemma Qltb_compat_r p y y' : (y == y')%Q -> Qltb p y = Qltb p y'.
Proof.
  intro H. apply Bool.eq_true_iff_eq. rewrite !Qltb_iff. split; intro; lra.
Qed.

Lemma count_gt_Forall2 p p' l qs :
  Forall2 (fun sr q => sr_pct sr == q)%Q l qs -> (p == p')%Q ->
  count_gt p l = length (filter (Qltb p') qs).
Proof.
  intros H Hp. unfold count_gt. induction H as [|sr q l qs Hq _ IH]; simpl; [reflexivity|].
  rewrite (Qltb_compat_l _ _ _ Hp), (Qltb_compat_r _ _ _ Hq).
  destruct (Qltb p' q); simpl; rewrite IH; reflexivity.
Qed.

Lemma map_Forall2 {A B C : Type} (R : A -> B -> Prop) (f : A -> C) (g : B -> C) l l' :
  Forall2 R l l' -> (forall x y, R x y -> f x = g y) -> map f l = map g l'.
Proof.
  intros H Hfg. induction H as [|x y l l' Hxy _ IH]; simpl; [reflexivity|].
  rewrite (Hfg _ _ Hxy), IH. reflexivity.
Qed.

(** Ranks depend only on the list of percentages. *)
Lemma ranks_of_pcts r qs :
  Forall2 (fun sr q => sr_pct sr == q)%Q (getStudentResults r) qs ->
  ranks_of (calculateRanks r) = map (fun q => Some (S (length (filter (Qltb q) qs)))) qs.
Proof.
  intro H. rewrite ranks_of_calculateRanks. apply (map_Forall2 _ _ _ _ _ H).
  intros sr q Hq. rewrite (count_gt_Forall2 _ q _ qs H Hq). reflexivity.
Qed.

Lemma Forall2_nth_error_r {A B : Type} (R : A -> B -> Prop) l l' k y :
  Forall2 R l l' -> nth_error l' k = Some y -> exists x, nth_error l k = Some x /\ R x y.
Proof.
  intros H. revert k. induction H as [|a b l l' Hab _ IH]; intros k Hk.
  - destruct k; discriminate.
  - destruct k as [|k]; simpl in Hk.
    + injection Hk as <-. exists a. split; [reflexivity|exact Hab].
    + apply IH. exact Hk.
Qed.

Lemma with_studentResults_self r : with_studentResults r (res_studentResults r) = r.
Proof. destruct r. reflexivity. Qed.

(** C9: [calculateRanks] is idempotent.  Running it a second time leaves
    the whole Result unchanged, so in particular every StudentResult keeps
    the rank the first run gave it. *)
Theorem calculateRanks_idempotent r :
  calculateRanks (calculateRanks r) = calculateRanks r.
Proof.
  assert (Hp : map sr_pct (getStudentResults (calculateRanks r)) = map sr_pct (getStudentResults r)).
  { unfold getStudentResults. rewrite calculateRanks_entries, !map_map. reflexivity. }
  assert (E : res_studentResults (calculateRanks (calculateRanks r))
              = res_studentResults (calculateRanks r)).
  { rewrite (calculateRanks_entries (calculateRanks r)).
    rewrite (calculateRanks_entries r) at 2. rewrite (calculateRanks_entries r) at 1.
    rewrite map_map. apply map_ext. intros [k sr]. simpl.
    rewrite (count_gt_pcts _ _ _ Hp). reflexivity. }
  transitivity (with_studentResults (calculateRanks r)
                  (res_studentResults (calculateRanks (calculateRanks r)))); [reflexivity|].
  rewrite E. apply with_studentResults_self.
Qed.

(** C2 (counterexample): three students with percentages 85, 85, 75 get
    the ranks 1, 1, 3 from [fromRawData] (which calls [calculateRanks]):
    the two tied highest share rank 1 and the 75 gets its position 3,
    not the ranks 2, 2, 1. *)
Lemma calculateRanks_tie_counterexample :
  match Result_fromRawData
          (raw_single_subject "Math" [("Asha", "1", 85%Q); ("Bela", "2", 85%Q); ("Chen", "3", 75%Q)])
  with
  | Ok r => ranks_of r = [Some 1; Some 1; Some 3] /\ ranks_of r <> [Some 2; Some 2; Some 1]
  | Err _ => False
  end.
Proof. vm_compute. split; [reflexivity|discriminate]. Qed.

(** C2 (amended): for every Result whose student results carry the
    percentages 85, 85, 75 (in that order), [calculateRanks] gives the
    ranks 1, 1, 3: the tied pair shares rank 1 and the next student gets
    rank 3 (one plus the number of strictly higher percentages). *)
Theorem calculateRanks_ties r :
  Forall2 (fun sr q => sr_pct sr == q)%Q (getStudentResults r) [85%Q; 85%Q; 75%Q] ->
  ranks_of (calculateRanks r) = [Some 1; Some 1; Some 3].
Proof. intro H. rewrite (ranks_of_pcts r _ H). vm_compute. reflexivity. Qed.

Lemma calculateRanks_ties_witness :
  let r := sample_result [("1", 85%Q); ("2", 85%Q); ("3", 75%Q)] in
  Forall2 (fun sr q => sr_pct sr == q)%Q (getStudentResults r) [85%Q; 85%Q; 75%Q]
  /\ ranks_of (calculateRanks r) = [Some 1; Some 1; Some 3].
Proof.
  intro r.
  assert (H : Forall2 (fun sr q => sr_pct sr == q)%Q (getStudentResults r) [85%Q; 85%Q; 75%Q])
    by (vm_compute; repeat constructor).
  split; [exact H|apply (calculateRanks_ties r H)].
Defined.

(** C3: [calculateRanks] sorts the results by descending percentage, ties
    by descending total marks (the sorted list is a permutation of the
    results, each identified by its position [j]); the rank loop walks the
    sorted list, giving the first record rank 1 and each later record the
    rank of its predecessor exactly when the percentages are equal, its
    1-based position otherwise; each rank is written to the record it was
    computed for; and percentages 95, 88, 82, 78 give ranks 1, 2, 3, 4. *)
Theorem calculateRanks_spec r :
  let sorted := sort_results r in
  let ranks := map snd (assign_ranks sorted) in
  Permutation sorted (indexed (getStudentResults r))
  /\ Sorted (fun a b => (sr_pct (snd b) < sr_pct (snd a))%Q
                        \/ (sr_pct (snd a) == sr_pct (snd b)
                            /\ js_lt (sr_total (snd a)) (sr_total (snd b)) = false)) sorted
  /\ map fst (assign_ranks sorted) = map fst sorted
  /\ (forall x rest, sorted = x :: rest -> hd_error ranks = Some 1)
  /\ (forall k a b, nth_error sorted k = Some a -> nth_error sorted (S k) = Some b ->
        (nth_error ranks (S k) = nth_error ranks k <-> sr_pct (snd b) == sr_pct (snd a))
        /\ (~ sr_pct (snd b) == sr_pct (snd a) -> nth_error ranks (S k) = Some (S (S k))))%Q
  /\ (forall k j n, nth_error (assign_ranks sorted) k = Some (j, n) ->
        nth_error (ranks_of (calculateRanks r)) j = Some (Some n))
  /\ (Forall2 (fun sr q => sr_pct sr == q)%Q (getStudentResults r) [95%Q; 88%Q; 82%Q; 78%Q] ->
      ranks_of (calculateRanks r) = [Some 1; Some 2; Some 3; Some 4]).
Proof.
  intros sorted ranks.
  split; [apply sort_results_perm|]. split; [apply sort_results_sorted|].
  split; [apply assign_ranks_aux_fst|].
  split; [intros x rest Hx; unfold ranks; rewrite Hx; destruct x; reflexivity|].
  split.
  - intros k a b Ha Hb.
    pose proof (assign_ranks_aux_step 0 1 None sorted k a b Ha Hb) as Hstep.
    fold (assign_ranks sorted) in Hstep. fold ranks in Hstep.
    assert (Hk : exists n, nth_error ranks k = Some n).
    { destruct (nth_error ranks k) as [n|] eqn:E; [exists n; reflexivity|].
      apply nth_error_None in E. unfold ranks in E.
      rewrite length_map in E. unfold assign_ranks in E.
      rewrite assign_ranks_aux_length in E.
      assert (k < length sorted) by (apply nth_error_Some; congruence). lia. }
    destruct Hk as [n Hn].
    assert (Hle : n <= k + 1) by (apply (assign_ranks_aux_bound 0 1 None sorted k n); [lia|exact Hn]).
    destruct (Qeq_bool (sr_pct (snd b)) (sr_pct (snd a))) eqn:E.
    + apply Qeq_bool_iff in E. split; [split; intros _; [exact E|exact Hstep]|].
      intros Hne. exfalso. apply Hne, E.
    + apply Qeq_bool_neq in E. rewrite Hstep, Hn. split.
      * split; [intro H; injection H as H; lia|intro H; exfalso; apply E, H].
      * intros _. f_equal. lia.
  - split.
    + intros k j n Hk.
      destruct (Forall2_nth_error_r _ _ _ _ _ (assign_ranks_count r) Hk) as [[j' sr] [He [H1 H2]]].
      simpl in H1, H2. subst j' n.
      assert (Hin : In (j, sr) (indexed (getStudentResults r))).
      { apply (Permutation_in _ (sort_results_perm r)). apply nth_error_In with k. exact He. }
      apply In_indexed in Hin.
      rewrite ranks_of_calculateRanks, nth_error_map, Hin. reflexivity.
    + intro H. rewrite (ranks_of_pcts r _ H). vm_compute. reflexivity.
Qed.

(** ** Percentage *)

Lemma newPercentage_range p v : newPercentage p = Ok v -> (0 <= pct_value v <= 100)%Q.
Proof.
  destruct p as [| | |q]; simpl; try discriminate.
  destruct (Qltb q 0) eqn:E1; [discriminate|].
  destruct (Qltb 100 q) eqn:E2; [discriminate|].
  intro H. injection H as <-. simpl. qbool. lra.
Qed.

Lemma newPercentage_above p : js_lt (JFin 100%Q) p = true -> exists e, newPercentage p = Err e.
Proof.
  destruct p as [| | |q]; simpl; try discriminate.
  - intros _. eexists. reflexivity.
  - intro H. destruct (Qltb q 0); [eexists; reflexivity|]. rewrite H. eexists. reflexivity.
Qed.

(** C6: a Percentage built by [new Percentage] or by [fromMarks] holds a
    value in [0, 100]; [fromMarks obtained total] fails when [total <= 0]
    and when the ratio [(obtained / total) * 100] exceeds 100. *)
Theorem Percentage_invariants :
  (forall p v, newPercentage p = Ok v -> (0 <= pct_value v <= 100)%Q)
  /\ (forall obtained total v,
        Percentage_fromMarks obtained total = Ok v -> (0 <= pct_value v <= 100)%Q)
  /\ (forall obtained total, js_le total (JFin 0%Q) = true ->
        exists e, Percentage_fromMarks obtained total = Err e)
  /\ (forall obtained total,
        js_lt (JFin 100%Q) (js_mul (js_div obtained total) (JFin 100%Q)) = true ->
        exists e, Percentage_fromMarks obtained total = Err e).
Proof.
  split; [exact newPercentage_range|]. split; [|split].
  - intros o t v. unfold Percentage_fromMarks.
    destruct (js_le t (JFin 0%Q)); [discriminate|]. apply newPercentage_range.
  - intros o t H. unfold Percentage_fromMarks. rewrite H. eexists. reflexivity.
  - intros o t H. unfold Percentage_fromMarks.
    destruct (js_le t (JFin 0%Q)); [eexists; reflexivity|]. apply newPercentage_above, H.
Qed.

(** ** Maps and addStudentResult *)

Lemma map_get_set_same {A : Type} k (v : A) m : map_get k (map_set k v m) = Some v.
Proof.
  induction m as [|[k' v'] m IH]; simpl.
  - rewrite String.eqb_refl. reflexivity.
  - destruct (String.eqb k k') eqn:E; simpl; rewrite E; [reflexivity|exact IH].
Qed.

Lemma map_get_set_other {A : Type} k k' (v : A) m :
  k' <> k -> map_get k' (map_set k v m) = map_get k' m.
Proof.
  intro Hne. induction m as [|[k0 v0] m IH]; simpl.
  - destruct (String.eqb k' k) eqn:E; [apply String.eqb_eq in E; congruence|reflexivity].
  - destruct (String.eqb k k0) eqn:E; simpl.
    + apply String.eqb_eq in E. subst k0.
      destruct (String.eqb k' k) eqn:E'; [apply String.eqb_eq in E'; congruence|reflexivity].
    + destruct (String.eqb k' k0); [reflexivity|exact IH].
Qed.

Lemma map_set_length_found {A : Type} k (v : A) m :
  map_get k m <> None -> length (map_set k v m) = length m.
Proof.
  induction m as [|[k' v'] m IH]; simpl; intro H; [congruence|].
  destruct (String.eqb k k'); simpl; [reflexivity|]. rewrite IH; [reflexivity|exact H].
Qed.

Lemma map_set_length_new {A : Type} k (v : A) m :
  map_get k m = None -> length (map_set k v m) = S (length m).
Proof.
  induction m as [|[k' v'] m IH]; simpl; intro H; [reflexivity|].
  destruct (String.eqb k k'); [discriminate|]. simpl. rewrite IH; [reflexivity|exact H].
Qed.

Lemma foldM_validate_ok names l :
  (forall x, In x l -> In x names) ->
  foldM (fun _ expected =>
           if existsb (String.eqb expected) names then Ok tt
           else Err ("Missing marks for subject: " ++ expected)) tt l = Ok tt.
Proof.
  induction l as [|x l IH]; intro H; simpl; [reflexivity|].
  assert (E : existsb (String.eqb x) names = true).
  { apply existsb_exists. exists x. split; [apply H; left; reflexivity|apply String.eqb_refl]. }
  rewrite E. simpl. apply IH. intros y Hy. apply H. right. exact Hy.
Qed.

Lemma validateStudentResult_ok r sr : covers r sr -> validateStudentResult r sr = Ok tt.
Proof.
  intro H. unfold validateStudentResult. apply foldM_validate_ok.
  intros x Hx. apply in_map_iff in Hx as [s [<- Hs]]. apply H, Hs.
Qed.

Lemma newStudent_roll name roll c sec st :
  newStudent name roll c sec = Ok st -> st_rollNumber st = trim roll.
Proof.
  unfold newStudent. repeat match goal with |- context [if ?b then _ else _] => destruct b end;
    try discriminate. intro H. injection H as <-. reflexivity.
Qed.

(** C10: [addStudentResult] keys the Map by the roll number, which
    [new Student] stores trimmed.  For a result [s] that covers the
    Result's subjects, the call succeeds; afterwards the roll number of
    [s] maps to [s] and every other key (a roll number differing only in
    letter case included) keeps its entry; an existing entry for the same
    roll number is replaced in place (student count unchanged), a new roll
    number adds one entry. *)
Theorem addStudentResult_keying r s :
  covers r s ->
  (forall name roll c sec st, newStudent name roll c sec = Ok st -> st_rollNumber st = trim roll)
  /\ exists r', addStudentResult r s = Ok r'
     /\ getStudentResult r' (sr_roll s) = Some s
     /\ (forall k, k <> sr_roll s -> getStudentResult r' k = getStudentResult r k)
     /\ (getStudentResult r (sr_roll s) <> None -> getStudentCount r' = getStudentCount r)
     /\ (getStudentResult r (sr_roll s) = None -> getStudentCount r' = S (getStudentCount r)).
Proof.
  intro Hc. split; [exact newStudent_roll|].
  unfold addStudentResult. rewrite (validateStudentResult_ok r s Hc). simpl.
  eexists. split; [reflexivity|].
  unfold getStudentResult, getStudentCount, with_studentResults. simpl.
  split; [apply map_get_set_same|]. split; [intros k Hk; apply map_get_set_other, Hk|].
  split; [apply map_set_length_found|apply map_set_length_new].
Qed.

Lemma addStudentResult_keying_witness :
  let r := sample_result [("A1", 80%Q)] in
  let s := sample_student_result "a1" 70%Q in
  covers r s
  /\ (exists r', addStudentResult r s = Ok r' /\ getStudentCount r' = 2)
  /\ ((forall name roll c sec st, newStudent name roll c sec = Ok st -> st_rollNumber st = trim roll)
      /\ exists r', addStudentResult r s = Ok r'
         /\ getStudentResult r' (sr_roll s) = Some s
         /\ (forall k, k <> sr_roll s -> getStudentResult r' k = getStudentResult r k)
         /\ (getStudentResult r (sr_roll s) <> None -> getStudentCount r' = getStudentCount r)
         /\ (getStudentResult r (sr_roll s) = None -> getStudentCount r' = S (getStudentCount r))).
Proof.
  intros r s.
  assert (Hc : covers r s).
  { intros subj Hin. simpl in Hin. destruct Hin as [<-|[]]. simpl. left. reflexivity. }
  split; [exact Hc|]. split.
  - eexists. split; [vm_compute; reflexivity|]. reflexivity.
  - apply (addStudentResult_keying r s Hc).
Defined.

(** ** Subject coverage *)

Lemma foldM_validate_in names l :
  foldM (fun _ expected =>
           if existsb (String.eqb expected) names then Ok tt
           else Err ("Missing marks for subject: " ++ expected)) tt l = Ok tt ->
  forall x, In x l -> In x names.
Proof.
  induction l as [|y l IH]; simpl; intros H x Hx; [destruct Hx|].
  destruct (existsb (String.eqb y) names) eqn:E; [|discriminate]. simpl in H.
  destruct Hx as [<-|Hx]; [|apply IH; assumption].
  apply existsb_exists in E as [z [Hz Ez]]. apply String.eqb_eq in Ez. subst z. exact Hz.
Qed.

Lemma validateStudentResult_covers r sr : validateStudentResult r sr = Ok tt -> covers r sr.
Proof.
  unfold validateStudentResult. intros H s Hs.
  apply (foldM_validate_in _ _ H). apply in_map, Hs.
Qed.

Lemma addStudentResult_ok_iff r s :
  (exists r', addStudentResult r s = Ok r') <-> covers r s.
Proof.
  split.
  - intros [r' H]. unfold addStudentResult in H.
    destruct (validateStudentResult r s) as [[]|e] eqn:E; [|discriminate].
    apply validateStudentResult_covers, E.
  - intro Hc. unfold addStudentResult. rewrite (validateStudentResult_ok r s Hc).
    eexists. reflexivity.
Qed.

Lemma In_map_set {A : Type} k v k0 (v0 : A) m :
  In (k, v) (map_set k0 v0 m) -> In (k, v) m \/ v = v0.
Proof.
  induction m as [|[k' v'] m IH]; simpl; intro H.
  - destruct H as [H|[]]. injection H as _ <-. right. reflexivity.
  - destruct (String.eqb k0 k') eqn:E; simpl in H.
    + destruct H as [H|H]; [injection H as _ <-; right; reflexivity|left; right; exact H].
    + destruct H as [H|H]; [left; left; exact H|].
      destruct (IH H) as [H'|H']; [left; right; exact H'|right; exact H'].
Qed.

Lemma addStudentResult_all_covered r s r' :
  all_covered r -> addStudentResult r s = Ok r' -> all_covered r'.
Proof.
  intros Hall H. unfold addStudentResult in H.
  destruct (validateStudentResult r s) as [[]|e] eqn:E; [|discriminate].
  simpl in H. injection H as <-. apply validateStudentResult_covers in E.
  intros k sr Hin. simpl in Hin. unfold covers. simpl.
  destruct (In_map_set _ _ _ _ _ Hin) as [H|<-]; [apply (Hall k sr H)|exact E].
Qed.

Lemma foldM_add_all_covered l acc r :
  all_covered acc -> foldM addStudentResult acc l = Ok r -> all_covered r.
Proof.
  revert acc. induction l as [|s l IH]; simpl; intros acc Hacc H.
  - injection H as <-. exact Hacc.
  - destruct (addStudentResult acc s) as [acc'|e] eqn:E; [|discriminate].
    apply (IH acc'); [apply (addStudentResult_all_covered acc s); assumption|exact H].
Qed.

Lemma newResult_all_covered id title subjects srs r :
  newResult id title subjects srs = Ok r -> all_covered r.
Proof.
  unfold newResult.
  destruct (Nat.eqb (slength (trim id)) 0); [discriminate|].
  destruct (Nat.eqb (slength (trim title)) 0); [discriminate|].
  destruct subjects as [|s0 subjects]; [discriminate|].
  apply foldM_add_all_covered. intros k sr [].
Qed.

Lemma calculateRanks_all_covered r : all_covered r -> all_covered (calculateRanks r).
Proof.
  intros Hall k sr Hin. rewrite calculateRanks_entries in Hin.
  apply in_map_iff in Hin as [[k0 sr0] [E Hin]]. simpl in E. injection E as <- <-.
  apply (Hall k0 sr0 Hin).
Qed.

Lemma fromRawData_all_covered data r : Result_fromRawData data = Ok r -> all_covered r.
Proof.
  unfold Result_fromRawData.
  destruct (mapM newSubjectDefault (rr_subjects data)) as [subjects|e]; [|discriminate]. simpl.
  destruct (mapM (buildStudentResult subjects) (rr_studentData data)) as [srs|e]; [|discriminate].
  simpl.
  destruct (newResult (rr_id data) (rr_title data) subjects srs) as [res0|e] eqn:E;
    [|discriminate].
  simpl. intro H. injection H as <-.
  apply calculateRanks_all_covered, (newResult_all_covered _ _ _ _ _ E).
Qed.

Lemma mark_of_raw_missing name marks :
  map_get name marks = None -> is_proto_key name = false ->
  mark_of_raw name marks = Ok (mkMarksRec (JFin 0%Q))
  /\ mark_of_raw name [(name, RMNum (JFin 0%Q))] = Ok (mkMarksRec (JFin 0%Q)).
Proof.
  intros H1 H2. unfold mark_of_raw. rewrite H1, H2. simpl. rewrite String.eqb_refl.
  split; reflexivity.
Qed.

(** C1 (counterexample): [fromRawData] with the subjects Math and Science
    and a student whose marks object has no Science entry does not fail:
    [markValue || 0] reads the missing mark as 0, and the built Result
    holds that student with a Science mark of 0. *)
Lemma fromRawData_missing_mark_counterexample :
  match Result_fromRawData
          (mkRawResult "R1" "Term 1" ["Math"; "Science"]
             [mkRawStudent "Asha" "1" None None [("Math", RMNum (JFin 80%Q))]])
  with
  | Ok r => map (fun sr => map_get "Science" (sr_marks sr)) (getStudentResults r)
            = [Some (mkMarksRec (JFin 0%Q))]
  | Err _ => False
  end.
Proof. vm_compute. reflexivity. Qed.

(** C1 (amended): [fromRawData] reads a subject missing from a student's
    marks object (a name that is not an [Object.prototype] key) exactly as
    an explicit mark of 0, so a missing subject is no failure there.  The
    construction-time check is in [addStudentResult]: it succeeds exactly
    when the marks map has a key for every subject of the Result, and
    throws otherwise; hence every StudentResult held by a Result built by
    [fromRawData], or grown by [addStudentResult], carries marks for all
    of the Result's subjects. *)
Theorem subject_coverage :
  (forall name marks, map_get name marks = None -> is_proto_key name = false ->
     mark_of_raw name marks = Ok (mkMarksRec (JFin 0%Q))
     /\ mark_of_raw name [(name, RMNum (JFin 0%Q))] = Ok (mkMarksRec (JFin 0%Q)))
  /\ (forall r s, (exists r', addStudentResult r s = Ok r') <-> covers r s)
  /\ (forall r s, ~ covers r s -> exists e, addStudentResult r s = Err e)
  /\ (forall data r, Result_fromRawData data = Ok r -> all_covered r)
  /\ (forall r s r', all_covered r -> addStudentResult r s = Ok r' -> all_covered r').
Proof.
  split; [exact mark_of_raw_missing|]. split; [exact addStudentResult_ok_iff|].
  split; [|split; [exact fromRawData_all_covered|exact addStudentResult_all_covered]].
  intros r s Hn. destruct (addStudentResult r s) as [r'|e] eqn:E.
  - exfalso. apply Hn, addStudentResult_ok_iff. exists r'. exact E.
  - exists e. reflexivity.
Qed.

(** ** The marks distribution *)

Lemma range_keys_default :
  range_key default_ranges 0 = "0-40%" /\ range_key default_ranges 1 = "40-60%"
  /\ range_key default_ranges 2 = "60-75%" /\ range_key default_ranges 3 = "75-90%"
  /\ range_key default_ranges 4 = "90-100%".
Proof. vm_compute. repeat split. Qed.

Lemma jsnat_succ n : js_add (jsnat n) (JFin 1%Q) = jsnat (S n).
Proof. unfold jsnat, js_add, inject_Z, Qplus. simpl. f_equal. f_equal; lia. Qed.

Lemma Qle_bool_gt x y : (y < x)%Q -> Qle_bool x y = false.
Proof.
  intro H. destruct (Qle_bool x y) eqn:E; [|reflexivity]. apply Qle_bool_iff in E. lra.
Qed.

Lemma Qeq_bool_neq_false x y : ~ (x == y)%Q -> Qeq_bool x y = false.
Proof.
  intro H. destruct (Qeq_bool x y) eqn:E; [|reflexivity]. apply Qeq_bool_iff in E. tauto.
Qed.

(** Decide every comparison of rationals in the goal by [lra]. *)
Ltac qfix :=
  repeat match goal with
  | |- context [Qltb ?a ?b] =>
      first [rewrite (proj2 (Qltb_iff a b)) by lra | rewrite (proj2 (Qltb_false a b)) by lra]
  | |- context [Qle_bool ?a ?b] =>
      first [rewrite (proj2 (Qle_bool_iff a b)) by lra | rewrite (Qle_bool_gt a b) by lra]
  | |- context [Qeq_bool ?a ?b] =>
      first [rewrite (proj2 (Qeq_bool_iff a b)) by lra
            | rewrite (Qeq_bool_neq_false a b) by (intro; lra)]
  end.

Lemma count_in_snoc lo hi l sr :
  count_in lo hi (l ++ [sr]) = count_in lo hi l + (if in_range lo hi sr then 1 else 0).
Proof.
  unfold count_in. rewrite filter_app, length_app. simpl.
  destruct (in_range lo hi sr); reflexivity.
Qed.

Lemma count_eq100_snoc l sr :
  count_eq100 (l ++ [sr]) = count_eq100 l + (if Qeq_bool (sr_pct sr) 100%Q then 1 else 0).
Proof.
  unfold count_eq100. rewrite filter_app, length_app. simpl.
  destruct (Qeq_bool (sr_pct sr) 100); reflexivity.
Qed.

Lemma count_percentage_default l sr :
  count_percentage default_ranges (default_distribution l) (JFin (sr_pct sr))
  = default_distribution (l ++ [sr]).
Proof.
  destruct range_keys_default as (K0 & K1 & K2 & K3 & K4).
  unfold default_distribution. rewrite !count_in_snoc, count_eq100_snoc. unfold in_range.
  unfold count_percentage, bucket_index. cbn -[Qltb Qle_bool Qeq_bool range_key jsnat].
  set (p := sr_pct sr).
  destruct (Qlt_le_dec p 0); [|destruct (Qlt_le_dec p 40); [|destruct (Qlt_le_dec p 60);
    [|destruct (Qlt_le_dec p 75); [|destruct (Qlt_le_dec p 90); [|destruct (Qlt_le_dec p 100);
    [|destruct (Qeq_dec p 100)]]]]]];
  qfix; cbn -[Qltb Qle_bool Qeq_bool range_key jsnat];
  rewrite ?K0, ?K1, ?K2, ?K3, ?K4; cbn -[Qltb Qle_bool Qeq_bool range_key jsnat];
  rewrite ?jsnat_succ, ?Nat.add_0_r, ?Nat.add_1_r, ?Nat.add_succ_r; reflexivity.
Qed.

Lemma distribution_fold l acc :
  fold_left (fun d sr => count_percentage default_ranges d (JFin (sr_pct sr)))
            l (default_distribution acc)
  = default_distribution (acc ++ l).
Proof.
  revert acc. induction l as [|sr l IH]; intros acc; simpl.
  - rewrite app_nil_r. reflexivity.
  - rewrite count_percentage_default, IH, <- app_assoc. reflexivity.
Qed.

(** C8: with the default ranges [0, 40, 60, 75, 90, 100],
    [calculateMarksDistribution] returns the five keys "0-40%" ...
    "90-100%" in this order, the key of [ranges[i]]-[ranges[i+1]] holding
    the number of students whose percentage lies in
    [[ranges[i], ranges[i+1])], and "90-100%" also counting every
    percentage equal to 100. *)
Theorem calculateMarksDistribution_default r :
  calculateMarksDistribution r default_ranges = default_distribution (getStudentResults r).
Proof.
  unfold calculateMarksDistribution.
  replace (init_distribution default_ranges) with (default_distribution []) by (vm_compute; reflexivity).
  rewrite distribution_fold. reflexivity.
Qed.

(** ** The marks transformer *)

Lemma clamp_0_100_range n : exists q, clamp_0_100 n = JFin q /\ (0 <= q <= 100)%Q.
Proof.
  destruct n as [| | |q]; simpl.
  - exists 0%Q. split; [reflexivity|lra].
  - exists 100%Q. split; [reflexivity|lra].
  - exists 0%Q. split; [reflexivity|lra].
  - destruct (Qltb q 100) eqn:E1; [destruct (Qltb 0 q) eqn:E2|].
    + exists q. split; [reflexivity|]. qbool. lra.
    + exists 0%Q. split; [reflexivity|lra].
    + exists 100%Q. split; [reflexivity|lra].
Qed.

Lemma clamp_code n :
  (if js_isNaN n then JFin 0%Q else js_max (JFin 0%Q) (js_min (JFin 100%Q) n)) = clamp_0_100 n.
Proof.
  destruct n as [| | |q]; try reflexivity.
  assert (Hmin : js_min (JFin 100%Q) (JFin q) = if Qltb q 100 then JFin q else JFin 100%Q)
    by reflexivity.
  simpl js_isNaN. cbv iota. rewrite Hmin. unfold clamp_0_100.
  destruct (Qltb q 100); [|reflexivity].
  unfold js_max. simpl js_isNaN. simpl orb. cbv iota.
  change (js_lt (JFin 0%Q) (JFin q)) with (Qltb 0 q). destruct (Qltb 0 q); reflexivity.
Qed.

Lemma marksTransformer_general v :
  v <> JUndefined -> v <> JNull -> v <> JStr "" ->
  marksTransformer v
  = let str := trim (toLowerCase (js_String v)) in
    if existsb (String.eqb str) marks_zero_words then JFin 0%Q
    else if existsb (String.eqb str) marks_pass_words then JFin 40%Q
    else clamp_0_100 (parseFloat str).
Proof.
  intros H1 H2 H3. unfold marksTransformer.
  cbv zeta. set (str := trim (toLowerCase (js_String v))).
  assert (Hm : match v with
               | JUndefined | JNull => JFin 0%Q
               | JStr "" => JFin 0%Q
               | _ =>
                   if String.eqb str "absent" || String.eqb str "ab" || String.eqb str "a" then JFin 0%Q
                   else if String.eqb str "pass" || String.eqb str "p" then JFin 40%Q
                   else if String.eqb str "fail" || String.eqb str "f" then JFin 0%Q
                   else if js_isNaN (parseFloat str) then JFin 0%Q
                   else js_max (JFin 0%Q) (js_min (JFin 100%Q) (parseFloat str))
               end
               = if String.eqb str "absent" || String.eqb str "ab" || String.eqb str "a" then JFin 0%Q
                 else if String.eqb str "pass" || String.eqb str "p" then JFin 40%Q
                 else if String.eqb str "fail" || String.eqb str "f" then JFin 0%Q
                 else if js_isNaN (parseFloat str) then JFin 0%Q
                 else js_max (JFin 0%Q) (js_min (JFin 100%Q) (parseFloat str))).
  { destruct v as [| |b|n|s0]; try congruence; try reflexivity.
    destruct s0 as [|c s0]; [congruence|reflexivity]. }
  rewrite Hm, clamp_code. unfold marks_zero_words, marks_pass_words. simpl.
  destruct (String.eqb str "pass") eqn:Ep;
    [apply String.eqb_eq in Ep; rewrite Ep; reflexivity|].
  destruct (String.eqb str "p") eqn:Ep';
    [apply String.eqb_eq in Ep'; rewrite Ep'; reflexivity|].
  destruct (String.eqb str "absent"), (String.eqb str "ab"), (String.eqb str "a"),
           (String.eqb str "fail"), (String.eqb str "f"); reflexivity.
Qed.

Lemma marksTransformer_range v : exists q, marksTransformer v = JFin q /\ (0 <= q <= 100)%Q.
Proof.
  assert (Z0 : exists q, JFin 0%Q = JFin q /\ (0 <= q <= 100)%Q)
    by (exists 0%Q; split; [reflexivity|lra]).
  assert (Hgen : v <> JUndefined -> v <> JNull -> v <> JStr "" ->
                 exists q, marksTransformer v = JFin q /\ (0 <= q <= 100)%Q).
  { intros H1 H2 H3. rewrite (marksTransformer_general v H1 H2 H3). cbv zeta.
    destruct (existsb _ marks_zero_words); [exact Z0|].
    destruct (existsb _ marks_pass_words); [exists 40%Q; split; [reflexivity|lra]|].
    apply clamp_0_100_range. }
  destruct v as [| |b|n|[|c s0]]; try exact Z0; apply Hgen; discriminate.
Qed.

(** C7 (counterexample): the one-letter word "p" gives 40, a string
    with a numeric prefix such as "85abc" gives 85 ([parseFloat] reads the
    prefix), and the number [Infinity] gives 0 ([String] gives "Infinity",
    lower-cased to "infinity", which [parseFloat] does not read), not the
    clamped 100. *)
Lemma marksTransformer_counterexample :
  marksTransformer (JStr "p") = JFin 40%Q
  /\ marksTransformer (JStr "85abc") = JFin 85%Q
  /\ marksTransformer (JNum JPosInf) = JFin 0%Q.
Proof. vm_compute. repeat split. Qed.

(** C7 (amended): the marks transformer always returns a finite number in
    [0, 100].  [null], [undefined] and [''] give 0.  Any other value is
    turned into [String(value).toLowerCase().trim()]; "absent", "ab",
    "a", "fail" and "f" give 0; "pass" and "p" give 40; anything else is
    read by [parseFloat] (the longest numeric prefix), NaN becoming 0 and
    a number being clamped into [0, 100]. *)
Theorem marksTransformer_spec :
  (forall v, exists q, marksTransformer v = JFin q /\ (0 <= q <= 100)%Q)
  /\ marksTransformer JUndefined = JFin 0%Q /\ marksTransformer JNull = JFin 0%Q
  /\ marksTransformer (JStr "") = JFin 0%Q
  /\ (forall v, v <> JUndefined -> v <> JNull -> v <> JStr "" ->
        let str := trim (toLowerCase (js_String v)) in
        (In str marks_zero_words -> marksTransformer v = JFin 0%Q)
        /\ (In str marks_pass_words -> marksTransformer v = JFin 40%Q)
        /\ (~ In str marks_zero_words -> ~ In str marks_pass_words ->
            marksTransformer v = clamp_0_100 (parseFloat str))).
Proof.
  split; [exact marksTransformer_range|]. split; [reflexivity|]. split; [reflexivity|].
  split; [reflexivity|].
  intros v H1 H2 H3 str. rewrite (marksTransformer_general v H1 H2 H3). fold str. cbv zeta.
  assert (Hin : forall l, existsb (String.eqb str) l = true <-> In str l).
  { intro l. rewrite existsb_exists. split.
    - intros [x [Hx E]]. apply String.eqb_eq in E. subst x. exact Hx.
    - intro H. exists str. split; [exact H|apply String.eqb_refl]. }
  split; [|split].
  - intro H. apply Hin in H. rewrite H. reflexivity.
  - intro H. destruct (existsb (String.eqb str) marks_zero_words) eqn:E.
    + exfalso. apply Hin in E. unfold marks_zero_words, marks_pass_words in *.
      simpl in E, H. intuition congruence.
    + apply Hin in H. rewrite H. reflexivity.
  - intros Hz Hp.
    destruct (existsb (String.eqb str) marks_zero_words) eqn:E; [apply Hin in E; contradiction|].
    destruct (existsb (String.eqb str) marks_pass_words) eqn:E'; [apply Hin in E'; contradiction|].
    reflexivity.
Qed.

(** ** validateRow *)

Lemma apply_rule_app row allRows e w r :
  apply_rule row allRows (e, w) r
  = (e ++ fst (apply_rule row allRows ([], []) r), w ++ snd (apply_rule row allRows ([], []) r)).
Proof.
  unfold apply_rule.
  destruct (rule_validator r (row_get row (rule_field r)) row allRows) as [res0|err]; simpl.
  - destruct (negb (vr_isValid res0) && js_truthy_message (vr_message res0)); simpl;
      [destruct (rule_severity r)|]; simpl; rewrite ?app_nil_r; reflexivity.
  - rewrite app_nil_r. reflexivity.
Qed.

Lemma fold_apply_rule row allRows rules e w :
  fold_left (apply_rule row allRows) rules (e, w)
  = (e ++ concat (map (fun r => fst (apply_rule row allRows ([], []) r)) rules),
     w ++ concat (map (fun r => snd (apply_rule row allRows ([], []) r)) rules)).
Proof.
  revert e w. induction rules as [|r rules IH]; intros e w; cbn [fold_left map concat].
  - rewrite !app_nil_r. reflexivity.
  - rewrite apply_rule_app, IH, <- !app_assoc. reflexivity.
Qed.

Lemma apply_rule_names row allRows r x :
  In x (fst (apply_rule row allRows ([], []) r) ++ snd (apply_rule row allRows ([], []) r)) ->
  issue_rule x = rule_name r.
Proof.
  unfold apply_rule.
  destruct (rule_validator r (row_get row (rule_field r)) row allRows) as [res0|err]; simpl.
  - destruct (negb (vr_isValid res0) && js_truthy_message (vr_message res0)); simpl;
      [destruct (rule_severity r)|]; simpl; [intros [<-|[]]; reflexivity..|intros []].
  - intros [<-|[]]. reflexivity.
Qed.

(** The only issue the marks-consistency rule can record. *)
Lemma marks_consistency_apply row allRows :
  fst (apply_rule row allRows ([], []) marks_consistency_rule) = []
  /\ (snd (apply_rule row allRows ([], []) marks_consistency_rule) = []
      \/ snd (apply_rule row allRows ([], []) marks_consistency_rule)
         = [mkIssue "marks" "marks_consistency" "Student has no valid marks in any subject"]).
Proof.
  unfold apply_rule, marks_consistency_rule.
  cbn [rule_validator rule_field rule_name rule_severity].
  unfold marks_consistency_validator. cbv zeta.
  destruct (filter _ _) as [|m ms]; [simpl; auto|].
  repeat match goal with |- context [if js_lt ?a ?b then _ else _] => destruct (js_lt a b) end;
    simpl; auto.
Qed.

Lemma In_concat_map {A B : Type} (f : A -> list B) l x :
  In x (concat (map f l)) -> exists a, In a l /\ In x (f a).
Proof.
  intro H. apply in_concat in H as [l' [Hl' Hx]].
  apply in_map_iff in Hl' as [a [<- Ha]]. exists a. split; assumption.
Qed.

Lemma DEFAULT_RULES_marks_consistency r :
  In r DEFAULT_RULES -> rule_name r = "marks_consistency" -> r = marks_consistency_rule.
Proof.
  simpl. intros Hr Hn.
  repeat (destruct Hr as [<-|Hr]; [try discriminate Hn; reflexivity|]). destruct Hr.
Qed.

(** C4 (code bug): with the default rules, [validateRow] never records
    the low-average or high-average warning of [marks_consistency]: the
    validator returns them with [isValid: true], and [validateRow] only
    records a result when [!result.isValid && result.message].  The only
    marks-consistency issue a row can receive is the "no valid marks"
    warning, and the rule never adds an error.  The row of "Alice Smith"
    with the single mark 5 (average 5 < 10) gets no warning at all and is
    valid. *)
Theorem marks_consistency_warning_dropped row i allRows :
  let rv := validateRow row i DEFAULT_RULES allRows in
  (forall x, In x (rv_warnings rv) -> issue_rule x = "marks_consistency" ->
             issue_message x = "Student has no valid marks in any subject")
  /\ (forall x, In x (rv_errors rv) -> issue_rule x <> "marks_consistency")
  /\ (let row0 := sample_row "Alice Smith" "1" [("math", 5%Q)] in
      let rv0 := validateRow row0 0 DEFAULT_RULES [row0] in
      rv_warnings rv0 = [] /\ rv_isValid rv0 = true).
Proof.
  intros rv. unfold rv, validateRow. rewrite fold_apply_rule. cbv iota beta.
  cbn [rv_warnings rv_errors app].
  split; [|split].
  - intros x Hx Hn. apply In_concat_map in Hx as [r [Hr Hx]].
    assert (Hname := apply_rule_names row allRows r x (in_or_app _ _ _ (or_intror Hx))).
    rewrite Hn in Hname. symmetry in Hname.
    rewrite (DEFAULT_RULES_marks_consistency r Hr Hname) in Hx.
    destruct (marks_consistency_apply row allRows) as [_ [E|E]]; rewrite E in Hx;
      [destruct Hx|destruct Hx as [<-|[]]; reflexivity].
  - intros x Hx Hn. apply In_concat_map in Hx as [r [Hr Hx]].
    assert (Hname := apply_rule_names row allRows r x (in_or_app _ _ _ (or_introl Hx))).
    rewrite Hn in Hname. symmetry in Hname.
    rewrite (DEFAULT_RULES_marks_consistency r Hr Hname) in Hx.
    destruct (marks_consistency_apply row allRows) as [E _]. rewrite E in Hx. destruct Hx.
  - vm_compute. split; reflexivity.
Qed.

(** ** Duplicate analysis *)

Lemma insert_index_perm {A : Type} (x : string * A) l : Permutation (insert_index x l) (x :: l).
Proof.
  induction l as [|y l IH]; simpl; [reflexivity|].
  destruct (index_value (fst x) <? index_value (fst y))%Z; [reflexivity|].
  rewrite IH. apply perm_swap.
Qed.

Lemma filter_split_perm {A : Type} (f : A -> bool) l :
  Permutation (filter f l ++ filter (fun x => negb (f x)) l) l.
Proof.
  induction l as [|x l IH]; simpl; [reflexivity|].
  destruct (f x); simpl.
  - constructor. exact IH.
  - rewrite <- Permutation_middle. constructor. exact IH.
Qed.

Lemma js_entries_perm {A : Type} (m : list (string * A)) : Permutation (js_entries m) m.
Proof.
  unfold js_entries.
  assert (H : forall l : list (string * A), Permutation (fold_right insert_index [] l) l).
  { induction l as [|x l IH]; simpl; [reflexivity|]. rewrite insert_index_perm, IH. reflexivity. }
  rewrite H. apply filter_split_perm.
Qed.

Lemma map_get_In {A : Type} k (v : A) m : map_get k m = Some v -> In (k, v) m.
Proof.
  induction m as [|[k' v'] m IH]; simpl; [discriminate|].
  destruct (String.eqb k k') eqn:E.
  - intro H. injection H as <-. apply String.eqb_eq in E. subst k'. left. reflexivity.
  - intro H. right. apply IH, H.
Qed.

Lemma In_map_set_inv {A : Type} k (v : A) k0 v0 m :
  In (k, v) (map_set k0 v0 m) -> In (k, v) m \/ (k = k0 /\ v = v0).
Proof.
  induction m as [|[k' v'] m IH]; simpl; intro H.
  - destruct H as [H|[]]. injection H as <- <-. right. split; reflexivity.
  - destruct (String.eqb k0 k') eqn:E; simpl in H.
    + apply String.eqb_eq in E. subst k'.
      destruct H as [H|H]; [injection H as <- <-; right; split; reflexivity|left; right; exact H].
    + destruct H as [H|H]; [left; left; exact H|].
      destruct (IH H) as [H'|H']; [left; right; exact H'|right; exact H'].
Qed.

Lemma two_distinct_length {A : Type} (l : list A) x y :
  x <> y -> In x l -> In y l -> 1 < length l.
Proof.
  intros Hne Hx Hy. destruct l as [|a [|b l]]; simpl in *.
  - destruct Hx.
  - destruct Hx as [<-|[]]. destruct Hy as [<-|[]]. congruence.
  - lia.
Qed.

Lemma NoDup_length_gt1 {A : Type} (l : list A) :
  NoDup l -> 1 < length l -> exists x y, x <> y /\ In x l /\ In y l.
Proof.
  intros Hnd Hl. destruct l as [|x [|y l]]; simpl in Hl; try lia.
  apply NoDup_cons_iff in Hnd as [Hn _].
  exists x, y. split; [intros <-; apply Hn; left; reflexivity|].
  split; [left; reflexivity|right; left; reflexivity].
Qed.

Lemma track_step f P m n r m' :
  ~ In n (map fst P) -> dup_inv f P m ->
  (if js_truthy (row_field r f) then track (normalize_key (row_field r f)) n m else Ok m)
  = Ok m' ->
  dup_inv f (P ++ [(n, r)]) m'.
Proof.
  intros Hn [H1 H2] Ht.
  assert (Hold : forall k l, In (k, l) m -> forall i, In i l ->
            exists r', In (i, r') (P ++ [(n, r)]) /\ js_truthy (row_field r' f) = true
                       /\ normalize_key (row_field r' f) = k).
  { intros k l Hin i Hi. destruct (proj2 (H2 k l Hin) i Hi) as [r' [Hr' Hrest]].
    exists r'. split; [apply in_or_app; left; exact Hr'|exact Hrest]. }
  destruct (js_truthy (row_field r f)) eqn:Tr.
  - unfold track in Ht. destruct (is_proto_key _); [discriminate|]. injection Ht as <-.
    set (key := normalize_key (row_field r f)).
    set (old := match map_get key m with Some l => l | None => [] end).
    assert (Hnold : ~ In n old /\ NoDup old).
    { unfold old. destruct (map_get key m) as [l0|] eqn:Eg; [|split; [intros []|constructor]].
      apply map_get_In in Eg. destruct (H2 _ _ Eg) as [Hnd Hl]. split; [|exact Hnd].
      intro Hin. destruct (Hl n Hin) as [r' [Hr' _]]. apply Hn, in_map_iff.
      exists (n, r'). split; [reflexivity|exact Hr']. }
    split.
    + intros i r' Hin Htr. apply in_app_or in Hin as [Hin|[E|[]]].
      * destruct (H1 i r' Hin Htr) as [l [Hg Hi]].
        destruct (string_dec (normalize_key (row_field r' f)) key) as [Ek|Ek].
        -- rewrite Ek, map_get_set_same. exists (old ++ [n]). split; [reflexivity|].
           apply in_or_app. left. unfold old. rewrite <- Ek, Hg. exact Hi.
        -- rewrite map_get_set_other by exact Ek. exists l. split; assumption.
      * injection E as <- <-. exists (old ++ [n]). split; [apply map_get_set_same|].
        apply in_or_app. right. left. reflexivity.
    + intros k l Hin. apply In_map_set_inv in Hin as [Hin|[-> ->]].
      * split; [apply (H2 k l Hin)|apply (Hold k l Hin)].
      * split.
        -- apply (Permutation_NoDup (Permutation_cons_append old n)).
           constructor; apply Hnold.
        -- intros i Hi. apply in_app_or in Hi as [Hi|[<-|[]]].
           ++ unfold old in Hi. destruct (map_get key m) as [l0|] eqn:Eg; [|destruct Hi].
              apply map_get_In in Eg. apply (Hold _ _ Eg i Hi).
           ++ exists r. split; [apply in_or_app; right; left; reflexivity|].
              split; [exact Tr|reflexivity].
  - injection Ht as <-. split.
    + intros i r' Hin Htr. apply in_app_or in Hin as [Hin|[E|[]]]; [apply H1; assumption|].
      injection E as <- <-. congruence.
    + intros k l Hin. split; [apply (H2 k l Hin)|apply (Hold k l Hin)].
Qed.

Lemma foldM_track_row_inv l P m1 m2 m1' m2' :
  NoDup (map fst (P ++ l)) -> dup_inv "rollNumber" P m1 -> dup_inv "studentName" P m2 ->
  foldM track_row (m1, m2) l = Ok (m1', m2') ->
  dup_inv "rollNumber" (P ++ l) m1' /\ dup_inv "studentName" (P ++ l) m2'.
Proof.
  revert P m1 m2. induction l as [|[n r] l IH]; intros P m1 m2 Hnd H1 H2 Hf.
  - simpl in Hf. injection Hf as <- <-. rewrite app_nil_r. split; assumption.
  - cbn [foldM] in Hf. unfold track_row in Hf.
    destruct (if js_truthy (row_field r "rollNumber")
              then track (normalize_key (row_field r "rollNumber")) n m1 else Ok m1)
      as [a|e] eqn:Ea; [|discriminate]. simpl in Hf.
    destruct (if js_truthy (row_field r "studentName")
              then track (normalize_key (row_field r "studentName")) n m2 else Ok m2)
      as [b|e] eqn:Eb; [|discriminate]. simpl in Hf.
    assert (Hn : ~ In n (map fst P)).
    { rewrite map_app in Hnd. simpl in Hnd. apply NoDup_remove_2 in Hnd.
      intro H. apply Hnd, in_or_app. left. exact H. }
    replace (P ++ (n, r) :: l) with ((P ++ [(n, r)]) ++ l) in *
      by (rewrite <- app_assoc; reflexivity).
    apply (IH (P ++ [(n, r)]) a b Hnd); [| |exact Hf].
    + apply (track_step _ P m1 n r a Hn H1 Ea).
    + apply (track_step _ P m2 n r b Hn H2 Eb).
Qed.

Lemma analyzeDuplicates_inv rows d :
  analyzeDuplicates rows = Ok d ->
  exists m1 m2, duplicateRollNumbers d = duplicates_of m1 /\ duplicateNames d = duplicates_of m2
                /\ dup_inv "rollNumber" (indexed rows) m1 /\ dup_inv "studentName" (indexed rows) m2.
Proof.
  unfold analyzeDuplicates.
  destruct (foldM track_row ([], []) (indexed rows)) as [[m1 m2]|e] eqn:E; [|discriminate].
  simpl. intro H. injection H as <-. exists m1, m2. split; [reflexivity|]. split; [reflexivity|].
  assert (Hempty : forall f, dup_inv f [] []).
  { intro f. split; [intros i r []|intros k l []]. }
  apply (foldM_track_row_inv (indexed rows) [] [] [] m1 m2); [|apply Hempty|apply Hempty|exact E].
  simpl. rewrite map_fst_indexed. apply seq_NoDup.
Qed.

Lemma dup_shared f P m i j ri rj :
  dup_inv f P m -> i <> j -> In (i, ri) P -> In (j, rj) P ->
  js_truthy (row_field ri f) = true -> js_truthy (row_field rj f) = true ->
  normalize_key (row_field ri f) = normalize_key (row_field rj f) ->
  In (normalize_key (row_field ri f)) (map fst (duplicates_of m)).
Proof.
  intros [H1 _] Hij Hi Hj Ti Tj Ek.
  destruct (H1 i ri Hi Ti) as [l [Hg Hil]]. destruct (H1 j rj Hj Tj) as [l' [Hg' Hjl]].
  rewrite <- Ek, Hg in Hg'. injection Hg' as <-.
  apply in_map_iff. exists (normalize_key (row_field ri f), l). split; [reflexivity|].
  unfold duplicates_of. apply filter_In. split.
  - apply (Permutation_in _ (Permutation_sym (js_entries_perm m))). apply map_get_In, Hg.
  - apply Nat.ltb_lt. apply (two_distinct_length l i j Hij Hil Hjl).
Qed.

Lemma dup_none f P m :
  dup_inv f P m ->
  (forall i j ri rj, i <> j -> In (i, ri) P -> In (j, rj) P ->
     js_truthy (row_field ri f) = true -> js_truthy (row_field rj f) = true ->
     normalize_key (row_field ri f) <> normalize_key (row_field rj f)) ->
  duplicates_of m = [].
Proof.
  intros [_ H2] Hno. destruct (duplicates_of m) as [|[k l] ds] eqn:E; [reflexivity|exfalso].
  assert (Hin : In (k, l) (duplicates_of m)) by (rewrite E; left; reflexivity).
  unfold duplicates_of in Hin. apply filter_In in Hin as [Hin Hlen]. simpl in Hlen.
  apply Nat.ltb_lt in Hlen. apply (Permutation_in _ (js_entries_perm m)) in Hin.
  destruct (H2 k l Hin) as [Hnd Hl].
  destruct (NoDup_length_gt1 l Hnd Hlen) as [x [y [Hxy [Hx Hy]]]].
  destruct (Hl x Hx) as [rx [Hrx [Tx Ex]]]. destruct (Hl y Hy) as [ry [Hry [Ty Ey]]].
  apply (Hno x y rx ry Hxy Hrx Hry Tx Ty). congruence.
Qed.

(** C5: for a batch that [validateData] validates (returns without
    throwing), with any custom rules:
    - two different rows whose truthy roll numbers agree after
      [String(_).trim().toLowerCase()] give exactly one global error,
      "Found duplicate roll numbers: " followed by the list of duplicated
      (normalized) roll numbers, which contains theirs;
    - when no two rows share a roll number that way, there is no global
      error, and two rows sharing a name that way give exactly one global
      warning listing that (normalized) name;
    - [isValid] holds iff there is no global error and no invalid row. *)
Theorem validateData_duplicates rows customRules d :
  validateData rows customRules = Ok d ->
  (forall i j ri rj, i <> j -> nth_error rows i = Some ri -> nth_error rows j = Some rj ->
     js_truthy (row_field ri "rollNumber") = true -> js_truthy (row_field rj "rollNumber") = true ->
     normalize_key (row_field ri "rollNumber") = normalize_key (row_field rj "rollNumber") ->
     exists ks, dv_globalErrors d = [("Found duplicate roll numbers: " ++ join ", " ks)%string]
                /\ In (normalize_key (row_field ri "rollNumber")) ks)
  /\ ((forall i j ri rj, i <> j -> nth_error rows i = Some ri -> nth_error rows j = Some rj ->
        js_truthy (row_field ri "rollNumber") = true ->
        js_truthy (row_field rj "rollNumber") = true ->
        normalize_key (row_field ri "rollNumber") <> normalize_key (row_field rj "rollNumber")) ->
      dv_globalErrors d = []
      /\ forall i j ri rj, i <> j -> nth_error rows i = Some ri -> nth_error rows j = Some rj ->
           js_truthy (row_field ri "studentName") = true ->
           js_truthy (row_field rj "studentName") = true ->
           normalize_key (row_field ri "studentName") = normalize_key (row_field rj "studentName") ->
           exists ks, dv_globalWarnings d = [("Found duplicate names: " ++ join ", " ks)%string]
                      /\ In (normalize_key (row_field ri "studentName")) ks)
  /\ (dv_isValid d = true <-> dv_globalErrors d = [] /\ invalidRows (dv_summary d) = 0).
Proof.
  unfold validateData, validateTransformed.
  destruct (analyzeDuplicates rows) as [da|e] eqn:Ed; [|discriminate]. simpl.
  intro H. injection H as <-. simpl.
  destruct (analyzeDuplicates_inv rows da Ed) as (m1 & m2 & Hd1 & Hd2 & I1 & I2).
  rewrite Hd1, Hd2.
  split; [|split].
  - intros i j ri rj Hij Hi Hj Ti Tj Ek.
    apply In_indexed in Hi, Hj.
    pose proof (dup_shared _ _ _ i j ri rj I1 Hij Hi Hj Ti Tj Ek) as Hk.
    destruct (duplicates_of m1) as [|e ds]; [destruct Hk|].
    exists (map fst (e :: ds)). split; [reflexivity|exact Hk].
  - intros Hno.
    rewrite (dup_none _ _ _ I1).
    2:{ intros i j ri rj Hij Hi Hj. apply In_indexed in Hi, Hj. apply (Hno i j ri rj Hij Hi Hj). }
    split; [reflexivity|].
    intros i j ri rj Hij Hi Hj Ti Tj Ek.
    apply In_indexed in Hi, Hj.
    pose proof (dup_shared _ _ _ i j ri rj I2 Hij Hi Hj Ti Tj Ek) as Hk.
    destruct (duplicates_of m2) as [|e ds]; [destruct Hk|].
    exists (map fst (e :: ds)). split; [reflexivity|exact Hk].
  - rewrite andb_true_iff, !Nat.eqb_eq, length_zero_iff_nil. reflexivity.
Qed.

Lemma validateData_duplicates_witness :
  let rows := [sample_row "Alice Smith" "A1" [("math", 50%Q)];
               sample_row "Bob Jones" "a1 " [("math", 60%Q)]] in
  exists d, validateData rows [] = Ok d
  /\ dv_globalErrors d = ["Found duplicate roll numbers: a1"]
  /\ ((forall i j ri rj, i <> j -> nth_error rows i = Some ri -> nth_error rows j = Some rj ->
        js_truthy (row_field ri "rollNumber") = true ->
        js_truthy (row_field rj "rollNumber") = true ->
        normalize_key (row_field ri "rollNumber") = normalize_key (row_field rj "rollNumber") ->
        exists ks, dv_globalErrors d = [("Found duplicate roll numbers: " ++ join ", " ks)%string]
                   /\ In (normalize_key (row_field ri "rollNumber")) ks)
      /\ ((forall i j ri rj, i <> j -> nth_error rows i = Some ri -> nth_error rows j = Some rj ->
            js_truthy (row_field ri "rollNumber") = true ->
            js_truthy (row_field rj "rollNumber") = true ->
            normalize_key (row_field ri "rollNumber") <> normalize_key (row_field rj "rollNumber")) ->
          dv_globalErrors d = []
          /\ forall i j ri rj, i <> j -> nth_error rows i = Some ri -> nth_error rows j = Some rj ->
               js_truthy (row_field ri "studentName") = true ->
               js_truthy (row_field rj "studentName") = true ->
               normalize_key (row_field ri "studentName")
               = normalize_key (row_field rj "studentName") ->
               exists ks, dv_globalWarnings d = [("Found duplicate names: " ++ join ", " ks)%string]
                          /\ In (normalize_key (row_field ri "studentName")) ks)
      /\ (dv_isValid d = true <-> dv_globalErrors d = [] /\ invalidRows (dv_summary d) = 0)).
Proof.
  intro rows.
  destruct (validateData rows []) as [d|e] eqn:E; [|vm_compute in E; discriminate E].
  exists d. split; [reflexivity|]. split.
  - vm_compute in E. injection E as <-. reflexivity.
  - apply (validateData_duplicates rows [] d E).
Defined.

(* ================================================================== *)
(** * Further properties *)

Lemma js_le_fin a b : js_le (JFin a) (JFin b) = Qle_bool a b.
Proof. unfold js_le, js_lt, Qltb. simpl. apply negb_involutive. Qed.

Lemma Qle_bool_false a b : Qle_bool a b = false -> (b < a)%Q.
Proof.
  intro H. destruct (Qlt_le_dec b a) as [Hl|Hl]; [exact Hl|].
  apply Qle_bool_iff in Hl. congruence.
Qed.

Ltac qle_cases :=
  repeat match goal with
  | |- context [Qle_bool ?a ?b] =>
      let E := fresh "E" in
      destruct (Qle_bool a b) eqn:E;
      [apply Qle_bool_iff in E|apply Qle_bool_false in E]
  end.

Lemma Percentage_getLetterGrade_q p :
  Percentage_getLetterGrade p =
  (let x := pct_value p in
   if Qle_bool 90 x then "A+" else if Qle_bool 80 x then "A" else if Qle_bool 70 x then "B"
   else if Qle_bool 60 x then "C" else if Qle_bool 50 x then "D" else if Qle_bool 40 x then "E"
   else "F").
Proof. unfold Percentage_getLetterGrade. rewrite !js_le_fin. reflexivity. Qed.

(** X1: a higher percentage never gets a lower letter grade: [getLetterGrade] is monotone in the value. *)
Theorem Percentage_getLetterGrade_monotone p p' :
  (pct_value p <= pct_value p')%Q ->
  grade_rank (Percentage_getLetterGrade p) <= grade_rank (Percentage_getLetterGrade p').
Proof.
  intro H. rewrite !Percentage_getLetterGrade_q. cbv zeta.
  qle_cases; unfold grade_rank; simpl; first [lia | exfalso; lra].
Qed.

(** X2: for every Percentage, [isPassing(40)] holds exactly when the letter grade is not F and exactly when the performance category is not Poor, and the category is Excellent exactly when the grade is A+. *)
Theorem Percentage_classifications_agree p :
  Percentage_isPassing p (JFin 40%Q) = negb (String.eqb (Percentage_getLetterGrade p) "F")
  /\ Percentage_isPassing p (JFin 40%Q)
     = negb (String.eqb (Percentage_getPerformanceCategory p) "Poor")
  /\ String.eqb (Percentage_getPerformanceCategory p) "Excellent"
     = String.eqb (Percentage_getLetterGrade p) "A+".
Proof.
  unfold Percentage_isPassing, Percentage_getPerformanceCategory.
  rewrite Percentage_getLetterGrade_q. rewrite !js_le_fin. cbv zeta.
  qle_cases; (split; [|split]); simpl; first [reflexivity | exfalso; lra].
Qed.


Lemma newMarks_subject_range v m :
  newMarks v false = Ok m -> exists q, v = JFin q /\ m = mkMarksRec (JFin q) /\ (0 <= q <= 100)%Q.
Proof.
  destruct v as [| | |q]; simpl; try discriminate.
  destruct (Qltb q 0) eqn:E1; [discriminate|].
  destruct (Qltb 100 q) eqn:E2; simpl; [discriminate|].
  intro H. injection H as <-. exists q. qbool. repeat split; lra.
Qed.



Lemma newMarks_ok_nonneg v t m :
  newMarks v t = Ok m -> m = mkMarksRec v /\ (v = JPosInf \/ exists q, v = JFin q /\ (0 <= q)%Q).
Proof.
  destruct v as [| | |q]; simpl; try discriminate.
  - destruct t; [|discriminate]. intro H. injection H as <-. split; [reflexivity|left; reflexivity].
  - destruct (Qltb q 0) eqn:E1; [discriminate|].
    destruct (negb t && Qltb 100 q); [discriminate|].
    intro H. injection H as <-. split; [reflexivity|right; exists q; qbool; split; [reflexivity|lra]].
Qed.

(** X5: adding two Marks that were built without error never fails (the sum is a total, allowed above 100), and the result holds the sum of the two values. *)
Theorem Marks_add_total a b t1 t2 m1 m2 :
  newMarks a t1 = Ok m1 -> newMarks b t2 = Ok m2 ->
  Marks_add m1 m2 = Ok (mkMarksRec (js_add a b)).
Proof.
  intros H1 H2.
  apply newMarks_ok_nonneg in H1 as [-> Ha]. apply newMarks_ok_nonneg in H2 as [-> Hb].
  unfold Marks_add. simpl.
  destruct Ha as [->|[x [-> Hx]]]; destruct Hb as [->|[y [-> Hy]]]; simpl; try reflexivity.
  qfix. reflexivity.
Qed.

(** X6: every Marks that [Marks.fromString] returns holds a finite value between 0 and 100. *)
Theorem Marks_fromString_range s m :
  Marks_fromString s = Ok m -> exists q, marks_value m = JFin q /\ (0 <= q <= 100)%Q.
Proof.
  unfold Marks_fromString. intro H.
  assert (Hg : forall v, newMarks v false = Ok m -> exists q, marks_value m = JFin q /\ (0 <= q <= 100)%Q).
  { intros v Hv. apply newMarks_subject_range in Hv as [q [_ [-> Hq]]]. exists q. split; [reflexivity|exact Hq]. }
  destruct (_ || _ || _); [exact (Hg _ H)|].
  destruct (js_isNaN _); [discriminate|exact (Hg _ H)].
Qed.

Lemma Marks_fromString_range_witness :
  Marks_fromString " 85.5 " = Ok (mkMarksRec (JFin (855 # 10)))
  /\ exists q, marks_value (mkMarksRec (JFin (855 # 10))) = JFin q /\ (0 <= q <= 100)%Q.
Proof.
  assert (H : Marks_fromString " 85.5 " = Ok (mkMarksRec (JFin (855 # 10)))) by (vm_compute; reflexivity).
  split; [exact H|exact (Marks_fromString_range _ _ H)].
Defined.

(** ** Strings *)











Lemma length_list_ascii_of_string s : length (list_ascii_of_string s) = String.length s.
Proof. induction s as [|c s IH]; simpl; [reflexivity|]. rewrite IH. reflexivity. Qed.




















Lemma trim_empty : trim "" = "".
Proof. reflexivity. Qed.

(** X9: for string fields, [Student.canCreateFrom] holds exactly when the trimmed name has at least 2 characters and the trimmed roll number is non-empty. *)
Theorem Student_canCreateFrom_iff name rollNumber className section :
  Student_canCreateFrom name rollNumber className section
  = Nat.leb 2 (slength (trim name)) && Nat.ltb 0 (slength (trim rollNumber)).
Proof.
  unfold Student_canCreateFrom, Student_fromRawData.
  destruct (String.eqb name "") eqn:E1.
  { apply String.eqb_eq in E1. subst name. reflexivity. }
  destruct (String.eqb rollNumber "") eqn:E2.
  { apply String.eqb_eq in E2. subst rollNumber. rewrite trim_empty. simpl.
    rewrite andb_false_r. reflexivity. }
  unfold newStudent.
  destruct (slength (trim name)) as [|[|k]]; simpl; try reflexivity.
  destruct (slength (trim rollNumber)); reflexivity.
Qed.

(** X10: [Subject.isValidName] holds exactly when the trimmed name is non-empty. *)
Theorem Subject_isValidName_iff name :
  Subject_isValidName name = negb (Nat.eqb (slength (trim name)) 0).
Proof.
  unfold Subject_isValidName, newSubjectDefault, newSubject.
  destruct (Nat.eqb (slength (trim name)) 0); reflexivity.
Qed.

(** ** getStudentsByRank, getTopStudents *)

Lemma getStudentResults_calculateRanks r :
  getStudentResults (calculateRanks r)
  = map (fun sr => with_rank sr (S (count_gt (sr_pct sr) (getStudentResults r))))
        (getStudentResults r).
Proof.
  unfold getStudentResults at 1. rewrite calculateRanks_entries, map_map.
  unfold getStudentResults. rewrite map_map. reflexivity.
Qed.

Lemma rank_or_zero_nat sr : rank_or_zero sr = jsnat (rank_nat sr).
Proof. unfold rank_or_zero, rank_nat. destruct (sr_rank sr); reflexivity. Qed.

Lemma js_lt_jsnat m n : js_lt (jsnat m) (jsnat n) = Nat.ltb m n.
Proof.
  unfold jsnat. simpl. apply Bool.eq_true_iff_eq. rewrite Qltb_iff, Nat.ltb_lt.
  unfold Qlt. simpl. lia.
Qed.

Lemma rank_cmp_asym (a b : StudentResult) :
  js_lt (js_sub (rank_or_zero a) (rank_or_zero b)) (JFin 0%Q) = true ->
  js_lt (js_sub (rank_or_zero b) (rank_or_zero a)) (JFin 0%Q) = false.
Proof. rewrite !js_lt_sub_zero. apply js_lt_asym. Qed.

Lemma getStudentsByRank_sorted r :
  Sorted (fun a b => rank_nat a <= rank_nat b) (getStudentsByRank r).
Proof.
  eapply Sorted_weaken; [|apply (sort_by_sorted _ rank_cmp_asym)].
  intros a b H. simpl in H. rewrite js_lt_sub_zero, !rank_or_zero_nat, js_lt_jsnat in H.
  apply Nat.ltb_ge in H. exact H.
Qed.

Lemma filter_has_rank_calculateRanks r :
  filter has_rank (getStudentResults (calculateRanks r)) = getStudentResults (calculateRanks r).
Proof.
  rewrite getStudentResults_calculateRanks. apply forallb_filter_id.
  apply forallb_forall. intros x Hx. apply in_map_iff in Hx as [y [<- _]]. reflexivity.
Qed.

Lemma getStudentsByRank_perm r :
  Permutation (getStudentsByRank (calculateRanks r)) (getStudentResults (calculateRanks r)).
Proof.
  unfold getStudentsByRank. rewrite filter_has_rank_calculateRanks. apply sort_by_perm.
Qed.

(** X11: after [calculateRanks], [getStudentsByRank] returns every student result once, each with a rank, in non-decreasing rank order. *)
Theorem getStudentsByRank_calculateRanks r :
  let l := getStudentsByRank (calculateRanks r) in
  Permutation l (getStudentResults (calculateRanks r))
  /\ Forall (fun sr => sr_rank sr <> None) l
  /\ Sorted (fun a b => rank_nat a <= rank_nat b) l.
Proof.
  intro l. split; [apply getStudentsByRank_perm|]. split; [|apply getStudentsByRank_sorted].
  apply Forall_forall. intros x Hx.
  apply (Permutation_in _ (getStudentsByRank_perm r)) in Hx.
  rewrite getStudentResults_calculateRanks in Hx.
  apply in_map_iff in Hx as [y [<- _]]. discriminate.
Qed.

Lemma exists_max_pct (l : list StudentResult) :
  l <> [] -> exists y, In y l /\ forall z, In z l -> (sr_pct z <= sr_pct y)%Q.
Proof.
  induction l as [|x l IH]; intros Hne; [contradiction|].
  destruct l as [|x' l'].
  - exists x. split; [left; reflexivity|]. intros z [<-|[]]. lra.
  - destruct IH as [y [Hy Hmax]]; [discriminate|].
    destruct (Qlt_le_dec (sr_pct y) (sr_pct x)) as [Hl|Hl].
    + exists x. split; [left; reflexivity|]. intros z [<-|Hz]; [lra|].
      specialize (Hmax z Hz). lra.
    + exists y. split; [right; exact Hy|]. intros z [<-|Hz]; [exact Hl|exact (Hmax z Hz)].
Qed.

Lemma length_getStudentsByRank_calculateRanks r :
  length (getStudentsByRank (calculateRanks r)) = getStudentCount r.
Proof.
  rewrite (Permutation_length (getStudentsByRank_perm r)).
  rewrite getStudentResults_calculateRanks, length_map. unfold getStudentResults.
  rewrite length_map. reflexivity.
Qed.

(** X12: after [calculateRanks], [getTopStudents(count)] with count >= 0 returns the first min(count, student count) results of [getStudentsByRank], and for count > 0 and a non-empty result the first one has rank 1. *)
Theorem getTopStudents_calculateRanks r count :
  (0 <= count)%Z ->
  let top := getTopStudents (calculateRanks r) count in
  length top = Nat.min (Z.to_nat count) (getStudentCount r)
  /\ (exists rest, top ++ rest = getStudentsByRank (calculateRanks r))
  /\ ((0 < count)%Z -> getStudentResults r <> [] ->
      exists sr rest, top = sr :: rest /\ sr_rank sr = Some 1).
Proof.
  intros Hc top.
  assert (Hs : slice_end (length (getStudentsByRank (calculateRanks r))) count
               = Nat.min (Z.to_nat count) (getStudentCount r)).
  { unfold slice_end. rewrite length_getStudentsByRank_calculateRanks.
    destruct (Z.ltb_spec count 0); [lia|]. lia. }
  unfold top, getTopStudents. cbv zeta. rewrite Hs.
  split; [|split].
  - rewrite length_firstn, length_getStudentsByRank_calculateRanks. lia.
  - exists (skipn (Nat.min (Z.to_nat count) (getStudentCount r)) (getStudentsByRank (calculateRanks r))).
    apply firstn_skipn.
  - intros Hpos Hne.
    destruct (exists_max_pct _ Hne) as [y [Hy Hmax]].
    assert (Hy1 : In (with_rank y 1) (getStudentsByRank (calculateRanks r))).
    { apply (Permutation_in _ (Permutation_sym (getStudentsByRank_perm r))).
      rewrite getStudentResults_calculateRanks. apply in_map_iff. exists y. split; [|exact Hy].
      rewrite count_gt_zero by exact Hmax. reflexivity. }
    destruct (getStudentsByRank (calculateRanks r)) as [|x l] eqn:E; [destruct Hy1|].
    assert (Hcnt : 0 < getStudentCount r).
    { unfold getStudentCount. unfold getStudentResults in Hne.
      destruct (res_studentResults r); [exfalso; apply Hne; reflexivity|simpl; lia]. }
    destruct (Nat.min (Z.to_nat count) (getStudentCount r)) as [|k] eqn:Em; [lia|].
    exists x, (firstn k l). split; [reflexivity|].
    pose proof (getStudentsByRank_sorted (calculateRanks r)) as Hsort. rewrite E in Hsort.
    apply Sorted_StronglySorted in Hsort; [|intros a b c; lia].
    assert (Hx : In x (getStudentResults (calculateRanks r))).
    { apply (Permutation_in _ (getStudentsByRank_perm r)). rewrite E. left. reflexivity. }
    rewrite getStudentResults_calculateRanks in Hx. apply in_map_iff in Hx as [x0 [<- _]].
    simpl. f_equal.
    destruct Hy1 as [Hy1|Hy1].
    + apply (f_equal sr_rank) in Hy1. simpl in Hy1. injection Hy1 as Hy1. rewrite Hy1. reflexivity.
    + apply StronglySorted_inv in Hsort as [_ Hall].
      rewrite Forall_forall in Hall. specialize (Hall _ Hy1). unfold rank_nat in Hall.
      simpl in Hall. lia.
Qed.

(** ** ResultCalculator *)

Lemma jsnat_pos_div b n :
  0 < n -> js_div (JFin b) (jsnat n) = JFin (b / inject_Z (Z.of_nat n))%Q.
Proof.
  intro Hn. unfold jsnat, js_div.
  rewrite Qeq_bool_neq_false; [reflexivity|].
  unfold Qeq. simpl. lia.
Qed.

Lemma inject_nat_pos n : 0 < n -> (0 < inject_Z (Z.of_nat n))%Q.
Proof. intro Hn. unfold Qlt. simpl. lia. Qed.

Lemma fold_js_add_bounded {A : Type} (f : A -> jsnum) (l : list A) a :
  (forall x, In x l -> exists q, f x = JFin q /\ (0 <= q <= 100)%Q) ->
  exists b, fold_left (fun s x => js_add s (f x)) l (JFin a) = JFin b
            /\ (a <= b <= a + 100 * inject_Z (Z.of_nat (length l)))%Q.
Proof.
  revert a. induction l as [|x l IH]; intros a Hf; cbn [fold_left length].
  - exists a. split; [reflexivity|]. unfold inject_Z. simpl. lra.
  - destruct (Hf x (or_introl eq_refl)) as [q [Eq Hq]]. rewrite Eq. cbn [js_add].
    destruct (IH (a + q)%Q) as [b [Eb Hb]]; [intros y Hy; apply Hf; right; exact Hy|].
    exists b. split; [exact Eb|].
    rewrite Nat2Z.inj_succ, <- Z.add_1_r, inject_Z_plus. unfold inject_Z at 2. lra.
Qed.

(** X13: [calculateClassAveragePercentage] does not throw when every percentage lies in [0, 100] (the empty result included). *)
Theorem calculateClassAveragePercentage_ok r :
  (forall sr, In sr (getStudentResults r) -> (0 <= sr_pct sr <= 100)%Q) ->
  exists p, calculateClassAveragePercentage r = Ok p.
Proof.
  intro H. unfold calculateClassAveragePercentage.
  destruct (getStudentResults r) as [|x l] eqn:E.
  - exists (mkPercentageRec 0). reflexivity.
  - destruct (fold_js_add_bounded (fun sr => JFin (sr_pct sr)) (x :: l) 0%Q) as [b [Eb Hb]].
    { intros y Hy. exists (sr_pct y). split; [reflexivity|exact (H y Hy)]. }
    cbv zeta. rewrite Eb, jsnat_pos_div by (simpl; lia).
    set (n := inject_Z (Z.of_nat (length (x :: l)))) in *.
    assert (Hn : (0 < n)%Q) by (apply inject_nat_pos; simpl; lia).
    assert (H1 : (0 <= b / n)%Q) by (apply Qle_shift_div_l; [exact Hn|lra]).
    assert (H2 : (b / n <= 100)%Q) by (apply Qle_shift_div_r; [exact Hn|lra]).
    exists (mkPercentageRec (b / n)). simpl. qfix. reflexivity.
Qed.

(** X14: when every present mark of the subject lies in [0, 100], [calculateSubjectAverage] is a finite number in [0, 100] (absent marks count as 0; no students gives 0). *)
Theorem calculateSubjectAverage_range r subjectName :
  (forall sr m, In sr (getStudentResults r) -> map_get subjectName (sr_marks sr) = Some m ->
     exists q, marks_value m = JFin q /\ (0 <= q <= 100)%Q) ->
  exists q, calculateSubjectAverage r subjectName = JFin q /\ (0 <= q <= 100)%Q.
Proof.
  intro H. unfold calculateSubjectAverage.
  destruct (getStudentResults r) as [|x l] eqn:E.
  - exists 0%Q. split; [reflexivity|lra].
  - destruct (fold_js_add_bounded (fun sr => mark_or_zero (map_get subjectName (sr_marks sr)))
                (x :: l) 0%Q) as [b [Eb Hb]].
    { intros y Hy. unfold mark_or_zero.
      destruct (map_get subjectName (sr_marks y)) as [m|] eqn:Em.
      - destruct (H y m Hy Em) as [q [Eq Hq]]. rewrite Eq.
        destruct (js_truthy (JNum (JFin q))); [exists q|exists 0%Q]; split; try reflexivity; lra.
      - exists 0%Q. split; [reflexivity|lra]. }
    cbv zeta. rewrite Eb, jsnat_pos_div by (simpl; lia).
    set (n := inject_Z (Z.of_nat (length (x :: l)))) in *.
    assert (Hn : (0 < n)%Q) by (apply inject_nat_pos; simpl; lia).
    exists (b / n)%Q. split; [reflexivity|]. split.
    + apply Qle_shift_div_l; [exact Hn|lra].
    + apply Qle_shift_div_r; [exact Hn|lra].
Qed.

Section Extremes.
Variable subjectName : string.

Lemma filter_none_equal h prefix :
  (exists y, marks_value h = JFin y /\
     forall sr m, In sr prefix -> map_get subjectName (sr_marks sr) = Some m ->
       exists z, marks_value m = JFin z /\ ~ (z == y)%Q) ->
  filter (has_mark_equal subjectName h) prefix = [].
Proof.
  intros [y [Ey Hlt]]. induction prefix as [|sr prefix IH]; simpl; [reflexivity|].
  unfold has_mark_equal at 1.
  destruct (map_get subjectName (sr_marks sr)) as [m|] eqn:Em.
  - destruct (Hlt sr m (or_introl eq_refl) Em) as [z [Ez Hz]].
    unfold Marks_isEqualTo. rewrite Ez, Ey. simpl. rewrite Qeq_bool_neq_false by exact Hz.
    apply IH. intros sr' m' Hin. apply Hlt. right. exact Hin.
  - apply IH. intros sr' m' Hin. apply Hlt. right. exact Hin.
Qed.

Lemma highest_step prefix acc sr :
  marks_nonneg subjectName (prefix ++ [sr]) -> highest_inv subjectName prefix acc ->
  highest_inv subjectName (prefix ++ [sr])
    ((let '(highestMarks, topStudents) := acc in
      match map_get subjectName (sr_marks sr) with
      | Some marks =>
          if Marks_isGreaterThan marks highestMarks then (marks, [sr])
          else if Marks_isEqualTo marks highestMarks
          then (highestMarks, topStudents ++ [sr])
          else (highestMarks, topStudents)
      | None => (highestMarks, topStudents)
      end)).
Proof.
  destruct acc as [h top]. intros Hnn [[y [Ey Hy]] [Hle [Htop Hfrom]]]. simpl in *.
  assert (Hpre : forall sr' m', In sr' prefix -> map_get subjectName (sr_marks sr') = Some m' ->
                   exists z, marks_value m' = JFin z /\ (z <= y)%Q).
  { intros sr' m' Hin Hm. destruct (Hnn sr' m') as [z [Ez Hz]]; [apply in_or_app; left; exact Hin|exact Hm|].
    exists z. split; [exact Ez|]. specialize (Hle sr' m' Hin Hm). rewrite Ez, Ey, js_le_fin in Hle.
    apply Qle_bool_iff in Hle. exact Hle. }
  destruct (map_get subjectName (sr_marks sr)) as [m|] eqn:Em.
  - destruct (Hnn sr m) as [x [Ex Hx]]; [apply in_or_app; right; left; reflexivity|exact Em|].
    unfold Marks_isGreaterThan, Marks_isEqualTo. rewrite Ex, Ey. simpl.
    destruct (Qlt_le_dec y x) as [Hl|Hl].
    + qfix. cbn [fst snd]. split; [exists x; split; [exact Ex|exact Hx]|]. split; [|split].
      * intros sr' m' Hin Hm. apply in_app_or in Hin as [Hin|[<-|[]]].
        -- destruct (Hpre sr' m' Hin Hm) as [z [Ez Hz]]. cbn [fst snd]. rewrite Ez, Ex, js_le_fin.
           apply Qle_bool_iff. lra.
        -- rewrite Em in Hm. injection Hm as Hm. subst m'. cbn [fst snd]. rewrite Ex, js_le_fin. apply Qle_bool_iff. lra.
      * rewrite filter_app. rewrite filter_none_equal.
        -- simpl. unfold has_mark_equal. rewrite Em. unfold Marks_isEqualTo.
           rewrite Ex. simpl. rewrite Qeq_bool_refl. reflexivity.
        -- exists x. split; [exact Ex|]. intros sr' m' Hin Hm.
           destruct (Hpre sr' m' Hin Hm) as [z [Ez Hz]]. exists z. split; [exact Ez|intro; lra].
      * right. exists sr. split; [apply in_or_app; right; left; reflexivity|exact Em].
    + qfix.
      assert (Hle' : forall sr' m', In sr' (prefix ++ [sr]) -> map_get subjectName (sr_marks sr') = Some m' ->
                       js_le (marks_value m') (marks_value h) = true).
      { intros sr' m' Hin Hm. apply in_app_or in Hin as [Hin|[<-|[]]]; [exact (Hle sr' m' Hin Hm)|].
        rewrite Em in Hm. injection Hm as Hm. subst m'. rewrite Ex, Ey, js_le_fin. apply Qle_bool_iff. exact Hl. }
      assert (Hfrom' : h = Marks_zero \/ exists sr', In sr' (prefix ++ [sr])
                                                  /\ map_get subjectName (sr_marks sr') = Some h).
      { destruct Hfrom as [Hz|[sr' [Hin Hm]]]; [left; exact Hz|right].
        exists sr'. split; [apply in_or_app; left; exact Hin|exact Hm]. }
      destruct (Qeq_bool x y) eqn:Eq.
      * simpl. split; [exists y; split; [exact Ey|exact Hy]|]. split; [exact Hle'|].
        split; [|exact Hfrom'].
        rewrite filter_app, Htop. simpl. unfold has_mark_equal. rewrite Em.
        unfold Marks_isEqualTo. rewrite Ex, Ey. simpl. rewrite Eq. reflexivity.
      * simpl. split; [exists y; split; [exact Ey|exact Hy]|]. split; [exact Hle'|].
        split; [|exact Hfrom'].
        rewrite filter_app, Htop. simpl. unfold has_mark_equal. rewrite Em.
        unfold Marks_isEqualTo. rewrite Ex, Ey. simpl. rewrite Eq, app_nil_r. reflexivity.
  - split; [exists y; split; [exact Ey|exact Hy]|]. split; [|split].
    + intros sr' m' Hin Hm. apply in_app_or in Hin as [Hin|[<-|[]]]; [exact (Hle sr' m' Hin Hm)|].
      rewrite Em in Hm. discriminate.
    + rewrite filter_app, Htop. simpl. unfold has_mark_equal. rewrite Em, app_nil_r. reflexivity.
    + destruct Hfrom as [Hz|[sr' [Hin Hm]]]; [left; exact Hz|right].
      exists sr'. split; [apply in_or_app; left; exact Hin|exact Hm].
Qed.

Lemma marks_nonneg_app_l l1 l2 : marks_nonneg subjectName (l1 ++ l2) -> marks_nonneg subjectName l1.
Proof. intros H sr m Hin. apply H. apply in_or_app. left. exact Hin. Qed.

Lemma marks_finite_app_l l1 l2 : marks_finite subjectName (l1 ++ l2) -> marks_finite subjectName l1.
Proof. intros H sr m Hin. apply H. apply in_or_app. left. exact Hin. Qed.

Lemma highest_fold l : forall prefix acc,
  marks_nonneg subjectName (prefix ++ l) -> highest_inv subjectName prefix acc ->
  highest_inv subjectName (prefix ++ l) (fold_left (highest_step_fn subjectName) l acc).
Proof.
  induction l as [|sr l IH]; intros prefix acc Hnn Hinv.
  - rewrite app_nil_r. exact Hinv.
  - simpl. replace (prefix ++ sr :: l) with ((prefix ++ [sr]) ++ l) by (rewrite <- app_assoc; reflexivity).
    apply IH.
    + rewrite <- app_assoc. exact Hnn.
    + destruct acc as [h t]. apply (highest_step prefix (h, t) sr); [|exact Hinv].
      apply (marks_nonneg_app_l _ l). rewrite <- app_assoc. exact Hnn.
Qed.

Lemma filter_all_none h prefix :
  (forall sr, In sr prefix -> map_get subjectName (sr_marks sr) = None) ->
  filter (has_mark_equal subjectName h) prefix = [].
Proof.
  induction prefix as [|sr prefix IH]; intro H; simpl; [reflexivity|].
  unfold has_mark_equal at 1. rewrite (H sr (or_introl eq_refl)).
  apply IH. intros sr' Hin. apply H. right. exact Hin.
Qed.

Lemma lowest_step prefix acc sr :
  marks_finite subjectName (prefix ++ [sr]) -> lowest_inv subjectName prefix acc ->
  lowest_inv subjectName (prefix ++ [sr]) (lowest_step_fn subjectName acc sr).
Proof.
  destruct acc as [[lm|] bot]; intros Hfin Hinv; unfold lowest_inv in *; cbn [fst snd] in *;
    unfold lowest_step_fn; cbv beta iota;
    destruct (map_get subjectName (sr_marks sr)) as [m|] eqn:Em.
  - destruct Hinv as [[y Ey] [Hle [Hbot [sr0 [Hin0 Hm0]]]]].
    destruct (Hfin sr m) as [x Ex]; [apply in_or_app; right; left; reflexivity|exact Em|].
    assert (Hpre : forall sr' m', In sr' prefix -> map_get subjectName (sr_marks sr') = Some m' ->
                     exists z, marks_value m' = JFin z /\ (y <= z)%Q).
    { intros sr' m' Hin Hm. destruct (Hfin sr' m') as [z Ez]; [apply in_or_app; left; exact Hin|exact Hm|].
      exists z. split; [exact Ez|]. specialize (Hle sr' m' Hin Hm). rewrite Ez, Ey, js_le_fin in Hle.
      apply Qle_bool_iff in Hle. exact Hle. }
    rewrite Ex, Ey. cbn [js_lt js_num_eqb].
    destruct (Qlt_le_dec x y) as [Hl|Hl].
    + qfix. cbn [fst snd]. split; [exists x; exact Ex|]. split; [|split].
      * intros sr' m' Hin Hm. apply in_app_or in Hin as [Hin|[<-|[]]].
        -- destruct (Hpre sr' m' Hin Hm) as [z [Ez Hz]]. rewrite Ez, Ex, js_le_fin.
           apply Qle_bool_iff. lra.
        -- rewrite Em in Hm. injection Hm as Hm. subst m'. rewrite Ex, js_le_fin. apply Qle_bool_iff. lra.
      * rewrite filter_app. rewrite filter_none_equal.
        -- simpl. unfold has_mark_equal. rewrite Em. unfold Marks_isEqualTo.
           rewrite Ex. simpl. rewrite Qeq_bool_refl. reflexivity.
        -- exists x. split; [exact Ex|]. intros sr' m' Hin Hm.
           destruct (Hpre sr' m' Hin Hm) as [z [Ez Hz]]. exists z. split; [exact Ez|intro; lra].
      * exists sr. split; [apply in_or_app; right; left; reflexivity|exact Em].
    + qfix.
      assert (Hle' : forall sr' m', In sr' (prefix ++ [sr]) -> map_get subjectName (sr_marks sr') = Some m' ->
                       js_le (marks_value lm) (marks_value m') = true).
      { intros sr' m' Hin Hm. apply in_app_or in Hin as [Hin|[<-|[]]]; [exact (Hle sr' m' Hin Hm)|].
        rewrite Em in Hm. injection Hm as Hm. subst m'. rewrite Ex, Ey, js_le_fin. apply Qle_bool_iff. exact Hl. }
      assert (Hfrom' : exists sr', In sr' (prefix ++ [sr]) /\ map_get subjectName (sr_marks sr') = Some lm).
      { exists sr0. split; [apply in_or_app; left; exact Hin0|exact Hm0]. }
      destruct (Qeq_bool x y) eqn:Eq.
      * cbn [fst snd]. split; [exists y; exact Ey|]. split; [exact Hle'|]. split; [|exact Hfrom'].
        rewrite filter_app, Hbot. simpl. unfold has_mark_equal. rewrite Em.
        unfold Marks_isEqualTo. rewrite Ex, Ey. simpl. rewrite Eq. reflexivity.
      * cbn [fst snd]. split; [exists y; exact Ey|]. split; [exact Hle'|]. split; [|exact Hfrom'].
        rewrite filter_app, Hbot. simpl. unfold has_mark_equal. rewrite Em.
        unfold Marks_isEqualTo. rewrite Ex, Ey. simpl. rewrite Eq, app_nil_r. reflexivity.
  - destruct Hinv as [Hy [Hle [Hbot [sr0 [Hin0 Hm0]]]]].
    split; [exact Hy|]. split; [|split].
    + intros sr' m' Hin Hm. apply in_app_or in Hin as [Hin|[<-|[]]]; [exact (Hle sr' m' Hin Hm)|].
      rewrite Em in Hm. discriminate.
    + rewrite filter_app, Hbot. simpl. unfold has_mark_equal. rewrite Em, app_nil_r. reflexivity.
    + exists sr0. split; [apply in_or_app; left; exact Hin0|exact Hm0].
  - destruct Hinv as [Hnone Hbot].
    destruct (Hfin sr m) as [x Ex]; [apply in_or_app; right; left; reflexivity|exact Em|].
    cbn [fst snd]. split; [exists x; exact Ex|]. split; [|split].
    + intros sr' m' Hin Hm. apply in_app_or in Hin as [Hin|[<-|[]]].
      * rewrite (Hnone sr' Hin) in Hm. discriminate.
      * rewrite Em in Hm. injection Hm as Hm. subst m'. rewrite Ex, js_le_fin. apply Qle_bool_iff. lra.
    + rewrite filter_app, filter_all_none by exact Hnone. simpl. unfold has_mark_equal. rewrite Em.
      unfold Marks_isEqualTo. rewrite Ex. simpl. rewrite Qeq_bool_refl. reflexivity.
    + exists sr. split; [apply in_or_app; right; left; reflexivity|exact Em].
  - destruct Hinv as [Hnone Hbot]. cbn [fst snd]. split; [|exact Hbot].
    intros sr' Hin. apply in_app_or in Hin as [Hin|[<-|[]]]; [exact (Hnone sr' Hin)|exact Em].
Qed.

Lemma lowest_fold l : forall prefix acc,
  marks_finite subjectName (prefix ++ l) -> lowest_inv subjectName prefix acc ->
  lowest_inv subjectName (prefix ++ l) (fold_left (lowest_step_fn subjectName) l acc).
Proof.
  induction l as [|sr l IH]; intros prefix acc Hfin Hinv.
  - rewrite app_nil_r. exact Hinv.
  - simpl. replace (prefix ++ sr :: l) with ((prefix ++ [sr]) ++ l) by (rewrite <- app_assoc; reflexivity).
    apply IH.
    + rewrite <- app_assoc. exact Hfin.
    + destruct acc as [h t]. apply (lowest_step prefix (h, t) sr); [|exact Hinv].
      apply (marks_finite_app_l _ l). rewrite <- app_assoc. exact Hfin.
Qed.

End Extremes.

(** X15: when the marks of the subject are finite and non-negative, [findHighestMarksInSubject] returns a mark no smaller than any student mark in the subject, which is Marks.zero() or a student's mark, and the students are exactly those (in order) whose mark equals it. *)
Theorem findHighestMarksInSubject_spec r subjectName hm top :
  marks_nonneg subjectName (getStudentResults r) ->
  findHighestMarksInSubject r subjectName = (hm, top) ->
  (exists y, marks_value hm = JFin y /\ (0 <= y)%Q)
  /\ (forall sr m, In sr (getStudentResults r) -> map_get subjectName (sr_marks sr) = Some m ->
        js_le (marks_value m) (marks_value hm) = true)
  /\ top = filter (has_mark_equal subjectName hm) (getStudentResults r)
  /\ (hm = Marks_zero
      \/ exists sr, In sr (getStudentResults r) /\ map_get subjectName (sr_marks sr) = Some hm).
Proof.
  intros Hnn E.
  assert (H0 : highest_inv subjectName [] (Marks_zero, [])).
  { split; [exists 0%Q; split; [reflexivity|lra]|]. split; [intros sr m []|].
    split; [reflexivity|left; reflexivity]. }
  pose proof (highest_fold subjectName (getStudentResults r) [] (Marks_zero, []) Hnn H0) as H.
  change (fold_left (highest_step_fn subjectName) (getStudentResults r) (Marks_zero, []))
    with (findHighestMarksInSubject r subjectName) in H.
  rewrite E in H. exact H.
Qed.

(** X16: when the marks of the subject are finite, [findLowestMarksInSubject] returns a mark no larger than any student mark in the subject and the students (in order) whose mark equals it; the mark is a student's mark, or Marks.zero() with no students when nobody has a mark in the subject. *)
Theorem findLowestMarksInSubject_spec r subjectName lm bottom :
  marks_finite subjectName (getStudentResults r) ->
  findLowestMarksInSubject r subjectName = (lm, bottom) ->
  (forall sr m, In sr (getStudentResults r) -> map_get subjectName (sr_marks sr) = Some m ->
     js_le (marks_value lm) (marks_value m) = true)
  /\ bottom = filter (has_mark_equal subjectName lm) (getStudentResults r)
  /\ ((exists sr, In sr (getStudentResults r) /\ map_get subjectName (sr_marks sr) = Some lm)
      \/ (lm = Marks_zero /\ bottom = []
          /\ forall sr, In sr (getStudentResults r) -> map_get subjectName (sr_marks sr) = None)).
Proof.
  intros Hfin E. unfold findLowestMarksInSubject in E.
  destruct (getStudentResults r) as [|sr0 l] eqn:El.
  - injection E as <- <-. split; [intros sr m []|]. split; [reflexivity|].
    right. split; [reflexivity|]. split; [reflexivity|]. intros sr [].
  - assert (H0 : lowest_inv subjectName [] (None, [])) by (split; [intros sr []|reflexivity]).
    pose proof (lowest_fold subjectName (sr0 :: l) [] (None, []) Hfin H0) as H.
    change (fold_left (lowest_step_fn subjectName) (sr0 :: l) (None, [])) with
      (fold_left (fun '(lowestMarks, bottomStudents) sr =>
                     match map_get subjectName (sr_marks sr) with
                     | Some marks =>
                         match lowestMarks with
                         | None => (Some marks, [sr])
                         | Some lm =>
                             if js_lt (marks_value marks) (marks_value lm) then (Some marks, [sr])
                             else if js_num_eqb (marks_value marks) (marks_value lm)
                             then (lowestMarks, bottomStudents ++ [sr])
                             else (lowestMarks, bottomStudents)
                         end
                     | None => (lowestMarks, bottomStudents)
                     end) (sr0 :: l) (None, [])) in H.
    destruct (fold_left _ (sr0 :: l) (None, [])) as [[lm'|] bot] eqn:Ef;
      injection E as <- <-; unfold lowest_inv in H; cbn [fst snd app] in H.
    + destruct H as [_ [Hle [Hbot Hfrom]]]. split; [exact Hle|]. split; [exact Hbot|]. left; exact Hfrom.
    + destruct H as [Hnone Hbot]. split; [intros sr m Hin Hm; rewrite (Hnone sr Hin) in Hm; discriminate|].
      split; [rewrite filter_all_none; [exact Hbot|exact Hnone]|].
      right. split; [reflexivity|]. split; [exact Hbot|exact Hnone].
Qed.

Lemma getLetterGrade_in_keys p : In (Percentage_getLetterGrade p) grade_keys.
Proof.
  unfold Percentage_getLetterGrade, grade_keys.
  repeat match goal with |- context [if ?b then _ else _] => destruct b end; simpl; tauto.
Qed.

Lemma map_get_keys {A} (f : string -> A) g0 keys :
  In g0 keys -> map_get g0 (map (fun g => (g, f g)) keys) = Some (f g0).
Proof.
  induction keys as [|k keys IH]; simpl; [intros []|intros [<-|Hin]].
  - rewrite String.eqb_refl. reflexivity.
  - destruct (String.eqb g0 k) eqn:E; [apply String.eqb_eq in E; subst; reflexivity|exact (IH Hin)].
Qed.

Lemma map_set_keys {A} (f : string -> A) g0 v keys :
  NoDup keys -> In g0 keys ->
  map_set g0 v (map (fun g => (g, f g)) keys)
  = map (fun g => (g, if String.eqb g g0 then v else f g)) keys.
Proof.
  induction keys as [|k keys IH]; simpl; [intros _ []|intros Hnd Hin].
  inversion Hnd as [|? ? Hnk Hnd']; subst.
  destruct (String.eqb g0 k) eqn:E.
  - apply String.eqb_eq in E. subst k. rewrite String.eqb_refl. f_equal.
    apply map_ext_in. intros g Hg. destruct (String.eqb g g0) eqn:E'; [|reflexivity].
    apply String.eqb_eq in E'. subst. contradiction.
  - rewrite String.eqb_sym, E. f_equal. apply IH; [exact Hnd'|].
    destruct Hin as [->|Hin]; [rewrite String.eqb_refl in E; discriminate|exact Hin].
Qed.

Lemma jsnat_old c :
  (if js_truthy (JNum (jsnat c)) then jsnat c else JFin 0%Q) = jsnat c.
Proof. destruct c; reflexivity. Qed.

Lemma grade_keys_NoDup : NoDup grade_keys.
Proof. unfold grade_keys. repeat constructor; simpl; intuition discriminate. Qed.

Lemma grade_fold l : forall c,
  fold_left (fun gradeCount sr =>
               let grade := Percentage_getLetterGrade (sr_percentage sr) in
               let old := match map_get grade gradeCount with
                          | Some n => if js_truthy (JNum n) then n else JFin 0%Q
                          | None => JFin 0%Q
                          end in
               map_set grade (js_add old (JFin 1%Q)) gradeCount)
            l (map (fun g => (g, jsnat (c g))) grade_keys)
  = map (fun g => (g, jsnat (c g + grade_count g l))) grade_keys.
Proof.
  induction l as [|sr l IH]; intro c; cbn [fold_left].
  - apply map_ext. intro g. unfold grade_count. simpl. rewrite Nat.add_0_r. reflexivity.
  - rewrite map_get_keys by apply getLetterGrade_in_keys.
    rewrite jsnat_old, jsnat_succ.
    rewrite (map_set_keys (fun g => jsnat (c g))) by (apply grade_keys_NoDup || apply getLetterGrade_in_keys).
    set (g0 := Percentage_getLetterGrade (sr_percentage sr)).
    rewrite (map_ext (fun g => (g, if String.eqb g g0 then jsnat (S (c g0)) else jsnat (c g)))
                     (fun g => (g, jsnat ((fun g => if String.eqb g g0 then S (c g) else c g) g)))).
    2:{ intro g. destruct (String.eqb g g0) eqn:E; [apply String.eqb_eq in E; subst; reflexivity|reflexivity]. }
    rewrite IH. apply map_ext. intro g. unfold grade_count. simpl. fold g0.
    rewrite (String.eqb_sym g g0). destruct (String.eqb g0 g); simpl; do 2 f_equal; lia.
Qed.

Lemma grade_count_sum l :
  fold_right Nat.add 0 (map (fun g => grade_count g l) grade_keys) = length l.
Proof.
  induction l as [|sr l IH]; [reflexivity|].
  unfold grade_count in *. simpl.
  pose proof (getLetterGrade_in_keys (sr_percentage sr)) as Hin.
  destruct (Percentage_getLetterGrade (sr_percentage sr)) as [|c s] eqn:E; [destruct Hin as [H|[H|[H|[H|[H|[H|[H|[]]]]]]]]; discriminate H|].
  simpl in Hin. destruct Hin as [H|[H|[H|[H|[H|[H|[H|[]]]]]]]]; rewrite <- H; simpl; simpl in IH; lia.
Qed.

(** X17: [calculateGradeDistribution] maps each grade A+, A, B, C, D, E, F (in this order) to the number of students with that letter grade, and these counts add up to the number of students. *)
Theorem calculateGradeDistribution_counts r :
  calculateGradeDistribution r
  = map (fun g => (g, jsnat (grade_count g (getStudentResults r)))) grade_keys
  /\ fold_right Nat.add 0 (map (fun g => grade_count g (getStudentResults r)) grade_keys)
     = getStudentCount r.
Proof.
  split.
  - unfold calculateGradeDistribution.
    change (map (fun g => (g, JFin 0%Q)) grade_keys) with (map (fun g => (g, jsnat ((fun _ => 0) g))) grade_keys).
    rewrite grade_fold. reflexivity.
  - rewrite grade_count_sum. unfold getStudentCount, getStudentResults. apply length_map.
Qed.

Lemma lev_fill_bound c s1 : forall prev left i j,
  (forall k, nth k prev 0 <= Nat.max i (j + k)) ->
  forall k, nth k (lev_fill c s1 prev left) 0 <= S (Nat.max i (j + k)).
Proof.
  induction s1 as [|a s1 IH]; intros prev left i j Hp k; simpl; [destruct k; simpl; lia|].
  destruct prev as [|d [|u prev']]; [destruct k; simpl; lia|destruct k; simpl; lia|].
  set (v := if Ascii.eqb c a then d else Nat.min (Nat.min (d + 1) (left + 1)) (u + 1)).
  assert (Hv : v <= d + 1) by (unfold v; destruct (Ascii.eqb c a); lia).
  destruct k as [|k].
  - specialize (Hp 0). simpl in Hp. cbn [nth]. lia.
  - specialize (IH (u :: prev') v i (S j)).
    assert (H : forall k, nth k (u :: prev') 0 <= Nat.max i (S j + k)).
    { intro k'. specialize (Hp (S k')). simpl in Hp. replace (S j + k') with (j + S k') by lia. exact Hp. }
    specialize (IH H k). cbn [nth]. replace (j + S k) with (S j + k) by lia. exact IH.
Qed.

Lemma lev_rows_bound s2 s1 : forall i prev,
  (forall k, nth k prev 0 <= Nat.max i k) ->
  forall k, nth k (lev_rows s2 s1 i prev) 0 <= Nat.max (i + length s2) k.
Proof.
  induction s2 as [|c s2 IH]; intros i prev Hp k; simpl.
  - rewrite Nat.add_0_r. apply Hp.
  - replace (i + S (length s2)) with (S i + length s2) by lia. apply IH.
    intros [|k']; simpl; [lia|].
    pose proof (lev_fill_bound c s1 prev (S i) i 0 Hp k'). simpl in H. lia.
Qed.

Lemma nth_seq_le k n : nth k (seq 0 n) 0 <= Nat.max 0 k.
Proof.
  destruct (Nat.lt_ge_cases k n) as [H|H].
  - rewrite seq_nth by exact H. lia.
  - rewrite nth_overflow by (rewrite length_seq; exact H). lia.
Qed.

Lemma levenshteinDistance_le str1 str2 :
  levenshteinDistance str1 str2 <= Nat.max (slength str2) (slength str1).
Proof.
  unfold levenshteinDistance.
  pose proof (lev_rows_bound (list_ascii_of_string str2) (list_ascii_of_string str1) 0
                (seq 0 (S (length (list_ascii_of_string str1))))
                (fun k => nth_seq_le k _) (length (list_ascii_of_string str1))) as H.
  rewrite !length_list_ascii_of_string in *. simpl in H. exact H.
Qed.

Lemma length_lev_fill c s1 : forall prev left,
  length prev = S (length s1) -> length (lev_fill c s1 prev left) = length s1.
Proof.
  induction s1 as [|a s1 IH]; intros prev left Hl; simpl; [reflexivity|].
  destruct prev as [|d [|u prev']]; simpl in Hl; try discriminate.
  simpl. f_equal. apply IH. simpl in *. lia.
Qed.

Lemma nth_lev_fill_eq c s1 : forall k prev left,
  S k < length prev -> Ascii.eqb c (nth k s1 "a"%char) = true -> k < length s1 ->
  nth k (lev_fill c s1 prev left) 0 = nth k prev 0.
Proof.
  induction s1 as [|a s1 IH]; intros k prev left Hk He Hs; simpl in *; [lia|].
  destruct prev as [|d [|u prev']]; simpl in Hk; try lia.
  destruct k as [|k].
  - rewrite He. reflexivity.
  - simpl. apply IH; simpl; [lia|exact He|lia].
Qed.

Lemma lev_rows_diag s2 : forall p i prev,
  length p = i -> length prev = S (length (p ++ s2)) -> nth i prev 0 = 0 ->
  nth (length (p ++ s2)) (lev_rows s2 (p ++ s2) i prev) 0 = 0.
Proof.
  induction s2 as [|c s2 IH]; intros p i prev Hp Hl H0; simpl.
  - rewrite app_nil_r in *. subst i. exact H0.
  - replace (p ++ c :: s2) with ((p ++ [c]) ++ s2) by (rewrite <- app_assoc; reflexivity).
    apply IH.
    + rewrite length_app. simpl. lia.
    + simpl. f_equal. apply length_lev_fill.
      rewrite <- app_assoc. exact Hl.
    + simpl. rewrite <- app_assoc. simpl.
      rewrite nth_lev_fill_eq; [exact H0| | |].
      * rewrite Hl, length_app. simpl. lia.
      * rewrite app_nth2 by lia. rewrite Hp, Nat.sub_diag. simpl. apply Ascii.eqb_refl.
      * rewrite length_app. simpl. lia.
Qed.

Lemma levenshteinDistance_refl s : levenshteinDistance s s = 0.
Proof.
  unfold levenshteinDistance.
  apply (lev_rows_diag (list_ascii_of_string s) [] 0); simpl; [reflexivity|rewrite length_seq; reflexivity|reflexivity].
Qed.

Lemma levenshteinDistance_empty s : levenshteinDistance s "" = slength s.
Proof.
  unfold levenshteinDistance. change (list_ascii_of_string "") with (@nil ascii). cbn [lev_rows]. rewrite seq_nth by lia. rewrite length_list_ascii_of_string. reflexivity.
Qed.

(** X18: [calculateStringSimilarity] lies in [0, 1], is 1 for a string and itself, and is 0 for a non-empty string and the empty string. *)
Theorem calculateStringSimilarity_range str1 str2 :
  (0 <= calculateStringSimilarity str1 str2 <= 1)%Q
  /\ (calculateStringSimilarity str1 str1 == 1)%Q
  /\ (str1 <> "" -> calculateStringSimilarity str1 "" == 0)%Q.
Proof.
  split; [|split].
  - unfold calculateStringSimilarity.
    set (longer := if Nat.ltb (slength str2) (slength str1) then str1 else str2).
    set (shorter := if Nat.ltb (slength str2) (slength str1) then str2 else str1).
    assert (Hsl : slength shorter <= slength longer)
      by (unfold shorter, longer; destruct (Nat.ltb_spec (slength str2) (slength str1)); lia).
    destruct (Nat.eqb_spec (slength longer) 0) as [E|E]; [lra|].
    pose proof (levenshteinDistance_le longer shorter) as Hd.
    assert (Hd' : levenshteinDistance longer shorter <= slength longer) by lia.
    set (n := slength longer) in *. set (d := levenshteinDistance longer shorter) in *.
    assert (Hn : (0 < inject_Z (Z.of_nat n))%Q).
    { change 0%Q with (inject_Z 0). rewrite <- Zlt_Qlt. lia. }
    assert (Hdq : (inject_Z (Z.of_nat d) <= inject_Z (Z.of_nat n))%Q) by (rewrite <- Zle_Qle; lia).
    assert (Hd0 : (0 <= inject_Z (Z.of_nat d))%Q) by (change 0%Q with (inject_Z 0); rewrite <- Zle_Qle; lia).
    split.
    + apply Qle_shift_div_l; [exact Hn|]. lra.
    + apply Qle_shift_div_r; [exact Hn|]. lra.
  - unfold calculateStringSimilarity. rewrite Nat.ltb_irrefl.
    destruct (Nat.eqb_spec (slength str1) 0) as [E|E]; [reflexivity|].
    rewrite levenshteinDistance_refl.
    assert (Hn : ~ (inject_Z (Z.of_nat (slength str1)) == 0)%Q).
    { change 0%Q with (inject_Z 0). rewrite inject_Z_injective. lia. }
    change (inject_Z (Z.of_nat 0)) with 0%Q. field. exact Hn.
  - intro Hne. unfold calculateStringSimilarity.
    assert (Hl : slength str1 <> 0) by (destruct str1; [contradiction|discriminate]).
    change (slength "") with 0. destruct (Nat.ltb_spec 0 (slength str1)) as [_|H]; [|lia].
    destruct (Nat.eqb_spec (slength str1) 0) as [E|_]; [lia|].
    rewrite levenshteinDistance_empty.
    assert (Hn : ~ (inject_Z (Z.of_nat (slength str1)) == 0)%Q).
    { change 0%Q with (inject_Z 0). rewrite inject_Z_injective. lia. }
    field. exact Hn.
Qed.

Lemma js_round_range q : (0 <= q <= 100)%Q -> score_ok (js_round (JFin q)).
Proof.
  intro Hq. exists (Qfloor (q + (1 # 2))). split; [reflexivity|].
  pose proof (Qfloor_le (q + (1 # 2))) as H1.
  pose proof (Qlt_floor (q + (1 # 2))) as H2.
  set (z := Qfloor (q + (1 # 2))) in *.
  rewrite inject_Z_plus in H2. change (inject_Z 1) with 1%Q in H2.
  split.
  - destruct (Z_le_gt_dec 0 z) as [H|H]; [exact H|exfalso].
    assert (Hz : (inject_Z z <= -1)%Q) by (change (-1)%Q with (inject_Z (-1)); rewrite <- Zle_Qle; lia).
    lra.
  - destruct (Z_le_gt_dec z 100) as [H|H]; [exact H|exfalso].
    assert (Hz : (101 <= inject_Z z)%Q) by (change 101%Q with (inject_Z 101); rewrite <- Zle_Qle; lia).
    lra.
Qed.

Lemma ratio_score a n :
  0 < n -> a <= n ->
  score_ok (js_round (js_mul (js_div (jsnat a) (jsnat n)) (JFin 100%Q))).
Proof.
  intros Hn Ha. unfold jsnat at 1. rewrite jsnat_pos_div by exact Hn. cbn [js_mul].
  apply js_round_range.
  pose proof (inject_nat_pos n Hn) as Hq.
  assert (Haq : (inject_Z (Z.of_nat a) <= inject_Z (Z.of_nat n))%Q) by (rewrite <- Zle_Qle; lia).
  assert (Ha0 : (0 <= inject_Z (Z.of_nat a))%Q) by (change 0%Q with (inject_Z 0); rewrite <- Zle_Qle; lia).
  assert (H1 : (0 <= inject_Z (Z.of_nat a) / inject_Z (Z.of_nat n))%Q) by (apply Qle_shift_div_l; lra).
  assert (H2 : (inject_Z (Z.of_nat a) / inject_Z (Z.of_nat n) <= 1)%Q) by (apply Qle_shift_div_r; lra).
  split; nra.
Qed.

Lemma completed_fields_le row : completed_fields row <= 3.
Proof.
  unfold completed_fields.
  destruct (js_truthy _), (js_truthy _), (Nat.ltb _ _); simpl; lia.
Qed.

Lemma completed_fold_le rows : forall c,
  fold_left (fun count row => count + completed_fields row) rows c <= c + length rows * 3.
Proof.
  induction rows as [|row rows IH]; intro c; simpl; [lia|].
  specialize (IH (c + completed_fields row)). pose proof (completed_fields_le row). lia.
Qed.

Lemma overall_score a b c :
  score_ok a -> score_ok b -> score_ok c ->
  score_ok (js_round (js_div (js_add (js_add a b) c) (JFin 3%Q))).
Proof.
  intros [x [-> Hx]] [y [-> Hy]] [z [-> Hz]]. cbn [js_add js_div].
  rewrite Qeq_bool_neq_false by (intro H; discriminate H).
  apply js_round_range.
  assert (Hx' : (0 <= inject_Z x <= 100)%Q) by (change 0%Q with (inject_Z 0); change 100%Q with (inject_Z 100); rewrite <- !Zle_Qle; lia).
  assert (Hy' : (0 <= inject_Z y <= 100)%Q) by (change 0%Q with (inject_Z 0); change 100%Q with (inject_Z 100); rewrite <- !Zle_Qle; lia).
  assert (Hz' : (0 <= inject_Z z <= 100)%Q) by (change 0%Q with (inject_Z 0); change 100%Q with (inject_Z 100); rewrite <- !Zle_Qle; lia).
  split; [apply Qle_shift_div_l|apply Qle_shift_div_r]; lra.
Qed.

(** X20: for a non-empty list of rows and at most one validation result per row, the four scores of [analyzeDataQuality] are integers between 0 and 100. *)
Theorem analyzeDataQuality_scores rows vrs :
  rows <> [] -> length vrs <= length rows ->
  let dq := analyzeDataQuality rows vrs in
  score_ok (completenessScore dq) /\ score_ok (consistencyScore dq)
  /\ score_ok (accuracyScore dq) /\ score_ok (overallScore dq).
Proof.
  intros Hne Hle. assert (Hn : 0 < length rows) by (destruct rows; [contradiction|simpl; lia]).
  assert (H1 : score_ok (js_round (js_mul (js_div (jsnat (fold_left (fun count row => count + completed_fields row) rows 0))
                                              (jsnat (length rows * 3))) (JFin 100%Q)))).
  { apply ratio_score; [lia|]. pose proof (completed_fold_le rows 0). lia. }
  assert (H2 : score_ok (js_round (js_mul (js_div (jsnat (length (filter (fun r => Nat.eqb (length (rv_warnings r)) 0) vrs)))
                                              (jsnat (length rows))) (JFin 100%Q)))).
  { apply ratio_score; [lia|]. pose proof (filter_length_le (fun r => Nat.eqb (length (rv_warnings r)) 0) vrs). lia. }
  assert (H3 : score_ok (js_round (js_mul (js_div (jsnat (length (filter (fun r => Nat.eqb (length (rv_errors r)) 0) vrs)))
                                              (jsnat (length rows))) (JFin 100%Q)))).
  { apply ratio_score; [lia|]. pose proof (filter_length_le (fun r => Nat.eqb (length (rv_errors r)) 0) vrs). lia. }
  simpl. split; [exact H1|]. split; [exact H2|]. split; [exact H3|]. apply overall_score; assumption.
Qed.

Lemma js_round_ratio_empty c :
  js_round (js_mul (js_div (jsnat c) (jsnat 0)) (JFin 100%Q)) = JNaN
  \/ js_round (js_mul (js_div (jsnat c) (jsnat 0)) (JFin 100%Q)) = JPosInf.
Proof.
  destruct c as [|c]; [left; reflexivity|right]. unfold jsnat, js_div.
  change (Qeq_bool (inject_Z (Z.of_nat 0)) 0) with true. cbv iota.
  rewrite Qeq_bool_neq_false by (intro H; unfold Qeq in H; simpl in H; lia).
  unfold Qsgn. rewrite Qeq_bool_neq_false by (intro H; unfold Qeq in H; simpl in H; lia).
  unfold Qltb. rewrite (proj2 (Qle_bool_iff _ _)) by (unfold Qle; simpl; lia). reflexivity.
Qed.

(** X21: with no rows, [analyzeDataQuality] gives NaN completeness and overall scores and the single insight "Data quality needs significant improvement". *)
Theorem analyzeDataQuality_no_rows vrs :
  completenessScore (analyzeDataQuality [] vrs) = JNaN
  /\ overallScore (analyzeDataQuality [] vrs) = JNaN
  /\ insights (analyzeDataQuality [] vrs) = ["Data quality needs significant improvement"].
Proof.
  unfold analyzeDataQuality. cbn [length fold_left Nat.mul].
  destruct (js_round_ratio_empty (length (filter (fun r => Nat.eqb (length (rv_warnings r)) 0) vrs))) as [E1|E1];
  destruct (js_round_ratio_empty (length (filter (fun r => Nat.eqb (length (rv_errors r)) 0) vrs))) as [E2|E2];
  rewrite E1, E2; split; reflexivity || (split; reflexivity).
Qed.

Lemma completed_fold_full rows : forall c,
  Forall (fun row => completed_fields row = 3) rows ->
  fold_left (fun count row => count + completed_fields row) rows c = c + length rows * 3.
Proof.
  induction rows as [|row rows IH]; intros c H; simpl; [lia|].
  inversion H as [|? ? Hr Hrs]; subst. rewrite IH by exact Hrs. lia.
Qed.

Lemma filter_all_true {A} (f : A -> bool) l : Forall (fun x => f x = true) l -> filter f l = l.
Proof.
  induction l as [|x l IH]; intro H; simpl; [reflexivity|].
  inversion H as [|? ? Hx Hl]; subst. rewrite Hx, IH by exact Hl. reflexivity.
Qed.

Lemma full_ratio n : 0 < n -> js_round (js_mul (js_div (jsnat n) (jsnat n)) (JFin 100%Q)) = JFin 100%Q.
Proof.
  intro Hn. unfold jsnat at 1. rewrite jsnat_pos_div by exact Hn. cbn [js_mul js_round].
  assert (Hq := inject_nat_pos n Hn).
  rewrite (Qfloor_comp _ (201 # 2)); [reflexivity|].
  field. intro H. rewrite H in Hq. discriminate Hq.
Qed.

(** X22: when every row has a name, a roll number and marks, and every row's validation result has no error and no warning, all four scores are 100 and the only insight is "Data quality is excellent". *)
Theorem analyzeDataQuality_clean rows vrs :
  rows <> [] -> length vrs = length rows ->
  Forall (fun row => completed_fields row = 3) rows ->
  Forall (fun r => rv_warnings r = [] /\ rv_errors r = []) vrs ->
  analyzeDataQuality rows vrs
  = mkDataQuality (JFin 100%Q) (JFin 100%Q) (JFin 100%Q) (JFin 100%Q) ["Data quality is excellent"].
Proof.
  intros Hne Hl Hrows Hvrs. assert (Hn : 0 < length rows) by (destruct rows; [contradiction|simpl; lia]).
  unfold analyzeDataQuality.
  rewrite completed_fold_full by exact Hrows.
  rewrite (filter_all_true (fun r => Nat.eqb (length (rv_warnings r)) 0)).
  2:{ eapply Forall_impl; [|exact Hvrs]. intros r [-> _]. reflexivity. }
  rewrite (filter_all_true (fun r => Nat.eqb (length (rv_errors r)) 0)).
  2:{ eapply Forall_impl; [|exact Hvrs]. intros r [_ ->]. reflexivity. }
  rewrite Hl, Nat.add_0_l, !full_ratio by lia. reflexivity.
Qed.

(** X23: when [validateData] succeeds it returns one row result per row, its summary counts all rows, valid plus invalid rows add up to that count, and the warning rows do not exceed it. *)
Theorem validateData_summary_counts rows customRules d :
  validateData rows customRules = Ok d ->
  length (dv_rowResults d) = length rows
  /\ totalRows (dv_summary d) = length rows
  /\ validRows (dv_summary d) + invalidRows (dv_summary d) = length rows
  /\ warningRows (dv_summary d) <= length rows.
Proof.
  unfold validateData, validateTransformed. intro H.
  destruct (analyzeDuplicates rows) as [da|e]; [|discriminate]. cbn [bind] in H.
  injection H as <-. cbn.
  assert (Hl : length (map (fun '(index, row) => validateRow row index (DEFAULT_RULES ++ customRules) rows)
                          (indexed rows)) = length rows).
  { rewrite length_map. unfold indexed. rewrite length_combine, length_seq. apply Nat.min_id. }
  split; [exact Hl|]. split; [reflexivity|]. split.
  - rewrite filter_length. exact Hl.
  - rewrite <- Hl. apply filter_length_le.
Qed.

Lemma filter_nil_iff {A} (f : A -> bool) l :
  filter f l = [] <-> forall x, In x l -> f x = false.
Proof.
  induction l as [|x l IH]; simpl; [split; [intros _ x []|reflexivity]|].
  destruct (f x) eqn:E; split.
  - discriminate.
  - intro H. rewrite (H x (or_introl eq_refl)) in E. discriminate.
  - intros H y [<-|Hy]; [exact E|]. apply IH; assumption.
  - intro H. apply IH. intros y Hy. apply H. right. exact Hy.
Qed.

Lemma marks_range_bad_false n :
  (js_isNaN n || js_lt n (JFin 0%Q) || js_lt (JFin 100%Q) n) = false <->
  exists q, n = JFin q /\ (0 <= q <= 100)%Q.
Proof.
  split.
  - destruct n as [| | |q]; simpl; try discriminate.
    intro H. apply orb_false_iff in H as [H1 H2]. apply Qltb_false in H1. apply Qltb_false in H2.
    exists q. split; [reflexivity|lra].
  - intros [q [-> Hq]]. simpl. qfix. reflexivity.
Qed.

(** X24: the marks-range rule never throws, and it accepts a row exactly when every entry of its marks object converts with [Number] to a finite value in [0, 100]. *)
Theorem marks_range_validator_spec value row allRows :
  exists vr, marks_range_validator value row allRows = Ok vr
  /\ (vr_isValid vr = true <->
      forall subject v, In (subject, v) (js_entries (row_marks row)) ->
        exists q, js_Number v = JFin q /\ (0 <= q <= 100)%Q).
Proof.
  unfold marks_range_validator.
  set (bad := fun e : string * jsval => let '(_, marks) := e in
                let numMarks := js_Number marks in
                js_isNaN numMarks || js_lt numMarks (JFin 0%Q) || js_lt (JFin 100%Q) numMarks).
  change (filter (fun '(_, marks) => _) (js_entries (row_marks row))) with (filter bad (js_entries (row_marks row))).
  assert (Hiff : filter bad (js_entries (row_marks row)) = [] <->
                 forall subject v, In (subject, v) (js_entries (row_marks row)) ->
                   exists q, js_Number v = JFin q /\ (0 <= q <= 100)%Q).
  { rewrite filter_nil_iff. split.
    - intros H subject v Hin. apply marks_range_bad_false. exact (H (subject, v) Hin).
    - intros H [subject v] Hin. apply marks_range_bad_false. exact (H subject v Hin). }
  destruct (filter bad (js_entries (row_marks row))) as [|e l] eqn:E; cbn [map].
  - eexists. split; [reflexivity|]. simpl. split; [intros _; apply Hiff; reflexivity|reflexivity].
  - eexists. split; [reflexivity|]. simpl. split; [discriminate|].
    intro H. apply Hiff in H. discriminate H.
Qed.

(** X25: [new Subject(name, maxMarks)] succeeds exactly when the trimmed name is non-empty and maxMarks is in (0, 1000] or is NaN: NaN passes both checks. *)
Theorem newSubject_ok_iff name maxMarks isOptional :
  is_ok (newSubject name maxMarks isOptional) = true <->
  slength (trim name) <> 0
  /\ (maxMarks = JNaN \/ exists q, maxMarks = JFin q /\ (0 < q <= 1000)%Q).
Proof.
  unfold newSubject.
  destruct (Nat.eqb_spec (slength (trim name)) 0) as [E|E]; simpl.
  - split; [discriminate|intros [H _]; contradiction].
  - destruct maxMarks as [| | |q]; simpl.
    + split; [intros _; split; [exact E|left; reflexivity]|reflexivity].
    + split; [discriminate|intros [_ [H|[q [H _]]]]; discriminate H].
    + split; [discriminate|intros [_ [H|[q [H _]]]]; discriminate H].
    + destruct (Qlt_le_dec 0 q) as [H0|H0]; destruct (Qlt_le_dec 1000 q) as [H1|H1];
        unfold js_le, js_lt; simpl; qfix; simpl.
      * split; [discriminate|intros [_ [H|[q' [H Hq]]]]; [discriminate H|injection H as <-; lra]].
      * split; [intros _; split; [exact E|right; exists q; split; [reflexivity|lra]]|reflexivity].
      * split; [discriminate|intros [_ [H|[q' [H Hq]]]]; [discriminate H|injection H as <-; lra]].
      * split; [discriminate|intros [_ [H|[q' [H Hq]]]]; [discriminate H|injection H as <-; lra]].
Qed.

Lemma newSubject_ok_maxMarks name maxMarks isOptional s :
  newSubject name maxMarks isOptional = Ok s ->
  subj_maxMarks s = maxMarks
  /\ (maxMarks = JNaN \/ exists q, maxMarks = JFin q /\ (0 < q <= 1000)%Q).
Proof.
  unfold newSubject. destruct (Nat.eqb (slength (trim name)) 0); [discriminate|].
  destruct maxMarks as [| | |q]; simpl; try discriminate.
  - intro H. injection H as <-. split; [reflexivity|left; reflexivity].
  - unfold js_le, js_lt. simpl.
    destruct (Qlt_le_dec 0 q) as [H0|H0]; destruct (Qlt_le_dec 1000 q) as [H1|H1]; qfix; simpl;
      try discriminate.
    intro H. injection H as <-. split; [reflexivity|right; exists q; split; [reflexivity|lra]].
Qed.

Lemma foldM_add_keeps l : forall acc r,
  foldM addStudentResult acc l = Ok r ->
  res_maxTotalMarks r = res_maxTotalMarks acc /\ res_subjects r = res_subjects acc.
Proof.
  induction l as [|s l IH]; simpl; intros acc r H.
  - injection H as <-. split; reflexivity.
  - destruct (addStudentResult acc s) as [acc'|e] eqn:E; [|discriminate]. simpl in H.
    destruct (IH acc' r H) as [H1 H2]. rewrite H1, H2.
    unfold addStudentResult in E. destruct (validateStudentResult acc s); [|discriminate].
    injection E as <-. split; reflexivity.
Qed.

Lemma sum_maxMarks_bounded l : forall a,
  Forall (fun s => exists q, subj_maxMarks s = JFin q /\ (0 < q <= 1000)%Q) l ->
  exists b, fold_left (fun acc s => js_add acc (subj_maxMarks s)) l (JFin a) = JFin b
            /\ (a <= b <= a + 1000 * inject_Z (Z.of_nat (length l)))%Q
            /\ (l <> [] -> (a < b)%Q).
Proof.
  induction l as [|s l IH]; intros a H; cbn [fold_left length].
  - exists a. split; [reflexivity|]. split; [unfold inject_Z; simpl; lra|]. intro C. contradiction.
  - inversion H as [|? ? [q [Eq Hq]] Hl]; subst. rewrite Eq. cbn [js_add].
    destruct (IH (a + q)%Q Hl) as [b [Eb [Hb _]]]. exists b. split; [exact Eb|].
    rewrite Nat2Z.inj_succ, <- Z.add_1_r, inject_Z_plus. 
    change (inject_Z 1) with 1%Q. split; [lra|intros _; lra].
Qed.

(** X26: a Result built without error keeps as [getMaxTotalMarks] the sum of its subjects' maximum marks, and when those subjects were built with non-NaN maxima the sum is positive and at most 1000 times the number of subjects. *)
Theorem newResult_maxTotalMarks id title subjects studentResults r :
  newResult id title subjects studentResults = Ok r ->
  Forall (fun s => exists name maxMarks isOptional,
            newSubject name maxMarks isOptional = Ok s /\ maxMarks <> JNaN) subjects ->
  res_maxTotalMarks r = sum_maxMarks subjects
  /\ exists q, res_maxTotalMarks r = JFin q
     /\ (0 < q <= 1000 * inject_Z (Z.of_nat (length subjects)))%Q.
Proof.
  intros H Hs. unfold newResult in H.
  destruct (Nat.eqb (slength (trim id)) 0); [discriminate|].
  destruct (Nat.eqb (slength (trim title)) 0); [discriminate|].
  destruct subjects as [|s0 ss] eqn:Esub; [discriminate|].
  rewrite <- Esub in *.
  destruct (foldM_add_keeps _ _ _ H) as [Hm _]. simpl in Hm. rewrite Hm.
  split; [reflexivity|].
  assert (Hf : Forall (fun s => exists q, subj_maxMarks s = JFin q /\ (0 < q <= 1000)%Q) subjects).
  { eapply Forall_impl; [|exact Hs]. intros s [n [mm [o [Hn Hnan]]]].
    destruct (newSubject_ok_maxMarks _ _ _ _ Hn) as [-> [C|Hq]]; [contradiction|exact Hq]. }
  destruct (sum_maxMarks_bounded subjects 0 Hf) as [b [Eb [Hb Hpos]]].
  exists b. split; [exact Eb|]. split; [apply Hpos; rewrite Esub; discriminate|lra].
Qed.

(** ** Witnesses *)

Lemma Percentage_getLetterGrade_monotone_witness :
  (pct_value (mkPercentageRec 55) <= pct_value (mkPercentageRec 85))%Q
  /\ grade_rank (Percentage_getLetterGrade (mkPercentageRec 55))
     <= grade_rank (Percentage_getLetterGrade (mkPercentageRec 85)).
Proof.
  assert (H : (pct_value (mkPercentageRec 55) <= pct_value (mkPercentageRec 85))%Q) by (simpl; lra).
  split; [exact H|exact (Percentage_getLetterGrade_monotone _ _ H)].
Defined.


Lemma Marks_add_total_witness :
  newMarks (JFin 40) false = Ok (mkMarksRec (JFin 40))
  /\ newMarks (JFin 35) false = Ok (mkMarksRec (JFin 35))
  /\ Marks_add (mkMarksRec (JFin 40)) (mkMarksRec (JFin 35)) = Ok (mkMarksRec (js_add (JFin 40) (JFin 35))).
Proof.
  assert (H1 : newMarks (JFin 40) false = Ok (mkMarksRec (JFin 40))) by (vm_compute; reflexivity).
  assert (H2 : newMarks (JFin 35) false = Ok (mkMarksRec (JFin 35))) by (vm_compute; reflexivity).
  split; [exact H1|split; [exact H2|exact (Marks_add_total _ _ _ _ _ _ H1 H2)]].
Defined.

Lemma getTopStudents_calculateRanks_witness :
  let r := sample_result [("1", 85%Q); ("2", 70%Q); ("3", 90%Q)] in
  (0 <= 2)%Z
  /\ (let top := getTopStudents (calculateRanks r) 2 in
      length top = Nat.min (Z.to_nat 2) (getStudentCount r)
      /\ (exists rest, top ++ rest = getStudentsByRank (calculateRanks r))
      /\ ((0 < 2)%Z -> getStudentResults r <> [] ->
          exists sr rest, top = sr :: rest /\ sr_rank sr = Some 1)).
Proof.
  intro r. assert (H : (0 <= 2)%Z) by lia.
  split; [exact H|exact (getTopStudents_calculateRanks r 2 H)].
Defined.

Lemma calculateClassAveragePercentage_ok_witness :
  let r := sample_result [("1", 85%Q); ("2", 70%Q)] in
  (forall sr, In sr (getStudentResults r) -> (0 <= sr_pct sr <= 100)%Q)
  /\ exists p, calculateClassAveragePercentage r = Ok p.
Proof.
  intro r.
  assert (H : forall sr, In sr (getStudentResults r) -> (0 <= sr_pct sr <= 100)%Q).
  { intros sr Hin. simpl in Hin. destruct Hin as [<-|[<-|[]]]; unfold sr_pct; simpl; lra. }
  split; [exact H|exact (calculateClassAveragePercentage_ok r H)].
Defined.

Lemma calculateSubjectAverage_range_witness :
  let r := sample_result [("1", 85%Q); ("2", 70%Q)] in
  (forall sr m, In sr (getStudentResults r) -> map_get "Math" (sr_marks sr) = Some m ->
     exists q, marks_value m = JFin q /\ (0 <= q <= 100)%Q)
  /\ exists q, calculateSubjectAverage r "Math" = JFin q /\ (0 <= q <= 100)%Q.
Proof.
  intro r.
  assert (H : forall sr m, In sr (getStudentResults r) -> map_get "Math" (sr_marks sr) = Some m ->
                exists q, marks_value m = JFin q /\ (0 <= q <= 100)%Q).
  { intros sr m Hin Hm. simpl in Hin. destruct Hin as [<-|[<-|[]]]; simpl in Hm; injection Hm as <-;
      eexists; split; [reflexivity|lra|reflexivity|lra]. }
  split; [exact H|exact (calculateSubjectAverage_range r "Math" H)].
Defined.

Lemma findHighestMarksInSubject_spec_witness :
  let r := sample_result [("1", 85%Q); ("2", 90%Q); ("3", 90%Q)] in
  marks_nonneg "Math" (getStudentResults r)
  /\ exists hm top, findHighestMarksInSubject r "Math" = (hm, top)
  /\ ((exists y, marks_value hm = JFin y /\ (0 <= y)%Q)
      /\ (forall sr m, In sr (getStudentResults r) -> map_get "Math" (sr_marks sr) = Some m ->
            js_le (marks_value m) (marks_value hm) = true)
      /\ top = filter (has_mark_equal "Math" hm) (getStudentResults r)
      /\ (hm = Marks_zero
          \/ exists sr, In sr (getStudentResults r) /\ map_get "Math" (sr_marks sr) = Some hm)).
Proof.
  intro r.
  assert (H : marks_nonneg "Math" (getStudentResults r)).
  { intros sr m Hin Hm. simpl in Hin. destruct Hin as [<-|[<-|[<-|[]]]]; simpl in Hm; injection Hm as <-;
      eexists; split; try reflexivity; lra. }
  split; [exact H|].
  destruct (findHighestMarksInSubject r "Math") as [hm top] eqn:E.
  exists hm, top. split; [reflexivity|exact (findHighestMarksInSubject_spec r "Math" hm top H E)].
Defined.

Lemma findLowestMarksInSubject_spec_witness :
  let r := sample_result [("1", 85%Q); ("2", 60%Q); ("3", 60%Q)] in
  marks_finite "Math" (getStudentResults r)
  /\ exists lm bottom, findLowestMarksInSubject r "Math" = (lm, bottom)
  /\ ((forall sr m, In sr (getStudentResults r) -> map_get "Math" (sr_marks sr) = Some m ->
         js_le (marks_value lm) (marks_value m) = true)
      /\ bottom = filter (has_mark_equal "Math" lm) (getStudentResults r)
      /\ ((exists sr, In sr (getStudentResults r) /\ map_get "Math" (sr_marks sr) = Some lm)
          \/ (lm = Marks_zero /\ bottom = []
              /\ forall sr, In sr (getStudentResults r) -> map_get "Math" (sr_marks sr) = None))).
Proof.
  intro r.
  assert (H : marks_finite "Math" (getStudentResults r)).
  { intros sr m Hin Hm. simpl in Hin. destruct Hin as [<-|[<-|[<-|[]]]]; simpl in Hm; injection Hm as <-;
      eexists; reflexivity. }
  split; [exact H|].
  destruct (findLowestMarksInSubject r "Math") as [lm bottom] eqn:E.
  exists lm, bottom. split; [reflexivity|exact (findLowestMarksInSubject_spec r "Math" lm bottom H E)].
Defined.

Lemma analyzeDataQuality_scores_witness :
  let rows := [sample_row "Alice Smith" "A1" [("math", 50%Q)]; sample_row "Bo" "" []] in
  let vrs := map (fun '(index, row) => validateRow row index DEFAULT_RULES rows) (indexed rows) in
  rows <> [] /\ length vrs <= length rows
  /\ (let dq := analyzeDataQuality rows vrs in
      score_ok (completenessScore dq) /\ score_ok (consistencyScore dq)
      /\ score_ok (accuracyScore dq) /\ score_ok (overallScore dq)).
Proof.
  intros rows vrs.
  assert (H1 : rows <> []) by discriminate.
  assert (H2 : length vrs <= length rows) by (vm_compute; lia).
  split; [exact H1|split; [exact H2|exact (analyzeDataQuality_scores rows vrs H1 H2)]].
Defined.

Lemma analyzeDataQuality_clean_witness :
  let rows := [sample_row "Alice Smith" "A1" [("math", 50%Q)]] in
  let vrs := [mkRowResult 0 true [] []] in
  rows <> [] /\ length vrs = length rows
  /\ Forall (fun row => completed_fields row = 3) rows
  /\ Forall (fun r => rv_warnings r = [] /\ rv_errors r = []) vrs
  /\ analyzeDataQuality rows vrs
     = mkDataQuality (JFin 100%Q) (JFin 100%Q) (JFin 100%Q) (JFin 100%Q) ["Data quality is excellent"].
Proof.
  intros rows vrs.
  assert (H1 : rows <> []) by discriminate.
  assert (H2 : length vrs = length rows) by reflexivity.
  assert (H3 : Forall (fun row => completed_fields row = 3) rows)
    by (constructor; [vm_compute; reflexivity|constructor]).
  assert (H4 : Forall (fun r => rv_warnings r = [] /\ rv_errors r = []) vrs)
    by (constructor; [split; reflexivity|constructor]).
  split; [exact H1|split; [exact H2|split; [exact H3|split; [exact H4|]]]].
  exact (analyzeDataQuality_clean rows vrs H1 H2 H3 H4).
Defined.

Lemma validateData_summary_counts_witness :
  let rows := [sample_row "Alice Smith" "A1" [("math", 50%Q)]; sample_row "Bo" "" []] in
  exists d, validateData rows [] = Ok d
  /\ (length (dv_rowResults d) = length rows
      /\ totalRows (dv_summary d) = length rows
      /\ validRows (dv_summary d) + invalidRows (dv_summary d) = length rows
      /\ warningRows (dv_summary d) <= length rows).
Proof.
  intro rows.
  destruct (validateData rows []) as [d|e] eqn:E; [|vm_compute in E; discriminate E].
  exists d. split; [reflexivity|exact (validateData_summary_counts rows [] d E)].
Defined.

Lemma newResult_maxTotalMarks_witness :
  let subjects := [mkSubjectRec "Math" (JFin 100%Q) false; mkSubjectRec "Art" (JFin 50%Q) true] in
  exists r, newResult "R1" "Term 1" subjects [] = Ok r
  /\ Forall (fun s => exists name maxMarks isOptional,
               newSubject name maxMarks isOptional = Ok s /\ maxMarks <> JNaN) subjects
  /\ (res_maxTotalMarks r = sum_maxMarks subjects
      /\ exists q, res_maxTotalMarks r = JFin q
         /\ (0 < q <= 1000 * inject_Z (Z.of_nat (length subjects)))%Q).
Proof.
  intro subjects.
  destruct (newResult "R1" "Term 1" subjects []) as [r|e] eqn:E; [|vm_compute in E; discriminate E].
  assert (Hs : Forall (fun s => exists name maxMarks isOptional,
                         newSubject name maxMarks isOptional = Ok s /\ maxMarks <> JNaN) subjects).
  { constructor; [|constructor; [|constructor]].
    - exists "Math", (JFin 100%Q), false. split; [vm_compute; reflexivity|discriminate].
    - exists "Art", (JFin 50%Q), true. split; [vm_compute; reflexivity|discriminate]. }
  exists r. split; [reflexivity|split; [exact Hs|exact (newResult_maxTotalMarks _ _ _ _ r E Hs)]].
Defined.

Lemma similarity_cmp_lt (a b : string * Q) :
  js_lt (js_sub (JFin (snd b)) (JFin (snd a))) (JFin 0%Q) = Qltb (snd b) (snd a).
Proof. rewrite js_lt_sub_zero. reflexivity. Qed.

Lemma sorted_desc_head (x : string * Q) l :
  Sorted (fun a b => js_lt (js_sub (JFin (snd a)) (JFin (snd b))) (JFin 0%Q) = false) (x :: l) ->
  forall y, In y l -> (snd y <= snd x)%Q.
Proof.
  intro Hs. apply Sorted_StronglySorted in Hs.
  - apply StronglySorted_inv in Hs as [_ Hall]. intros y Hy.
    rewrite Forall_forall in Hall. specialize (Hall y Hy). cbv beta in Hall.
    rewrite js_lt_sub_zero in Hall. simpl in Hall. apply Qltb_false in Hall. exact Hall.
  - intros a b c Hab Hbc. cbv beta in *. rewrite js_lt_sub_zero in *. simpl in *. qbool. qfix. reflexivity.
Qed.

(** X19: the column suggested for a missing required field is an unmapped column whose similarity is above 0.3 and is the highest among the unmapped columns; there is no suggestion exactly when no unmapped column scores above 0.3. *)
Theorem suggest_for_missing_best unmappedColumns missingField :
  (forall c s, suggest_for_missing unmappedColumns missingField = Some (c, s) ->
     In c unmappedColumns
     /\ s = calculateStringSimilarity (toLowerCase c) missingField
     /\ (3 # 10 < s)%Q
     /\ forall c', In c' unmappedColumns ->
          (calculateStringSimilarity (toLowerCase c') missingField <= s)%Q)
  /\ (suggest_for_missing unmappedColumns missingField = None <->
      forall c', In c' unmappedColumns ->
        (calculateStringSimilarity (toLowerCase c') missingField <= 3 # 10)%Q).
Proof.
  unfold suggest_for_missing.
  set (cmp := fun a b : string * Q => js_sub (JFin (snd b)) (JFin (snd a))).
  set (items := filter (fun item => Qltb (3 # 10) (snd item))
                  (map (fun column => (column, calculateStringSimilarity (toLowerCase column) missingField))
                       unmappedColumns)).
  assert (Hasym : forall a b, js_lt (cmp a b) (JFin 0%Q) = true -> js_lt (cmp b a) (JFin 0%Q) = false).
  { intros a b. unfold cmp. rewrite !js_lt_sub_zero. apply js_lt_asym. }
  pose proof (sort_by_perm cmp items) as Hperm.
  pose proof (sort_by_sorted cmp Hasym items) as Hsort.
  assert (Hin : forall c s, In (c, s) items <->
            In c unmappedColumns /\ s = calculateStringSimilarity (toLowerCase c) missingField
            /\ (3 # 10 < s)%Q).
  { intros c s. unfold items. rewrite filter_In, in_map_iff. split.
    - intros [[c' [Heq Hc']] Hq]. injection Heq as <- <-. simpl in Hq. qbool.
      split; [exact Hc'|split; [reflexivity|exact Hq]].
    - intros [Hc [-> Hq]]. split; [exists c; split; [reflexivity|exact Hc]|]. simpl. qfix. reflexivity. }
  split.
  - intros c s H. destruct (sort_by cmp items) as [|x l] eqn:E; [discriminate|].
    injection H as ->.
    assert (Hx : In (c, s) items) by (apply (Permutation_in _ Hperm); left; reflexivity).
    apply Hin in Hx as [Hc [Hs Hq]]. split; [exact Hc|split; [exact Hs|split; [exact Hq|]]].
    intros c' Hc'.
    destruct (Qlt_le_dec (3 # 10) (calculateStringSimilarity (toLowerCase c') missingField)) as [Hgt|Hle]; [|lra].
    assert (Hy : In (c', calculateStringSimilarity (toLowerCase c') missingField) items)
      by (apply Hin; split; [exact Hc'|split; [reflexivity|exact Hgt]]).
    apply (Permutation_in _ (Permutation_sym Hperm)) in Hy. destruct Hy as [Hy|Hy].
    + injection Hy as _ <-. lra.
    + exact (sorted_desc_head (c, s) l Hsort _ Hy).
  - split.
    + intros H c' Hc'. destruct (sort_by cmp items) as [|x l] eqn:E; [|discriminate].
      apply Permutation_nil in Hperm.
      destruct (Qlt_le_dec (3 # 10) (calculateStringSimilarity (toLowerCase c') missingField)) as [Hgt|Hle]; [|exact Hle].
      assert (Hy : In (c', calculateStringSimilarity (toLowerCase c') missingField) items)
        by (apply Hin; split; [exact Hc'|split; [reflexivity|exact Hgt]]).
      rewrite Hperm in Hy. destruct Hy.
    + intro H. destruct (sort_by cmp items) as [|[c s] l] eqn:E; [reflexivity|exfalso].
      assert (Hx : In (c, s) items) by (apply (Permutation_in _ Hperm); left; reflexivity).
      apply Hin in Hx as [Hc [Hs Hq]]. specialize (H c Hc). rewrite <- Hs in H. lra.
Qed.
